(** * netopeer2-server: the subtree-filter-to-XPath compiler of [src/common.c]

    A shallow embedding of the filter functions of [common.c]
    ([strws], [op_filter_xpath_add_filter], the [filter_xpath_buf_*]
    builders, [op_filter_build_xpath_from_subtree] and [op_filter_create])
    together with the properties of the compiler that the specification
    states, and of the other functions of the file that compute something
    ([np_sleep], [np_get_nc_sess_user], the two session callbacks,
    [np2srv_url_setcap] and [url_readdata]).

    Conventions of the embedding.
    - A C string is a [string]; a growable buffer [char *buf] of [size]
      bytes is the pair of its text and of the [int] [size] the code threads
      along (the text plus the terminating NUL).  A [sprintf] at offset
      [size - 1] of the buffer is [sprintf_at]: it overwrites the buffer from
      that offset on.
    - [int] values are [Z]; sizes are not wrapped (signed overflow is
      undefined in C and unreachable for buffers that fit in memory).
    - [malloc], [realloc] and [strdup] draw their outcome from an oracle in
      the state, so that allocation failure can be followed through every
      path.  [free] has no counterpart: a freed buffer is a value that is no
      longer used.
    - The code checks every allocation but one, the [strdup] of
      [filter_xpath_buf_get_content], whose NULL both callers hand to
      [strlen].  The state records that dereference in [null_deref]: from
      there on the behaviour of the C program is undefined, and nothing is
      claimed of a run that ends with [null_deref] set.
    - [char ***filters, int *filter_count] is the list [filters] of the state;
      the count is its length.
    - libyang is not part of the repository: the context [ly_ctx] is a record
      of the lookups the code calls. *)

From Stdlib Require Import String Ascii List ZArith Lia Bool.
Import ListNotations.

Set Warnings "-register-all".

Open Scope string_scope.
Open Scope Z_scope.

(** ** libyang data, as far as [common.c] reads it *)

(** [LYXML_ATTR_TYPE]: a standard attribute or a namespace declaration. *)
Inductive LYXML_ATTR_TYPE : Type :=
| LYXML_ATTR_STD
| LYXML_ATTR_NS.

(** [struct lyxml_attr]; [attr_ns] is [next->ns->value], [None] for a NULL
    [ns]. *)
Record lyxml_attr : Type := mk_attr {
  attr_type : LYXML_ATTR_TYPE;
  attr_name : string;
  attr_value : string;
  attr_ns : option string
}.

(** [struct lyxml_elem]: [elem_ns] is [elem->ns->value] ([None] for a NULL
    [ns]), [elem_content] is [None] for a NULL [content], [elem_child] is the
    sibling list that starts at [elem->child]. *)
Inductive lyxml_elem : Type := mk_elem {
  elem_name : string;
  elem_ns : option string;
  elem_attr : list lyxml_attr;
  elem_content : option string;
  elem_child : list lyxml_elem
}.

(** [struct lys_node], [struct lys_module]: [mod_data] lists the nodes that
    [lys_getnext(node, NULL, module, 0)] enumerates. *)
Record lys_node : Type := mk_node { node_name : string }.

Record lys_module : Type := mk_module {
  mod_name : string;
  mod_ns : string;
  mod_data : list lys_node
}.

(** [struct ly_ctx], seen through the calls of [common.c]:
    [ly_ctx_get_module_by_ns(ctx, ns, NULL, 1)], the sequence that
    [ly_ctx_get_module_iter] walks, [ly_path_xml2json] ([None] for NULL) and
    [lyxml_parse_mem(ctx, data, LYXML_PARSE_MULTIROOT)], whose result is the
    list of root elements ([[]] for NULL). *)
Record ly_ctx : Type := mk_ctx {
  ly_ctx_get_module_by_ns : string -> option lys_module;
  ly_ctx_get_module_iter : list lys_module;
  ly_path_xml2json : string -> lyxml_elem -> option string;
  lyxml_parse_mem : string -> list lyxml_elem
}.

(** [struct lyd_attr] of the filter node; [value_str] may be NULL. *)
Record lyd_attr : Type := mk_lyd_attr {
  lyd_attr_name : string;
  value_str : option string
}.

(** [LYD_ANYDATA_VALUETYPE] with libyang's numbering. *)
Inductive LYD_ANYDATA_VALUETYPE : Type :=
| LYD_ANYDATA_CONSTSTRING
| LYD_ANYDATA_STRING
| LYD_ANYDATA_JSON
| LYD_ANYDATA_JSOND
| LYD_ANYDATA_SXML
| LYD_ANYDATA_SXMLD
| LYD_ANYDATA_XML
| LYD_ANYDATA_DATATREE
| LYD_ANYDATA_LYB
| LYD_ANYDATA_LYBD.

Definition valuetype_code (t : LYD_ANYDATA_VALUETYPE) : Z :=
  match t with
  | LYD_ANYDATA_CONSTSTRING => 0
  | LYD_ANYDATA_STRING => 1
  | LYD_ANYDATA_JSON => 2
  | LYD_ANYDATA_JSOND => 3
  | LYD_ANYDATA_SXML => 4
  | LYD_ANYDATA_SXMLD => 5
  | LYD_ANYDATA_XML => 8
  | LYD_ANYDATA_DATATREE => 16
  | LYD_ANYDATA_LYB => 32
  | LYD_ANYDATA_LYBD => 33
  end.

(** The value types that hold neither a string nor an XML tree. *)
Inductive mem_valuetype : Type :=
| mem_json
| mem_jsond
| mem_sxml
| mem_sxmld
| mem_datatree
| mem_lyb
| mem_lybd.

(** [value_type] and the union [value] of [struct lyd_node_anydata] as one
    tagged value: a string ([value.str], constant or owned, [None] for NULL),
    an XML tree ([value.xml], [[]] for NULL) or another representation, of
    which only the pointer's being NULL is read. *)
Inductive anydata_value : Type :=
| value_string (const : bool) (str : option string)
| value_xml (xml : list lyxml_elem)
| value_mem (t : mem_valuetype) (null : bool).

Definition value_type (v : anydata_value) : LYD_ANYDATA_VALUETYPE :=
  match v with
  | value_string true _ => LYD_ANYDATA_CONSTSTRING
  | value_string false _ => LYD_ANYDATA_STRING
  | value_xml _ => LYD_ANYDATA_XML
  | value_mem mem_json _ => LYD_ANYDATA_JSON
  | value_mem mem_jsond _ => LYD_ANYDATA_JSOND
  | value_mem mem_sxml _ => LYD_ANYDATA_SXML
  | value_mem mem_sxmld _ => LYD_ANYDATA_SXMLD
  | value_mem mem_datatree _ => LYD_ANYDATA_DATATREE
  | value_mem mem_lyb _ => LYD_ANYDATA_LYB
  | value_mem mem_lybd _ => LYD_ANYDATA_LYBD
  end.

(** [struct lyd_node_anydata], the filter node. *)
Record lyd_node : Type := mk_lyd_node {
  node_attr : list lyd_attr;
  value : anydata_value
}.

(** ** Allocation and the Filter List: a state monad *)

(** The oracle of the allocator, the Filter List, and whether a NULL pointer
    has been dereferenced. *)
Record state : Type := Build_state {
  allocs : list bool;
  filters : list string;
  null_deref : bool
}.

(** A state in which nothing has gone wrong. *)
Definition mk_state (oracle : list bool) (fs : list string) : state :=
  Build_state oracle fs false.

Definition M (A : Type) : Type := state -> A * state.

Definition ret {A : Type} (a : A) : M A := fun s => (a, s).

Definition bind {A B : Type} (m : M A) (f : A -> M B) : M B :=
  fun s => let (a, s') := m s in f a s'.

Declare Scope walk_scope.
Delimit Scope walk_scope with walk.

Notation "x <- c1 ;; c2" := (bind c1 (fun x => c2))
  (at level 100, c1 at next level, right associativity) : walk_scope.

Notation "' pat <- c1 ;; c2" := (bind c1 (fun x => match x with pat => c2 end))
  (at level 100, pat pattern, c1 at next level, right associativity) : walk_scope.

Open Scope walk_scope.

(** One allocation: the next answer of the oracle, success once the oracle is
    used up. *)
Definition malloc : M bool :=
  fun s =>
    match allocs s with
    | [] => (true, s)
    | b :: rest => (b, Build_state rest (filters s) (null_deref s))
    end.

Definition realloc : M bool := malloc.

Definition strdup : M bool := malloc.

(** A NULL pointer is dereferenced.  The C program has no behaviour from
    here on: the state records it, and [a] only stands in for the value that
    never comes. *)
Definition null_dereference {A : Type} (a : A) : M A :=
  fun s => (a, Build_state (allocs s) (filters s) true).

(** The state with which a request starts: no filter yet. *)
Definition init (oracle : list bool) : state := mk_state oracle [].

(** ** C strings *)

Definition strlen (s : string) : Z := Z.of_nat (String.length s).

Definition sprintf_at (buf : string) (off : Z) (text : string) : string :=
  substring 0 (Z.to_nat off) buf ++ text.

(** [isspace] in the C locale. *)
Definition isspace (c : ascii) : bool :=
  let n := nat_of_ascii c in
  (Nat.eqb n 32 || (Nat.leb 9 n && Nat.leb n 13))%bool.

Fixpoint strws (str : string) : bool :=
  match str with
  | EmptyString => true
  | String c rest => if isspace c then strws rest else false
  end.

(** [strchr(s, c) != NULL]. *)
Fixpoint strchr (s : string) (c : ascii) : bool :=
  match s with
  | EmptyString => false
  | String d rest => (Ascii.eqb d c || strchr rest c)%bool
  end.

(** The two quote characters, ['] and the double quote. *)
Definition squote : ascii := "'"%char.

Definition dquote : ascii := Ascii false true false false false true false false.

Definition base_ns : string := "urn:ietf:params:xml:ns:netconf:base:1.0".

(** ** The Filter List *)

Definition op_filter_xpath_add_filter (new_filter : string) : M Z :=
  ok <- realloc ;;
  if ok
  then fun s => (0, Build_state (allocs s) (filters s ++ [new_filter]) (null_deref s))
  else ret (-1).

(** ** Attribute predicates *)

Fixpoint filter_xpath_buf_add_attrs (ctx : ly_ctx) (attr : list lyxml_attr)
    (buf : string) (size : Z) : M (Z * string) :=
  match attr with
  | [] => ret (size, buf)
  | next :: rest =>
      match attr_type next with
      | LYXML_ATTR_STD =>
          match match attr_ns next with
                | Some v => ly_ctx_get_module_by_ns ctx v
                | None => None
                end with
          | None => filter_xpath_buf_add_attrs ctx rest buf size
          | Some module =>
              let new_size :=
                size + 2 + strlen (mod_name module) + 1 + strlen (attr_name next)
                + 2 + strlen (attr_value next) + 2 in
              ok <- realloc ;;
              if ok
              then filter_xpath_buf_add_attrs ctx rest
                     (sprintf_at buf (size - 1)
                        ("[@" ++ mod_name module ++ ":" ++ attr_name next
                         ++ "='" ++ attr_value next ++ "']"))
                     new_size
              else ret (-1, buf)
          end
      | LYXML_ATTR_NS => filter_xpath_buf_add_attrs ctx rest buf size
      end
  end.

(** ** Content literals *)

(** [for (start = elem->content; isspace( *start); ++start);] *)
Fixpoint skip_leading (s : string) : string :=
  match s with
  | EmptyString => s
  | String c rest => if isspace c then skip_leading rest else s
  end.

(** [for (len = strlen(start); isspace(start[len - 1]); --len);]
    The loop is only entered on a text with a character that is not a space
    (see the callers); at [len = 0] the C code would read before [start]. *)
Fixpoint trailing_len (start : string) (len : nat) : nat :=
  match len with
  | O => O
  | S l =>
      match String.get l start with
      | Some c => if isspace c then trailing_len start l else len
      | None => len
      end
  end.

(** The trimmed text, rewritten by [ly_path_xml2json] when that succeeds and
    copied by [strdup] otherwise.  The result of that [strdup] is returned
    as it is: [None] is its NULL.  Both callers call it on a content match
    node, whose text is there and is not only white space. *)
Definition filter_xpath_buf_get_content (ctx : ly_ctx) (elem : lyxml_elem)
    : M (option string) :=
  let start := skip_leading (match elem_content elem with Some c => c | None => "" end) in
  let len := trailing_len start (String.length start) in
  let start := substring 0 len start in
  match ly_path_xml2json ctx start elem with
  | Some r => ret (Some r)
  | None =>
      ok <- strdup ;;
      if ok then ret (Some start) else ret None
  end.

(** The test [elem->ns && (elem->ns->value != last_ns) && strcmp(elem->ns->value, base)]
    of the node builders.  Namespace strings live in libyang's dictionary,
    where equal strings share one address, so the pointer comparison with
    [last_ns] is string equality. *)
Definition foreign_ns (elem : lyxml_elem) (last_ns : string) : option string :=
  match elem_ns elem with
  | Some v =>
      if (negb (String.eqb v last_ns) && negb (String.eqb v base_ns))%bool
      then Some v else None
  | None => None
  end.

(** The head of both node builders: the module name that qualifies the
    step.  [None] is the early [return 0] (the namespace is unknown),
    [Some None] a step without prefix, [Some (Some m)] the prefix [m:]. *)
Definition resolve_module_name (ctx : ly_ctx) (elem : lyxml_elem)
    (elem_module_name : option string) (last_ns : string) : option (option string) :=
  match elem_module_name with
  | Some m => Some (Some m)
  | None =>
      match foreign_ns elem last_ns with
      | Some v =>
          match ly_ctx_get_module_by_ns ctx v with
          | Some module => Some (Some (mod_name module))
          | None => None
          end
      | None => Some None
      end
  end.

(** The prefix [%s%s] that both node builders print: [module:] or nothing. *)
Definition qualifier (elem_module_name : option string) : string :=
  match elem_module_name with
  | Some m => m ++ ":"
  | None => ""
  end.

Definition qualifier_len (elem_module_name : option string) : Z :=
  match elem_module_name with
  | Some m => strlen m + 1
  | None => 0
  end.

(** Top-level content node with optional namespace and attributes.  The
    content goes to [strlen] unchecked. *)
Definition filter_xpath_buf_add_top_content (ctx : ly_ctx) (elem : lyxml_elem)
    (elem_module_name : string) : M Z :=
  content <- filter_xpath_buf_get_content ctx elem ;;
  match content with
  | None => null_dereference (-1)
  | Some content =>
      let size := 1 + strlen elem_module_name + 1 + strlen (elem_name elem) + 9
                  + strlen content + 3 in
      ok <- malloc ;;
      if negb ok then ret (-1)
      else
        let buf := "/" ++ elem_module_name ++ ":" ++ elem_name elem
                   ++ "[text()='" ++ content ++ "']" in
        '(size, buf) <- filter_xpath_buf_add_attrs ctx (elem_attr elem) buf size ;;
        if size =? 0 then ret 0
        else if size <? 1 then ret (-1)
        else
          r <- op_filter_xpath_add_filter buf ;;
          if r =? 0 then ret 0 else ret (-1)
  end.

(** Content node with optional namespace and attributes.  The content goes
    to [strlen] unchecked. *)
Definition filter_xpath_buf_add_content (ctx : ly_ctx) (elem : lyxml_elem)
    (elem_module_name : option string) (last_ns : string)
    (buf : string) (size : Z) : M (Z * string) :=
  match resolve_module_name ctx elem elem_module_name last_ns with
  | None => ret (0, buf)
  | Some elem_module_name =>
      let new_size := size + 1 + qualifier_len elem_module_name + strlen (elem_name elem) in
      ok <- realloc ;;
      if negb ok then ret (-1, buf)
      else
        let buf := sprintf_at buf (size - 1)
                     ("[" ++ qualifier elem_module_name ++ elem_name elem) in
        let size := new_size in
        '(size, buf) <- filter_xpath_buf_add_attrs ctx (elem_attr elem) buf size ;;
        if size =? 0 then ret (0, buf)
        else if size <? 1 then ret (-1, buf)
        else
          content <- filter_xpath_buf_get_content ctx elem ;;
          match content with
          | None => null_dereference (-1, buf)
          | Some content =>
              let new_size := size + 2 + strlen content + 2 in
              ok <- realloc ;;
              if negb ok then ret (-1, buf)
              else
                let quot := if strchr content squote then dquote else squote in
                ret (new_size,
                     sprintf_at buf (size - 1)
                       ("=" ++ String quot content ++ String quot "]"))
          end
  end.

(** Containment/selection node with optional namespace and attributes. *)
Definition filter_xpath_buf_add_node (ctx : ly_ctx) (elem : lyxml_elem)
    (elem_module_name : option string) (last_ns : string)
    (buf : string) (size : Z) : M (Z * string) :=
  match resolve_module_name ctx elem elem_module_name last_ns with
  | None => ret (0, buf)
  | Some elem_module_name =>
      let new_size := size + 1 + qualifier_len elem_module_name + strlen (elem_name elem) in
      ok <- realloc ;;
      if negb ok then ret (-1, buf)
      else
        filter_xpath_buf_add_attrs ctx (elem_attr elem)
          (sprintf_at buf (size - 1) ("/" ++ qualifier elem_module_name ++ elem_name elem))
          new_size
  end.

(** ** The subtree walker *)

(** A child is a content match node when it has no child and a text that is
    not only white space. *)
Definition content_match (child : lyxml_elem) : bool :=
  match elem_child child, elem_content child with
  | [], Some c => negb (strws c)
  | _, _ => false
  end.

(** How the first loop of [filter_xpath_buf_add] ends: it falls through with
    the buffer and [only_content_match_node], or the function returns. *)
Inductive scan_result : Type :=
| Scanned (buf : string) (size : Z) (only_content_match_node : bool)
| Returned (r : Z).

Section Walker.

Variable ctx : ly_ctx.
Variable last_ns : string.

(** The recursive call [filter_xpath_buf_add(ctx, child, NULL, last_ns,
    &buf_new, new_size, filters, filter_count)]. *)
Variable walk : lyxml_elem -> string -> Z -> M Z.

(** First loop: the content match nodes. *)
Fixpoint content_match_nodes (children : list lyxml_elem)
    (elem_module_name : option string) (buf : string) (size : Z)
    (only_content_match_node : bool) : M scan_result :=
  match children with
  | [] => ret (Scanned buf size only_content_match_node)
  | child :: rest =>
      if content_match child
      then
        '(size, buf) <- filter_xpath_buf_add_content ctx child elem_module_name
                          last_ns buf size ;;
        if size =? 0 then ret (Returned 0)
        else if size <? 1 then ret (Returned (-1))
        else content_match_nodes rest elem_module_name buf size only_content_match_node
      else content_match_nodes rest elem_module_name buf size false
  end.

(** The body of the second loop once [buf_new] is there: nonzero is the
    [goto error].  The result of the recursive call is dropped, as in the
    source. *)
Definition branch_child (child : lyxml_elem) (buf_new : string) (new_size : Z) : M Z :=
  match elem_child child with
  | _ :: _ =>
      _ <- walk child buf_new new_size ;;
      ret 0
  | [] =>
      '(new_size, buf_new) <- filter_xpath_buf_add_node ctx child None last_ns
                                buf_new new_size ;;
      if new_size =? 0 then ret 0
      else if new_size <? 1 then ret (-1)
      else
        r <- op_filter_xpath_add_filter buf_new ;;
        if r =? 0 then ret 0 else ret (-1)
  end.

(** Second loop: one branch per child; every child but the last works on a
    copy of the buffer, the last one on the buffer itself. *)
Fixpoint branch (children : list lyxml_elem) (buf : string) (size : Z) : M Z :=
  match children with
  | [] => ret 0
  | child :: rest =>
      ok <- match rest with
            | [] => ret true
            | _ :: _ => malloc
            end ;;
      if negb ok then ret (-1)
      else
        r <- branch_child child buf size ;;
        if r =? 0 then branch rest buf size else ret (-1)
  end.

End Walker.

(** [buf] is spent in the function: on every return the caller's pointer is
    NULL or freed, so only the [int] comes back. *)
Fixpoint filter_xpath_buf_add (ctx : ly_ctx) (elem : lyxml_elem)
    (elem_module_name : option string) (last_ns : string)
    (buf : string) (size : Z) {struct elem} : M Z :=
  '(size, buf) <- filter_xpath_buf_add_node ctx elem elem_module_name last_ns buf size ;;
  if size =? 0 then ret 0
  else if size <? 1 then ret (-1)
  else
    scan <- content_match_nodes ctx last_ns (elem_child elem) elem_module_name
              buf size true ;;
    match scan with
    | Returned r => ret r
    | Scanned buf size true =>
        r <- op_filter_xpath_add_filter buf ;;
        if r =? 0 then ret 0 else ret (-1)
    | Scanned buf size false =>
        branch ctx last_ns
          (fun child => filter_xpath_buf_add ctx child None last_ns)
          (elem_child elem) buf size
    end.

(** ** The top-level resolver *)

(** A module exposes a top-level node of that name. *)
Definition exposes (name : string) (module : lys_module) : bool :=
  existsb (fun node => String.eqb (node_name node) name) (mod_data module).

(** The [while] over [ly_ctx_get_module_iter]: every module with a top-level
    node of that name, each found module one [realloc] of [modules].
    [None] is the [goto error]. *)
Fixpoint modules_by_name (name : string) (iter : list lys_module)
    (modules : list lys_module) : M (option (list lys_module)) :=
  match iter with
  | [] => ret (Some modules)
  | module :: rest =>
      if exposes name module
      then
        ok <- realloc ;;
        if ok then modules_by_name name rest (modules ++ [module])
        else ret None
      else modules_by_name name rest modules
  end.

(** The [for] over [modules]; the walker is entered with [buf = NULL] and
    [size = 1], as it leaves [buf] NULL on success. *)
Definition top_level_branch (ctx : ly_ctx) (next : lyxml_elem) (module : lys_module) : M Z :=
  if content_match next
  then filter_xpath_buf_add_top_content ctx next (mod_name module)
  else filter_xpath_buf_add ctx next (Some (mod_name module)) (mod_ns module) "" 1.

Fixpoint for_modules (ctx : ly_ctx) (next : lyxml_elem) (modules : list lys_module) : M Z :=
  match modules with
  | [] => ret 0
  | module :: rest =>
      r <- top_level_branch ctx next module ;;
      if r =? 0 then for_modules ctx next rest else ret (-1)
  end.

(** The [error] label: every filter and the array are freed. *)
Definition build_error : M Z :=
  fun s => (-1, Build_state (allocs s) [] (null_deref s)).

Fixpoint op_filter_build_xpath_from_subtree (ctx : ly_ctx) (elem : list lyxml_elem) : M Z :=
  match elem with
  | [] => ret 0
  | next :: rest =>
      match match elem_ns next with
            | Some v => if String.eqb v base_ns then None else Some v
            | None => None
            end with
      | Some v =>
          ok <- malloc ;;
          if negb ok then build_error
          else
            match ly_ctx_get_module_by_ns ctx v with
            | None => op_filter_build_xpath_from_subtree ctx rest
            | Some module =>
                r <- for_modules ctx next [module] ;;
                if r =? 0 then op_filter_build_xpath_from_subtree ctx rest
                else build_error
            end
      | None =>
          found <- modules_by_name (elem_name next) (ly_ctx_get_module_iter ctx) [] ;;
          match found with
          | None => build_error
          | Some modules =>
              r <- for_modules ctx next modules ;;
              if r =? 0 then op_filter_build_xpath_from_subtree ctx rest
              else build_error
          end
      end
  end.

(** ** The dispatcher *)

(** Where the first loop of [op_filter_create] leaves [attr]: the function
    has returned -1, or [attr] is the [select] attribute, or NULL. *)
Inductive type_scan : Type :=
| No_select
| Attr (attr : option lyd_attr).

(** The inner loop: the first attribute named [select]. *)
Fixpoint select_attr (attrs : list lyd_attr) : option lyd_attr :=
  match attrs with
  | [] => None
  | attr :: rest =>
      if String.eqb (lyd_attr_name attr) "select" then Some attr
      else select_attr rest
  end.

(** The outer loop over [filter_node->attr].  A [type] attribute with a NULL
    [value_str] (which libyang does not produce) is read as matching
    neither word. *)
Fixpoint scan_type (all attrs : list lyd_attr) : type_scan :=
  match attrs with
  | [] => Attr None
  | attr :: rest =>
      if String.eqb (lyd_attr_name attr) "type"
      then
        match value_str attr with
        | Some v =>
            if String.eqb v "xpath"
            then
              match select_attr all with
              | None => No_select
              | Some sel => Attr (Some sel)
              end
            else if String.eqb v "subtree" then Attr None
            else scan_type all rest
        | None => scan_type all rest
        end
      else scan_type all rest
  end.

(** [!value.str]: the pointer of the union is NULL. *)
Definition value_null (v : anydata_value) : bool :=
  match v with
  | value_string _ None => true
  | value_xml [] => true
  | value_mem _ null => null
  | _ => false
  end.

(** [!value.str[0]] on a string value. *)
Definition value_str_empty (v : anydata_value) : bool :=
  match v with
  | value_string _ (Some EmptyString) => true
  | _ => false
  end.

(** The branch [if (!attr)] of [op_filter_create]: the subtree filter. *)
Definition subtree_filter (ctx : ly_ctx) (filter_node : lyd_node) : M Z :=
  let v := value filter_node in
  if (value_null v
      || ((valuetype_code (value_type v) <=? valuetype_code LYD_ANYDATA_STRING)
          && value_str_empty v))%bool
  then ret 0
  else
    match v with
    | value_string _ (Some str) =>
        match lyxml_parse_mem ctx str with
        | [] => ret (-1)
        | subtree_filter =>
            r <- op_filter_build_xpath_from_subtree ctx subtree_filter ;;
            if r =? 0 then ret 0 else ret (-1)
        end
    | value_xml subtree_filter =>
        match subtree_filter with
        | [] => ret (-1)
        | _ =>
            r <- op_filter_build_xpath_from_subtree ctx subtree_filter ;;
            if r =? 0 then ret 0 else ret (-1)
        end
    | _ => ret (-1)
    end.

(** The [else] branch: the XPath filter, [attr] being the [select]
    attribute. *)
Definition xpath_filter (attr : lyd_attr) : M Z :=
  match value_str attr with
  | None => ret 0
  | Some EmptyString => ret 0
  | Some path =>
      ok <- strdup ;;
      if negb ok then ret (-1)
      else
        r <- op_filter_xpath_add_filter path ;;
        if r =? 0 then ret 0 else ret (-1)
  end.

Definition op_filter_create (ctx : ly_ctx) (filter_node : lyd_node) : M Z :=
  match scan_type (node_attr filter_node) (node_attr filter_node) with
  | No_select => ret (-1)
  | Attr None => subtree_filter ctx filter_node
  | Attr (Some attr) => xpath_filter attr
  end.

(** ** Sleeping *)

(** [struct timespec]. *)
Record timespec : Type := mk_timespec {
  tv_sec : Z;
  tv_nsec : Z
}.

(** Arithmetic on [uint32_t]. *)
Definition uint32 (z : Z) : Z := z mod 2 ^ 32.

(** The [timespec] that [np_sleep] hands to [nanosleep].  The parameter is
    a [uint32_t]: the argument of the call is converted to 32 bits without
    sign, whatever its value.  Then [ms / 1000] and [(ms % 1000) * 1000000],
    the product computed on 32 bits without sign. *)
Definition np_sleep_timespec (ms : Z) : timespec :=
  let ms := uint32 ms in
  mk_timespec (ms / 1000) (uint32 (ms mod 1000 * 1000000)).

(** [np_sleep], [nanosleep] being the system's. *)
Definition np_sleep (nanosleep : timespec -> Z) (ms : Z) : Z :=
  nanosleep (np_sleep_timespec ms).

(** ** The user of a session *)

(** [NC_TRANSPORT_IMPL] of libnetconf2. *)
Inductive NC_TRANSPORT_IMPL : Type :=
| NC_TI_NONE
| NC_TI_FD
| NC_TI_UNIX
| NC_TI_LIBSSH
| NC_TI_OPENSSL.

(** [struct nc_session], as far as [common.c] reads it: the session id, the
    user name ([None] for NULL), the host ([None] for NULL) and the
    transport. *)
Record nc_session : Type := mk_session {
  nc_session_get_id : Z;
  nc_session_get_username : option string;
  nc_session_get_host : option string;
  nc_session_get_ti : NC_TRANSPORT_IMPL
}.

(** The loop of [np_get_nc_sess_user] from index [i] on: [sessions] are the
    sessions that [nc_ps_get_session(np2srv.nc_ps, i)] gives for [i], [i + 1],
    ... up to the first NULL. *)
Fixpoint session_by_id (sessions : list nc_session) (nc_sid : Z) : option nc_session :=
  match sessions with
  | [] => None
  | nc_sess :: rest =>
      if nc_session_get_id nc_sess =? nc_sid then Some nc_sess
      else session_by_id rest nc_sid
  end.

(** [np_get_nc_sess_user], [nc_ps] being the sessions of the poll structure
    and [nc_sid] the NETCONF id of the sysrepo session. *)
Definition np_get_nc_sess_user (nc_ps : list nc_session) (nc_sid : Z) : option string :=
  match session_by_id nc_ps nc_sid with
  | None => None
  | Some nc_sess => nc_session_get_username nc_sess
  end.

(** ** The URL capability *)

Definition EXIT_SUCCESS : Z := 0.

Definition EXIT_FAILURE : Z := 1.

(** The table [url_protocol_str], its NULL sentinel included. *)
Definition url_protocol_str : list (option string) :=
  [Some "scp"; Some "http"; Some "https"; Some "ftp"; Some "sftp"; Some "ftps";
   Some "file"; None].

Definition main_cpblt : string := "urn:ietf:params:netconf:capability:url:1.0?scheme=".

(** The inner loop of [np2srv_url_setcap] from index [j] on: the bit of the
    first entry that equals [protocol] is set; the sentinel ends the loop. *)
Fixpoint url_protocol_bit (protocol : string) (table : list (option string))
    (j sup_prot : Z) : Z :=
  match table with
  | Some entry :: rest =>
      if String.eqb protocol entry
      then Z.lor sup_prot (Z.shiftl 1 j)
      else url_protocol_bit protocol rest (j + 1) sup_prot
  | _ => sup_prot
  end.

(** The outer loop over [curl_data->protocols]. *)
Definition url_supported (protocols : list string) : Z :=
  fold_left (fun sup_prot protocol => url_protocol_bit protocol url_protocol_str 0 sup_prot)
            protocols 0.

(** The size of the capability buffer: [j] after the loop over the table. *)
Fixpoint url_capab_size (table : list (option string)) (j : Z) : Z :=
  match table with
  | Some entry :: rest => url_capab_size rest (j + strlen entry + 1)
  | _ => j
  end.

(** The loop that prints the supported protocols, over all entries of the
    array (the bound is [sizeof url_protocol_str / sizeof *url_protocol_str],
    the sentinel included).  [None] is undefined behaviour: a [sprintf] of the
    NULL sentinel, or a text that does not fit the [size] bytes of the
    buffer. *)
Fixpoint url_print_protocols (table : list (option string)) (cur_prot sup_prot : Z)
    (size : Z) (cpblt : string) (first : bool) : option string :=
  match table with
  | [] => Some cpblt
  | entry :: rest =>
      if Z.land cur_prot sup_prot =? 0
      then url_print_protocols rest (Z.shiftl cur_prot 1) sup_prot size cpblt first
      else
        match entry with
        | None => None
        | Some protocol =>
            let cpblt := cpblt ++ (if first then "" else ",") ++ protocol in
            if strlen cpblt + 1 <=? size
            then url_print_protocols rest (Z.shiftl cur_prot 1) sup_prot size cpblt false
            else None
        end
  end.

(** [np2srv_url_setcap] under [NP2SRV_URL_CAPAB], [protocols] being
    [curl_version_info(CURLVERSION_NOW)->protocols].  The result is the exit
    code and the capability given to [nc_server_set_capability], if any;
    [None] is undefined behaviour. *)
Definition np2srv_url_setcap (protocols : list string) : M (option (Z * option string)) :=
  let sup_prot := url_supported protocols in
  if sup_prot =? 0 then ret (Some (EXIT_SUCCESS, None))
  else
    let j := url_capab_size url_protocol_str (strlen main_cpblt + 1) in
    ok <- malloc ;;
    if negb ok then ret (Some (EXIT_FAILURE, None))
    else
      match url_print_protocols url_protocol_str 1 sup_prot j main_cpblt true with
      | None => ret None
      | Some cpblt => ret (Some (EXIT_SUCCESS, Some cpblt))
      end.

(** ** Uploading from memory *)

(** Arithmetic on [size_t]. *)
Definition size_t (z : Z) : Z := z mod 2 ^ 64.

(** [struct np2srv_url_mem]: the bytes from [memory] on, and [size]. *)
Record np2srv_url_mem : Type := mk_url_mem {
  memory : list Byte.byte;
  mem_size : Z
}.

(** [url_readdata]: the returned count, the bytes copied to [ptr], and
    [userdata] afterwards. *)
Definition url_readdata (size nmemb : Z) (data : np2srv_url_mem)
    : Z * list Byte.byte * np2srv_url_mem :=
  let aux_size := size_t (size * nmemb) in
  if ((aux_size <? 1) || (mem_size data =? 0))%bool
  then (0, [], data)
  else
    let copied := if mem_size data >? aux_size then aux_size else mem_size data in
    (copied,
     firstn (Z.to_nat copied) (memory data),
     mk_url_mem (skipn (Z.to_nat copied) (memory data))
                (mem_size data - copied)).

(** ** The callbacks *)

(** [enum sr_ev_notif_type_t] of sysrepo. *)
Inductive sr_ev_notif_type_t : Type :=
| SR_EV_NOTIF_REALTIME
| SR_EV_NOTIF_REPLAY
| SR_EV_NOTIF_REPLAY_COMPLETE
| SR_EV_NOTIF_STOP.

(** [NC_MSG_TYPE] of libnetconf2. *)
Inductive NC_MSG_TYPE : Type :=
| NC_MSG_ERROR
| NC_MSG_WOULDBLOCK
| NC_MSG_NONE
| NC_MSG_HELLO
| NC_MSG_BAD_HELLO
| NC_MSG_RPC
| NC_MSG_REPLY
| NC_MSG_REPLY_ERR_MSGID
| NC_MSG_NOTIF.

(** A data node with the chain of its parents, which is all that
    [np2srv_ntf_new_cb] follows. *)
Inductive lyd_data : Type :=
| Lyd (name : string) (parent : option lyd_data).

Definition lyd_parent (node : lyd_data) : option lyd_data :=
  match node with
  | Lyd _ parent => parent
  end.

(** [while (notif->parent) notif = notif->parent;] *)
Fixpoint top_level_node (notif : lyd_data) : lyd_data :=
  match notif with
  | Lyd _ None => notif
  | Lyd _ (Some parent) => top_level_node parent
  end.

(** The value of an [sr_val_t]. *)
Inductive sr_data : Type :=
| SR_STRING_T (string_val : option string)
| SR_UINT32_T (uint32_val : Z).

(** The calls that the callbacks make into libnetconf2, sysrepo, libyang,
    the NACM and monitoring modules and the system, with the arguments that
    matter.  [Call_sr_session_stop] says whether the sysrepo session had been
    started, [Call_nc_server_notif_free] whether [nc_server_notif_new] had been
    called ([false] for the initial NULL), [Call_lyd_free_withsiblings]
    carries the node, if any. *)
Inductive call : Type :=
| Call_sr_session_start
| Call_nc_session_set_data
| Call_sr_session_set_nc_id (id : Z)
| Call_ncm_session_add
| Call_nc_ps_add_session
| Call_nanosleep (ts : timespec)
| Call_sr_event_notif_send (xpath : string) (values : list (string * sr_data))
| Call_ncm_session_del
| Call_sr_session_stop (started : bool)
| Call_nc_session_free
| Call_lyd_new_path (path : string)
| Call_ncac_check_operation (node : lyd_data) (user : option string)
| Call_nc_server_notif_new (node : lyd_data) (timestamp : Z)
| Call_nc_server_notif_send (node : lyd_data)
| Call_ncm_session_notification
| Call_nc_session_set_notif_status (status : Z)
| Call_nc_server_notif_free (present : bool)
| Call_lyd_free_withsiblings (node : option lyd_data).

(** What the world answers to [np2srv_new_session_cb], and how the server was
    built: the result of [sr_session_start] (0 is [SR_ERR_OK]), the results of
    the successive calls of [nc_ps_add_session] (0 is success), whether the
    module [ietf-netconf-notifications] is there, [NC_ENABLED_SSH],
    [NC_ENABLED_TLS] and [NP2SRV_PS_BACKOFF_SLEEP] of the headers. *)
Record session_world : Type := mk_session_world {
  sr_session_start_rc : Z;
  nc_ps_add_session_rc : nat -> Z;
  notifications_module : bool;
  NC_ENABLED_SSH : bool;
  NC_ENABLED_TLS : bool;
  NP2SRV_PS_BACKOFF_SLEEP : Z
}.

(** The loop [while ((c < 3) && nc_ps_add_session(...)) { np_sleep(...); ++c; }]
    from the [k]-th call of [nc_ps_add_session] on: [c] at the end and the
    calls made.  The loop body runs at most three times; [fuel] bounds the
    unfolding. *)
Fixpoint ps_add_session_loop (world : session_world) (fuel : nat) (c : Z) (k : nat)
    : Z * list call :=
  match fuel with
  | O => (c, [])
  | S fuel =>
      if c <? 3
      then
        if nc_ps_add_session_rc world k =? 0
        then (c, [Call_nc_ps_add_session])
        else
          let (c', calls) := ps_add_session_loop world fuel (c + 1) (S k) in
          (c', Call_nc_ps_add_session
               :: Call_nanosleep (np_sleep_timespec (NP2SRV_PS_BACKOFF_SLEEP world))
               :: calls)
      else (c, [])
  end.

(** Whether the [switch] on the transport registers the session for
    monitoring. *)
Definition monitored_transport (world : session_world) (ti : NC_TRANSPORT_IMPL) : bool :=
  match ti with
  | NC_TI_LIBSSH => NC_ENABLED_SSH world
  | NC_TI_OPENSSL => NC_ENABLED_TLS world
  | _ => false
  end.

(** The label [error] of [np2srv_new_session_cb]. *)
Definition new_session_error (monitored started : bool) : list call :=
  ((if monitored then [Call_ncm_session_del] else [])
   ++ [Call_sr_session_stop started; Call_nc_session_free])%list.

(** The [netconf-session-start] event. *)
Definition session_start_event (new_session : nc_session) : call :=
  let host :=
    match nc_session_get_ti new_session with
    | NC_TI_UNIX => None
    | _ => nc_session_get_host new_session
    end in
  Call_sr_event_notif_send "/ietf-netconf-notifications:netconf-session-start"
    ([("/ietf-netconf-notifications:netconf-session-start/username",
       SR_STRING_T (nc_session_get_username new_session));
      ("/ietf-netconf-notifications:netconf-session-start/session-id",
       SR_UINT32_T (nc_session_get_id new_session))]
     ++ match host with
        | Some h => [("/ietf-netconf-notifications:netconf-session-start/source-host",
                      SR_STRING_T (Some h))]
        | None => []
        end)%list.

(** [np2srv_new_session_cb]: the calls it makes, in order. *)
Definition np2srv_new_session_cb (world : session_world) (new_session : nc_session)
    : list call :=
  if negb (sr_session_start_rc world =? 0)
  then (Call_sr_session_start :: new_session_error false false)%list
  else
    let monitored := monitored_transport world (nc_session_get_ti new_session) in
    let (c, adds) := ps_add_session_loop world 4 0 0 in
    ([Call_sr_session_start; Call_nc_session_set_data;
      Call_sr_session_set_nc_id (nc_session_get_id new_session)]
     ++ (if monitored then [Call_ncm_session_add] else [])
     ++ adds
     ++ (if c =? 3
         then new_session_error monitored true
         else if notifications_module world
              then [session_start_event new_session]
              else []))%list.

(** What the world answers to [np2srv_ntf_new_cb]: the node that
    [lyd_new_path] creates ([None] for NULL), the verdict of
    [ncac_check_operation] (0 lets the notification pass) and the result of
    [nc_server_notif_send]. *)
Record notif_world : Type := mk_notif_world {
  lyd_new_path_result : string -> option lyd_data;
  ncac_check_operation_rc : lyd_data -> option string -> Z;
  nc_server_notif_send_result : lyd_data -> NC_MSG_TYPE
}.

(** [np2srv_ntf_new_cb] for the session [ncs]: the calls it makes, in order.
    [None] is the dereference of the NULL that a failed [lyd_new_path]
    leaves in [notif]. *)
Definition np2srv_ntf_new_cb (world : notif_world) (ncs : nc_session)
    (notif_type : sr_ev_notif_type_t) (notif : lyd_data) (timestamp : Z)
    : option (list call) :=
  let path :=
    match notif_type with
    | SR_EV_NOTIF_REPLAY_COMPLETE => Some "/nc-notifications:replayComplete"
    | SR_EV_NOTIF_STOP => Some "/nc-notifications:notificationComplete"
    | _ => None
    end in
  let ly_ntf :=
    match path with
    | Some p => lyd_new_path_result world p
    | None => None
    end in
  let created :=
    match path with
    | Some p => [Call_lyd_new_path p]
    | None => []
    end in
  match match path with
        | Some _ => ly_ntf
        | None => Some notif
        end with
  | None => None
  | Some notif =>
      let notif := top_level_node notif in
      let user := nc_session_get_username ncs in
      if negb (ncac_check_operation_rc world notif user =? 0)
      then
        Some (created
              ++ [Call_ncac_check_operation notif user;
                  Call_nc_server_notif_free false;
                  Call_lyd_free_withsiblings ly_ntf])%list
      else
        let msg_type := nc_server_notif_send_result world notif in
        let sent :=
          match msg_type with
          | NC_MSG_ERROR | NC_MSG_WOULDBLOCK => false
          | _ => true
          end in
        Some (created
              ++ [Call_ncac_check_operation notif user;
                  Call_nc_server_notif_new notif timestamp;
                  Call_nc_server_notif_send notif]
              ++ (if sent
                  then Call_ncm_session_notification
                       :: match notif_type with
                          | SR_EV_NOTIF_STOP => [Call_nc_session_set_notif_status 0]
                          | _ => []
                          end
                  else [])
              ++ [Call_nc_server_notif_free true;
                  Call_lyd_free_withsiblings ly_ntf])%list
  end.

(** ** Running the compiler on examples *)

Module Examples.

Definition ietf_interfaces : lys_module :=
  mk_module "ietf-interfaces" "urn:ietf:params:xml:ns:yang:ietf-interfaces"
    [mk_node "interfaces"; mk_node "interfaces-state"].

Definition mod_m : lys_module := mk_module "m" "urn:m" [mk_node "a"; mk_node "top"].

Definition mod_n : lys_module := mk_module "n" "urn:n" [mk_node "a"].

Definition known_modules : list lys_module := [ietf_interfaces; mod_m; mod_n].

(** A context over [known_modules]: namespaces are looked up in the list,
    no text is rewritten by [ly_path_xml2json], and the parser finds no
    element (the examples give it nothing but white space). *)
Definition ctx0 : ly_ctx :=
  mk_ctx
    (fun v => find (fun m => String.eqb (mod_ns m) v) known_modules)
    known_modules
    (fun _ _ => None)
    (fun _ => []).

Definition xmlns (v : string) : lyxml_attr := mk_attr LYXML_ATTR_NS "xmlns" v None.

Definition if_ns : string := "urn:ietf:params:xml:ns:yang:ietf-interfaces".

(** [<interfaces xmlns=...><interface><name>eth0</name></interface></interfaces>] *)
Definition interfaces_filter : lyxml_elem :=
  mk_elem "interfaces" (Some if_ns) [xmlns if_ns] None
    [mk_elem "interface" (Some if_ns) [] None
       [mk_elem "name" (Some if_ns) [] (Some "eth0") []]].

(** [<filter type="regexp" select="/a">] around [interfaces_filter]. *)
Definition odd_type_request : lyd_node :=
  mk_lyd_node [mk_lyd_attr "type" (Some "regexp"); mk_lyd_attr "select" (Some "/a")]
              (value_xml [interfaces_filter]).

(** A filter node without attributes around [interfaces_filter]. *)
Definition plain_request : lyd_node :=
  mk_lyd_node [] (value_xml [interfaces_filter]).

Definition xpath_request (select : list lyd_attr) : lyd_node :=
  mk_lyd_node (mk_lyd_attr "type" (Some "xpath") :: select) (value_string false None).

Definition subtree_string_request (payload : option string) : lyd_node :=
  mk_lyd_node [mk_lyd_attr "type" (Some "subtree")] (value_string false payload).

End Examples.

(** ** Notions used in the statements *)

(** [starts_with p s]: the string [s] begins with [p]. *)
Definition starts_with (p s : string) : Prop := exists t, s = p ++ t.

(** No allocation of the oracle fails, and no NULL pointer has been
    dereferenced. *)
Definition no_failure (s : state) : Prop :=
  Forall (fun b => b = true) (allocs s) /\ null_deref s = false.

(** The text of an element without the white space at its ends, as the two
    loops of [filter_xpath_buf_get_content] leave it. *)
Definition trimmed_text (elem : lyxml_elem) : string :=
  let start := skip_leading (match elem_content elem with Some c => c | None => "" end) in
  let len := trailing_len start (String.length start) in
  substring 0 len start.

(** The text that [filter_xpath_buf_get_content] returns when it does not
    return NULL: the trimmed text, rewritten by [ly_path_xml2json] when that
    succeeds. *)
Definition content_text (ctx : ly_ctx) (elem : lyxml_elem) : string :=
  match ly_path_xml2json ctx (trimmed_text elem) elem with
  | Some r => r
  | None => trimmed_text elem
  end.

(** Two states that differ only in an oracle without failure. *)
Definition same_filters (s1 s2 : state) : Prop :=
  no_failure s1 /\ no_failure s2 /\ filters s1 = filters s2.

(** [oblivious m]: as long as no allocation fails, the result of [m] and the
    Filter List it leaves do not depend on the allocator. *)
Definition oblivious {A : Type} (m : M A) : Prop :=
  forall s1 s2, same_filters s1 s2 ->
    fst (m s1) = fst (m s2) /\ same_filters (snd (m s1)) (snd (m s2)).

(** A run under the oracle that never fails: [m] returns [a] and appends
    [out] to the Filter List, whatever the list held. *)
Definition runs {A : Type} (m : M A) (a : A) (out : list string) : Prop :=
  forall fs, m (mk_state [] fs) = (a, mk_state [] (fs ++ out)).

Definition walk_runs (walk : lyxml_elem -> string -> Z -> M Z) (child : lyxml_elem) : Prop :=
  forall buf size, size = strlen buf + 1 ->
    exists a out, runs (walk child buf size) a out /\ Forall (starts_with buf) out.

(** The text of a content predicate: [[name], the attribute predicates, [=]
    and the content between two quotes, which are double quotes exactly when
    the content holds a single quote. *)
Definition content_predicate (q : option string) (elem : lyxml_elem)
    (content text : string) : Prop :=
  exists attrs,
    text = ("[" ++ qualifier q ++ elem_name elem) ++ attrs ++ "="
           ++ (if strchr content squote
               then String dquote content ++ String dquote "]"
               else String squote content ++ String squote "]").

(** What one child of the second loop adds to the Filter List. *)
Definition child_strings ctx last_ns walk child buf size : list string :=
  filters (snd (branch_child ctx last_ns walk child buf size (init []))).

(** What the compilation of one root element for one module adds. *)
Definition top_strings (ctx : ly_ctx) (next : lyxml_elem) (module : lys_module) : list string :=
  filters (snd (top_level_branch ctx next module (init []))).

(** The modules for which a root element is compiled: the one of its
    namespace, if it has one that is not the base namespace, else every
    module that exposes its name. *)
Definition candidate_modules (ctx : ly_ctx) (next : lyxml_elem) : list lys_module :=
  match match elem_ns next with
        | Some v => if String.eqb v base_ns then None else Some v
        | None => None
        end with
  | Some v =>
      match ly_ctx_get_module_by_ns ctx v with
      | Some module => [module]
      | None => []
      end
  | None => filter (exposes (elem_name next)) (ly_ctx_get_module_iter ctx)
  end.

(** [declared_type attrs t]: the first attribute named [type] whose value is
    [xpath] or [subtree] says [t]. *)
Definition declared_type (attrs : list lyd_attr) (t : string) : Prop :=
  exists pre a post,
    attrs = (pre ++ a :: post)%list
    /\ (forall b, In b pre -> lyd_attr_name b = "type" ->
                  value_str b <> Some "xpath" /\ value_str b <> Some "subtree")
    /\ lyd_attr_name a = "type"
    /\ value_str a = Some t.

(** No attribute named [type] says [xpath] or [subtree]. *)
Definition undeclared_type (attrs : list lyd_attr) : Prop :=
  forall a, In a attrs -> lyd_attr_name a = "type" ->
            value_str a <> Some "xpath" /\ value_str a <> Some "subtree".

(** A request is a subtree filter when its type says [subtree] or says
    nothing that the dispatcher knows. *)
Definition subtree_request (filter_node : lyd_node) : Prop :=
  declared_type (node_attr filter_node) "subtree"
  \/ undeclared_type (node_attr filter_node).

(** The protocol names of [url_protocol_str], without the sentinel. *)
Definition url_protocol_names : list string :=
  ["scp"; "http"; "https"; "ftp"; "sftp"; "ftps"; "file"].

(** The bit mask in which bit [i] says whether protocol [i] is supported. *)
Definition url_mask (b0 b1 b2 b3 b4 b5 b6 : bool) : Z :=
  (if b0 then 1 else 0) + (if b1 then 2 else 0) + (if b2 then 4 else 0)
  + (if b3 then 8 else 0) + (if b4 then 16 else 0) + (if b5 then 32 else 0)
  + (if b6 then 64 else 0).

(** A [struct np2srv_url_mem] as [op_export_url] fills it: [size] is the
    number of bytes from [memory] on. *)
Definition url_mem_valid (data : np2srv_url_mem) : Prop :=
  mem_size data = Z.of_nat (length (memory data)).

(** The successive calls that libcurl makes to [url_readdata] with buffers
    of [size * nmemb] bytes: the bytes delivered, in order, and [userdata]
    afterwards. *)
Fixpoint url_read_calls (calls : list (Z * Z)) (data : np2srv_url_mem)
    : list Byte.byte * np2srv_url_mem :=
  match calls with
  | [] => ([], data)
  | (size, nmemb) :: rest =>
      let '(_, bytes, data') := url_readdata size nmemb data in
      let (more, data'') := url_read_calls rest data' in
      ((bytes ++ more)%list, data'')
  end.

(** [post m P]: under every oracle, [m] only appends to the Filter List, and
    its result and what it appends satisfy [P].  The model follows a run that
    dereferences NULL to its end, with the value that stands in; the theorems
    leave such runs out. *)
Definition post {A : Type} (m : M A) (P : A -> list string -> Prop) : Prop :=
  forall s, exists out,
    filters (snd (m s)) = (filters s ++ out)%list /\ P (fst (m s)) out.

(** What a builder returns once it has grown a buffer that started with
    [buf]: the text, and as size its length and the NUL. *)
Definition grown (buf : string) (r : Z * string) : Prop :=
  fst r = strlen (snd r) + 1 /\ starts_with buf (snd r).

(** What the walker guarantees to its caller under every oracle. *)
Definition walk_post (walk : lyxml_elem -> string -> Z -> M Z) (child : lyxml_elem) : Prop :=
  forall buf size, size = strlen buf + 1 ->
    post (walk child buf size)
         (fun r out => (r = 0 \/ r = -1) /\ Forall (starts_with (buf ++ "/")) out).

(** The outcome of a compilation: 0 with the old Filter List and new strings
    that all start with [/], or -1 with the Filter List released. *)
Definition compiled (s : state) (r : Z * state) : Prop :=
  (fst r = 0
   /\ exists out, filters (snd r) = (filters s ++ out)%list
                  /\ Forall (starts_with "/") out)
  \/ (fst r = -1 /\ filters (snd r) = []).

(** The predicate that the attribute builder prints for one attribute:
    [[@module:name='value']] for a standard attribute whose namespace a module
    has, nothing otherwise. *)
Definition attr_predicate (ctx : ly_ctx) (a : lyxml_attr) : string :=
  match attr_type a, attr_ns a with
  | LYXML_ATTR_STD, Some v =>
      match ly_ctx_get_module_by_ns ctx v with
      | Some module =>
          "[@" ++ mod_name module ++ ":" ++ attr_name a ++ "='" ++ attr_value a ++ "']"
      | None => ""
      end
  | _, _ => ""
  end.

Definition attr_predicates (ctx : ly_ctx) (attr : list lyxml_attr) : string :=
  fold_right (fun a text => attr_predicate ctx a ++ text) "" attr.

(** A text between quotes: double quotes when it holds a single quote, single
    quotes otherwise. *)
Definition content_literal (content : string) : string :=
  if strchr content squote
  then String dquote (content ++ String dquote "")
  else String squote (content ++ String squote "").

(** The step that the node builder prints: [/module:name] or [/name], and
    the attribute predicates. *)
Definition node_step (ctx : ly_ctx) (q : option string) (elem : lyxml_elem) : string :=
  "/" ++ qualifier q ++ elem_name elem ++ attr_predicates ctx (elem_attr elem).

(** The predicate that the content builder of the walker prints. *)
Definition content_step (ctx : ly_ctx) (q : option string) (elem : lyxml_elem) : string :=
  "[" ++ qualifier q ++ elem_name elem ++ attr_predicates ctx (elem_attr elem)
  ++ "=" ++ content_literal (content_text ctx elem) ++ "]".

(** The predicates of the content match children of an element, in document
    order, each qualified as the first loop of the walker qualifies it: with
    the module name [m] given for the element, if any. *)
Fixpoint content_predicates (ctx : ly_ctx) (last_ns : string) (m : option string)
    (children : list lyxml_elem) : string :=
  match children with
  | [] => ""
  | child :: rest =>
      if content_match child
      then
        match resolve_module_name ctx child m last_ns with
        | Some q => content_step ctx q child ++ content_predicates ctx last_ns m rest
        | None => ""
        end
      else content_predicates ctx last_ns m rest
  end.

Definition is_ps_add_session (c : call) : bool :=
  match c with
  | Call_nc_ps_add_session => true
  | _ => false
  end.

Definition is_nanosleep (c : call) : bool :=
  match c with
  | Call_nanosleep _ => true
  | _ => false
  end.

(** How many of the first three calls of [nc_ps_add_session] fail before one
    succeeds. *)
Definition leading_failures (world : session_world) : nat :=
  if nc_ps_add_session_rc world 0 =? 0 then 0
  else if nc_ps_add_session_rc world 1 =? 0 then 1
  else if nc_ps_add_session_rc world 2 =? 0 then 2
  else 3.

(** [sticky m]: a run of [m] that starts after a NULL pointer was
    dereferenced ends with it dereferenced. *)
Definition sticky {A : Type} (m : M A) : Prop :=
  forall s, null_deref s = true -> null_deref (snd (m s)) = true.

(** * Properties *)

(** ** C strings *)

Lemma append_assoc (a b c : string) : (a ++ b) ++ c = a ++ (b ++ c).
Proof.
  induction a as [|ch a IH]; simpl; [reflexivity | now rewrite IH].
Qed.

Lemma append_nil_r (a : string) : a ++ "" = a.
Proof.
  induction a as [|ch a IH]; simpl; [reflexivity | now rewrite IH].
Qed.

Lemma substring_whole (a b : string) : substring 0 (String.length a) (a ++ b) = a.
Proof.
  induction a as [|ch a IH]; simpl.
  - now destruct b.
  - now rewrite IH.
Qed.

(** Printing at the end of a buffer whose [size] counts its text and the NUL
    appends. *)
Lemma sprintf_at_end (buf text : string) (size : Z) :
  size = strlen buf + 1 -> sprintf_at buf (size - 1) text = buf ++ text.
Proof.
  intros ->. unfold sprintf_at, strlen.
  replace (Z.of_nat (String.length buf) + 1 - 1) with (Z.of_nat (String.length buf)) by lia.
  rewrite Nat2Z.id.
  rewrite <- (append_nil_r buf) at 2.
  now rewrite substring_whole.
Qed.

Lemma starts_with_app (p t : string) : starts_with p (p ++ t).
Proof. now exists t. Qed.

Lemma starts_with_trans (p q s : string) :
  starts_with p q -> starts_with q s -> starts_with p s.
Proof.
  intros [t ->] [u ->]. exists (t ++ u). apply append_assoc.
Qed.

Lemma Forall_starts_with_trans (p q : string) (l : list string) :
  starts_with p q -> Forall (starts_with q) l -> Forall (starts_with p) l.
Proof.
  intros Hpq Hl. induction Hl; constructor; eauto using starts_with_trans.
Qed.

(** ** Runs that meet no allocation failure *)

Lemma oblivious_ret {A : Type} (a : A) : oblivious (ret a).
Proof. intros s1 s2 H. now split. Qed.

Lemma oblivious_bind {A B : Type} (m : M A) (f : A -> M B) :
  oblivious m -> (forall a, oblivious (f a)) -> oblivious (bind m f).
Proof.
  intros Hm Hf s1 s2 H. unfold bind.
  destruct (Hm s1 s2 H) as [Ha Hs].
  destruct (m s1) as [a1 t1], (m s2) as [a2 t2]; simpl in *. subst a2.
  now apply Hf.
Qed.

Lemma no_failure_mk_state (oracle : list bool) (fs : list string) :
  Forall (fun b => b = true) oracle -> no_failure (mk_state oracle fs).
Proof. intros H. now split. Qed.

Lemma no_failure_malloc (s : state) :
  no_failure s -> fst (malloc s) = true /\ no_failure (snd (malloc s))
                  /\ filters (snd (malloc s)) = filters s.
Proof.
  unfold no_failure, malloc. destruct s as [[|b o] fs fault]; simpl; intros [H Hfault].
  - now repeat split.
  - inversion H; subst. now repeat split.
Qed.

Lemma oblivious_malloc : oblivious malloc.
Proof.
  intros s1 s2 (H1 & H2 & Hf).
  destruct (no_failure_malloc s1 H1) as (E1 & N1 & F1).
  destruct (no_failure_malloc s2 H2) as (E2 & N2 & F2).
  unfold same_filters. rewrite E1, E2, F1, F2.
  split; [reflexivity | split; [exact N1 | split; [exact N2 | exact Hf]]].
Qed.

Lemma oblivious_push (a : Z) (x : string) :
  oblivious (fun s => (a, Build_state (allocs s) (filters s ++ [x]) (null_deref s))).
Proof.
  intros s1 s2 ([H1 N1] & [H2 N2] & Hf). simpl. repeat split; trivial. now rewrite Hf.
Qed.

Lemma oblivious_build_error : oblivious build_error.
Proof.
  intros s1 s2 ([H1 N1] & [H2 N2] & Hf). now repeat split.
Qed.

(** Without allocation failure [filter_xpath_buf_get_content] does not return
    NULL: what comes after it is only run on a text. *)
Lemma oblivious_bind_get_content {B : Type} ctx elem (f : option string -> M B) :
  (forall content, oblivious (f (Some content))) ->
  oblivious (bind (filter_xpath_buf_get_content ctx elem) f).
Proof.
  intros Hf s1 s2 H. unfold bind, filter_xpath_buf_get_content.
  destruct (ly_path_xml2json ctx _ elem) as [r|]; [now apply Hf | ].
  unfold bind, strdup, ret.
  destruct H as (H1 & H2 & Hfs).
  destruct (no_failure_malloc s1 H1) as (E1 & N1 & F1).
  destruct (no_failure_malloc s2 H2) as (E2 & N2 & F2).
  destruct (malloc s1) as [ok1 t1], (malloc s2) as [ok2 t2]. simpl in *. subst ok1 ok2.
  apply Hf. repeat split; try apply N1; try apply N2. congruence.
Qed.

Lemma runs_ret {A : Type} (a : A) : runs (ret a) a [].
Proof. intros fs. unfold ret. now rewrite app_nil_r. Qed.

Lemma runs_bind {A B : Type} (m : M A) (f : A -> M B) a out b out' :
  runs m a out -> runs (f a) b out' -> runs (bind m f) b (out ++ out')%list.
Proof.
  intros Hm Hf fs. unfold bind. rewrite Hm, Hf. now rewrite app_assoc.
Qed.

Lemma runs_bind_quiet {A B : Type} (m : M A) (f : A -> M B) a b out :
  runs m a [] -> runs (f a) b out -> runs (bind m f) b out.
Proof.
  intros Hm Hf. change out with (@nil string ++ out)%list. now apply runs_bind with a.
Qed.

Lemma runs_bind_quiet_r {A B : Type} (m : M A) (f : A -> M B) a b out :
  runs m a out -> runs (f a) b [] -> runs (bind m f) b out.
Proof.
  intros Hm Hf. rewrite <- (app_nil_r out). now apply runs_bind with a.
Qed.

Lemma runs_malloc : runs malloc true [].
Proof. intros fs. unfold malloc. simpl. now rewrite app_nil_r. Qed.

Lemma runs_add_filter (x : string) : runs (op_filter_xpath_add_filter x) 0 [x].
Proof.
  unfold op_filter_xpath_add_filter.
  apply runs_bind_quiet with true; [apply runs_malloc | ].
  intros fs. reflexivity.
Qed.

(** What a run under any oracle without failure is, from the run under the
    empty oracle. *)
Lemma runs_no_failure {A : Type} (m : M A) a out s :
  oblivious m -> runs m a out -> no_failure s ->
  fst (m s) = a /\ filters (snd (m s)) = (filters s ++ out)%list /\ no_failure (snd (m s)).
Proof.
  intros Hobl Hruns Hs.
  assert (Hq : same_filters s (mk_state [] (filters s))).
  { repeat split; try apply Hs. constructor. }
  destruct (Hobl _ _ Hq) as [Ha (Hn & _ & Hf)].
  rewrite Hruns in Ha, Hf. simpl in *.
  split; [exact Ha | split; [exact Hf | exact Hn]].
Qed.

(** [filter_xpath_buf_get_content] under the oracle that never fails. *)
Lemma get_content_runs ctx elem :
  runs (filter_xpath_buf_get_content ctx elem) (Some (content_text ctx elem)) [].
Proof.
  unfold filter_xpath_buf_get_content, content_text.
  destruct (ly_path_xml2json ctx _ elem) as [r|]; [apply runs_ret | ].
  apply runs_bind_quiet with true; [apply runs_malloc | apply runs_ret].
Qed.

(** Without allocation failure nothing fails in the run either. *)
Lemma oblivious_no_failure {A : Type} (m : M A) (s : state) :
  oblivious m -> no_failure s -> no_failure (snd (m s)).
Proof.
  intros Hobl Hs.
  destruct (Hobl s s) as [_ (Hn & _)]; [ | exact Hn].
  split; [exact Hs | split; [exact Hs | reflexivity]].
Qed.

(** ** Induction on filter trees and the equation of the walker *)

Lemma lyxml_elem_forall_ind (P : lyxml_elem -> Prop) :
  (forall e, Forall P (elem_child e) -> P e) -> forall e, P e.
Proof.
  intros H. fix IH 1. intros e. apply H.
  destruct e as [n v a c ch]. simpl.
  induction ch as [|x ch IHch]; constructor; [apply IH | apply IHch].
Qed.

Lemma filter_xpath_buf_add_eq ctx elem elem_module_name last_ns buf size :
  filter_xpath_buf_add ctx elem elem_module_name last_ns buf size =
  ('(size, buf) <- filter_xpath_buf_add_node ctx elem elem_module_name last_ns buf size ;;
   if size =? 0 then ret 0
   else if size <? 1 then ret (-1)
   else
     scan <- content_match_nodes ctx last_ns (elem_child elem) elem_module_name
               buf size true ;;
     match scan with
     | Returned r => ret r
     | Scanned buf size true =>
         r <- op_filter_xpath_add_filter buf ;;
         if r =? 0 then ret 0 else ret (-1)
     | Scanned buf size false =>
         branch ctx last_ns
           (fun child => filter_xpath_buf_add ctx child None last_ns)
           (elem_child elem) buf size
     end).
Proof.
  destruct elem; reflexivity.
Qed.

(** ** The allocator does not show in the result *)

Create HintDb oblivious.

#[local] Hint Resolve oblivious_malloc oblivious_push oblivious_build_error : oblivious.

Ltac oblivious_step :=
  match goal with
  | |- oblivious (ret _) => apply oblivious_ret
  | |- oblivious realloc => apply oblivious_malloc
  | |- oblivious strdup => apply oblivious_malloc
  | |- oblivious (bind (filter_xpath_buf_get_content _ _) _) =>
      apply oblivious_bind_get_content; intros
  | |- oblivious (bind _ _) => apply oblivious_bind; [ | intros ]
  | |- oblivious (if ?b then _ else _) => destruct b
  | |- oblivious (match ?x with _ => _ end) => destruct x
  | |- oblivious _ => solve [auto with oblivious]
  end.

Ltac oblivious_auto := repeat oblivious_step.

Lemma oblivious_add_filter (x : string) : oblivious (op_filter_xpath_add_filter x).
Proof. unfold op_filter_xpath_add_filter. oblivious_auto. Qed.

#[local] Hint Resolve oblivious_add_filter : oblivious.

Lemma oblivious_add_attrs ctx attr :
  forall buf size, oblivious (filter_xpath_buf_add_attrs ctx attr buf size).
Proof.
  induction attr as [|next rest IH]; intros buf size; simpl; oblivious_auto.
Qed.

#[local] Hint Resolve oblivious_add_attrs : oblivious.

Lemma oblivious_add_top_content ctx elem m :
  oblivious (filter_xpath_buf_add_top_content ctx elem m).
Proof. unfold filter_xpath_buf_add_top_content. oblivious_auto. Qed.

Lemma oblivious_add_content ctx elem m last_ns buf size :
  oblivious (filter_xpath_buf_add_content ctx elem m last_ns buf size).
Proof. unfold filter_xpath_buf_add_content. oblivious_auto. Qed.

Lemma oblivious_add_node ctx elem m last_ns buf size :
  oblivious (filter_xpath_buf_add_node ctx elem m last_ns buf size).
Proof. unfold filter_xpath_buf_add_node. oblivious_auto. Qed.

#[local] Hint Resolve oblivious_add_top_content oblivious_add_content
  oblivious_add_node : oblivious.

Lemma oblivious_content_match_nodes ctx last_ns children :
  forall m buf size only,
    oblivious (content_match_nodes ctx last_ns children m buf size only).
Proof.
  induction children as [|child rest IH]; intros m buf size only; simpl;
    oblivious_auto.
Qed.

#[local] Hint Resolve oblivious_content_match_nodes : oblivious.

Lemma oblivious_branch_child ctx last_ns walk child buf size :
  (forall buf size, oblivious (walk child buf size)) ->
  oblivious (branch_child ctx last_ns walk child buf size).
Proof.
  intros H. unfold branch_child. destruct (elem_child child); oblivious_auto.
Qed.

Lemma oblivious_branch ctx last_ns walk children :
  Forall (fun child => forall buf size, oblivious (walk child buf size)) children ->
  forall buf size, oblivious (branch ctx last_ns walk children buf size).
Proof.
  induction 1 as [|child rest Hchild _ IH]; intros buf size; simpl.
  - oblivious_auto.
  - apply oblivious_bind; [destruct rest; oblivious_auto | intros ok].
    destruct ok; simpl; [ | oblivious_auto].
    apply oblivious_bind; [now apply oblivious_branch_child | intros r].
    oblivious_auto.
Qed.

Lemma oblivious_walker ctx last_ns elem :
  forall m buf size, oblivious (filter_xpath_buf_add ctx elem m last_ns buf size).
Proof.
  induction elem as [elem IH] using lyxml_elem_forall_ind; intros m buf size.
  rewrite filter_xpath_buf_add_eq.
  apply oblivious_bind; [oblivious_auto | intros [size1 buf1]].
  destruct (size1 =? 0); [oblivious_auto | ].
  destruct (size1 <? 1); [oblivious_auto | ].
  apply oblivious_bind; [oblivious_auto | intros [buf2 size2 [|] | r]];
    try solve [oblivious_auto].
  apply oblivious_branch.
  eapply Forall_impl; [ | exact IH]. intros child H buf' size'. apply H.
Qed.

#[local] Hint Resolve oblivious_walker : oblivious.

Lemma oblivious_modules_by_name name iter :
  forall modules, oblivious (modules_by_name name iter modules).
Proof.
  induction iter as [|module rest IH]; intros modules; simpl; oblivious_auto.
Qed.

Lemma oblivious_top_level_branch ctx next module :
  oblivious (top_level_branch ctx next module).
Proof. unfold top_level_branch. oblivious_auto. Qed.

#[local] Hint Resolve oblivious_modules_by_name oblivious_top_level_branch : oblivious.

Lemma oblivious_for_modules ctx next modules :
  oblivious (for_modules ctx next modules).
Proof.
  induction modules as [|module rest IH]; simpl; oblivious_auto.
Qed.

#[local] Hint Resolve oblivious_for_modules : oblivious.

Lemma oblivious_build ctx elem :
  oblivious (op_filter_build_xpath_from_subtree ctx elem).
Proof.
  induction elem as [|next rest IH]; simpl; oblivious_auto.
Qed.

#[local] Hint Resolve oblivious_build : oblivious.

Lemma oblivious_subtree_filter ctx filter_node :
  oblivious (subtree_filter ctx filter_node).
Proof. unfold subtree_filter. oblivious_auto. Qed.

Lemma oblivious_xpath_filter attr : oblivious (xpath_filter attr).
Proof. unfold xpath_filter. oblivious_auto. Qed.

#[local] Hint Resolve oblivious_subtree_filter oblivious_xpath_filter : oblivious.

Lemma oblivious_create ctx filter_node :
  oblivious (op_filter_create ctx filter_node).
Proof. unfold op_filter_create. oblivious_auto. Qed.

(** ** The builders under the oracle that never fails *)

Lemma strlen_append (a b : string) : strlen (a ++ b) = strlen a + strlen b.
Proof.
  unfold strlen. induction a as [|ch a IH]; simpl String.length; lia.
Qed.

Lemma strlen_nonneg (a : string) : 0 <= strlen a.
Proof. unfold strlen. lia. Qed.

Lemma size_not_zero (b : string) : (strlen b + 1 =? 0) = false.
Proof. apply Z.eqb_neq. pose proof (strlen_nonneg b). lia. Qed.

Lemma size_not_negative (b : string) : (strlen b + 1 <? 1) = false.
Proof. apply Z.ltb_ge. pose proof (strlen_nonneg b). lia. Qed.

Lemma strlen_String (c : ascii) (s : string) : strlen (String c s) = 1 + strlen s.
Proof. unfold strlen. simpl String.length. lia. Qed.

Ltac strlen_solve :=
  repeat (rewrite strlen_append || rewrite strlen_String);
  change (strlen EmptyString) with 0;
  lia.

Lemma qualifier_len_strlen (q : option string) : qualifier_len q = strlen (qualifier q).
Proof.
  destruct q as [m|]; simpl; [ | reflexivity].
  rewrite strlen_append. change (strlen ":") with 1. lia.
Qed.

(** The attribute predicates are appended to the buffer, and the size
    follows. *)
Lemma add_attrs_runs ctx attr :
  forall buf size, size = strlen buf + 1 ->
    exists suffix,
      runs (filter_xpath_buf_add_attrs ctx attr buf size)
           (strlen (buf ++ suffix) + 1, buf ++ suffix) [].
Proof.
  induction attr as [|next rest IH]; intros buf size Hsize; simpl.
  - exists "". rewrite append_nil_r, <- Hsize. apply runs_ret.
  - destruct (attr_type next); [ | now apply IH].
    destruct (match attr_ns next with
              | Some v => ly_ctx_get_module_by_ns ctx v
              | None => None
              end) as [module|]; [ | now apply IH].
    rewrite (sprintf_at_end _ _ _ Hsize).
    match goal with
    | |- context [filter_xpath_buf_add_attrs ctx rest (buf ++ ?t) ?n] =>
        destruct (IH (buf ++ t) n) as [suffix Hruns];
        [ subst size; strlen_solve | exists (t ++ suffix) ]
    end.
    apply runs_bind_quiet with true; [apply runs_malloc | ].
    rewrite append_assoc in Hruns. exact Hruns.
Qed.

(** The node step: nothing for an unknown namespace, else [/module:name] or
    [/name] followed by the attribute predicates. *)
Lemma add_node_runs ctx elem m last_ns buf size :
  size = strlen buf + 1 ->
  match resolve_module_name ctx elem m last_ns with
  | None => runs (filter_xpath_buf_add_node ctx elem m last_ns buf size) (0, buf) []
  | Some q =>
      exists text,
        starts_with ("/" ++ qualifier q ++ elem_name elem) text
        /\ runs (filter_xpath_buf_add_node ctx elem m last_ns buf size)
                (strlen (buf ++ text) + 1, buf ++ text) []
  end.
Proof.
  intros Hsize. unfold filter_xpath_buf_add_node.
  destruct (resolve_module_name ctx elem m last_ns) as [q|]; [ | apply runs_ret].
  rewrite (sprintf_at_end _ _ _ Hsize).
  set (step := "/" ++ qualifier q ++ elem_name elem).
  match goal with
  | |- context [filter_xpath_buf_add_attrs ctx _ _ ?n] =>
      destruct (add_attrs_runs ctx (elem_attr elem) (buf ++ step) n) as [suffix Hruns];
      [ subst size step; rewrite qualifier_len_strlen; strlen_solve | ]
  end.
  exists (step ++ suffix). split; [apply starts_with_app | ].
  apply runs_bind_quiet with true; [apply runs_malloc | ].
  simpl negb. cbv iota. rewrite append_assoc in Hruns. exact Hruns.
Qed.

Lemma add_content_runs ctx elem m last_ns buf size :
  size = strlen buf + 1 ->
  match resolve_module_name ctx elem m last_ns with
  | None => runs (filter_xpath_buf_add_content ctx elem m last_ns buf size) (0, buf) []
  | Some q =>
      exists text,
        content_predicate q elem (content_text ctx elem) text
        /\ runs (filter_xpath_buf_add_content ctx elem m last_ns buf size)
                (strlen (buf ++ text) + 1, buf ++ text) []
  end.
Proof.
  intros Hsize. unfold filter_xpath_buf_add_content.
  destruct (resolve_module_name ctx elem m last_ns) as [q|]; [ | apply runs_ret].
  rewrite (sprintf_at_end _ _ _ Hsize).
  set (step := "[" ++ qualifier q ++ elem_name elem).
  match goal with
  | |- context [filter_xpath_buf_add_attrs ctx _ _ ?n] =>
      destruct (add_attrs_runs ctx (elem_attr elem) (buf ++ step) n) as [attrs Hruns];
      [ subst size step; rewrite qualifier_len_strlen; strlen_solve | ]
  end.
  set (content := content_text ctx elem).
  set (quot := if strchr content squote then dquote else squote).
  set (literal := "=" ++ String quot content ++ String quot "]").
  exists (step ++ attrs ++ literal). split.
  { exists attrs. subst literal quot. rewrite append_assoc.
    now destruct (strchr content squote). }
  apply runs_bind_quiet with true; [apply runs_malloc | ].
  simpl negb. cbv iota.
  eapply runs_bind_quiet; [exact Hruns | ].
  cbv beta iota. rewrite size_not_zero, size_not_negative.
  eapply runs_bind_quiet; [apply get_content_runs | ].
  cbv beta iota. fold content.
  apply runs_bind_quiet with true; [apply runs_malloc | ].
  simpl negb. cbv iota.
  rewrite (sprintf_at_end _ _ _ eq_refl).
  fold quot. fold literal.
  replace (strlen ((buf ++ step) ++ attrs) + 1 + 2 + strlen content + 2)
    with (strlen (((buf ++ step) ++ attrs) ++ literal) + 1)
    by (subst literal; strlen_solve).
  rewrite !append_assoc. apply runs_ret.
Qed.

(** The top-level content node: one filter, its text between single
    quotes. *)
Lemma add_top_content_runs ctx elem m :
  exists suffix,
    runs (filter_xpath_buf_add_top_content ctx elem m) 0
         [("/" ++ m ++ ":" ++ elem_name elem ++ "[text()='"
           ++ content_text ctx elem ++ "']") ++ suffix].
Proof.
  unfold filter_xpath_buf_add_top_content.
  set (content := content_text ctx elem).
  destruct (add_attrs_runs ctx (elem_attr elem)
              ("/" ++ m ++ ":" ++ elem_name elem ++ "[text()='" ++ content ++ "']")
              (1 + strlen m + 1 + strlen (elem_name elem) + 9 + strlen content + 3))
    as [suffix Hruns]; [strlen_solve | exists suffix].
  eapply runs_bind_quiet; [apply get_content_runs | ].
  cbv beta iota. fold content.
  apply runs_bind_quiet with true; [apply runs_malloc | ].
  simpl negb. cbv iota.
  eapply runs_bind_quiet; [exact Hruns | ].
  cbv beta iota. rewrite size_not_zero, size_not_negative.
  change [?x] with ([x] ++ [])%list.
  eapply runs_bind; [apply runs_add_filter | apply runs_ret].
Qed.

(** The first loop leaves the function with 0 on a content match node of
    unknown namespace, and else appends the content predicates; the flag
    tells whether every child was a content match node. *)
Lemma content_match_nodes_runs ctx last_ns children :
  forall m buf size only, size = strlen buf + 1 ->
    runs (content_match_nodes ctx last_ns children m buf size only) (Returned 0) []
    \/ exists suffix,
         runs (content_match_nodes ctx last_ns children m buf size only)
              (Scanned (buf ++ suffix) (strlen (buf ++ suffix) + 1)
                       (only && forallb content_match children))
              [].
Proof.
  induction children as [|child rest IH]; intros m buf size only Hsize; simpl.
  - right. exists "". rewrite append_nil_r, andb_true_r, <- Hsize. apply runs_ret.
  - destruct (content_match child); simpl.
    + pose proof (add_content_runs ctx child m last_ns buf size Hsize) as Hc.
      destruct (resolve_module_name ctx child m last_ns) as [q|].
      * destruct Hc as (text & _ & Hc).
        destruct (IH m (buf ++ text) (strlen (buf ++ text) + 1) only eq_refl)
          as [Hr | [suffix Hr]].
        -- left. eapply runs_bind_quiet; [exact Hc | ].
           cbv beta iota. now rewrite size_not_zero, size_not_negative.
        -- right. exists (text ++ suffix). eapply runs_bind_quiet; [exact Hc | ].
           cbv beta iota. rewrite size_not_zero, size_not_negative.
           rewrite append_assoc in Hr. exact Hr.
      * left. eapply runs_bind_quiet; [exact Hc | ]. apply runs_ret.
    + rewrite andb_false_r. specialize (IH m buf size false Hsize).
      now rewrite andb_false_l in IH.
Qed.

Lemma runs_init {A : Type} (m : M A) a out :
  runs m a out -> m (init []) = (a, mk_state [] out).
Proof. intros H. exact (H []). Qed.

Lemma branch_child_runs ctx last_ns walk child buf size :
  walk_runs walk child -> size = strlen buf + 1 ->
  runs (branch_child ctx last_ns walk child buf size) 0
       (child_strings ctx last_ns walk child buf size)
  /\ Forall (starts_with buf) (child_strings ctx last_ns walk child buf size).
Proof.
  intros Hwalk Hsize.
  assert (H : exists out, runs (branch_child ctx last_ns walk child buf size) 0 out
                          /\ Forall (starts_with buf) out).
  { unfold branch_child. destruct (elem_child child).
    - pose proof (add_node_runs ctx child None last_ns buf size Hsize) as Hn.
      destruct (resolve_module_name ctx child None last_ns) as [q|].
      + destruct Hn as (text & _ & Hn).
        eexists. split.
        * eapply runs_bind_quiet; [exact Hn | ].
          cbv beta iota. rewrite size_not_zero, size_not_negative.
          eapply runs_bind_quiet_r; [apply runs_add_filter | apply runs_ret].
        * constructor; [apply starts_with_app | constructor].
      + exists []. split; [ | constructor].
        eapply runs_bind_quiet; [exact Hn | ]. apply runs_ret.
    - destruct (Hwalk buf size Hsize) as (a & out & Hr & Hp).
      exists out. split; [ | exact Hp].
      eapply runs_bind_quiet_r; [exact Hr | apply runs_ret]. }
  destruct H as (out & Hr & Hp).
  unfold child_strings. rewrite (runs_init _ _ _ Hr). simpl. now split.
Qed.

(** The second loop adds the strings of its children, one child after the
    other, each string on top of the shared buffer. *)
Lemma branch_runs ctx last_ns walk children :
  Forall (walk_runs walk) children ->
  forall buf size, size = strlen buf + 1 ->
    runs (branch ctx last_ns walk children buf size) 0
         (flat_map (fun child => child_strings ctx last_ns walk child buf size) children)
    /\ Forall (starts_with buf)
         (flat_map (fun child => child_strings ctx last_ns walk child buf size) children).
Proof.
  induction 1 as [|child rest Hchild _ IH]; intros buf size Hsize; simpl.
  - split; [apply runs_ret | constructor].
  - destruct (branch_child_runs ctx last_ns walk child buf size Hchild Hsize) as [Hr Hp].
    destruct (IH buf size Hsize) as [Hr' Hp'].
    split; [ | apply Forall_app; now split].
    apply runs_bind_quiet with true.
    { destruct rest; [apply runs_ret | apply runs_malloc]. }
    simpl negb. cbv iota.
    eapply runs_bind; [exact Hr | exact Hr'].
Qed.

(** The walker never reports an error when no allocation fails, and every
    string it adds starts with the buffer it was given followed by the step
    of its element. *)
Lemma walker_runs ctx last_ns elem :
  forall m buf size, size = strlen buf + 1 ->
    exists out,
      runs (filter_xpath_buf_add ctx elem m last_ns buf size) 0 out
      /\ match resolve_module_name ctx elem m last_ns with
         | None => out = []
         | Some q => Forall (starts_with (buf ++ "/" ++ qualifier q ++ elem_name elem)) out
         end.
Proof.
  induction elem as [elem IH] using lyxml_elem_forall_ind; intros m buf size Hsize.
  rewrite filter_xpath_buf_add_eq.
  pose proof (add_node_runs ctx elem m last_ns buf size Hsize) as Hn.
  destruct (resolve_module_name ctx elem m last_ns) as [q|].
  2:{ exists []. split; [ | reflexivity].
      eapply runs_bind_quiet; [exact Hn | apply runs_ret]. }
  destruct Hn as (text & Hstep & Hn).
  assert (Hpre : starts_with (buf ++ "/" ++ qualifier q ++ elem_name elem) (buf ++ text)).
  { destruct Hstep as [t ->]. exists t. symmetry. apply append_assoc. }
  destruct (content_match_nodes_runs ctx last_ns (elem_child elem) m
              (buf ++ text) (strlen (buf ++ text) + 1) true eq_refl)
    as [Hc | [suffix Hc]].
  - exists []. split; [ | constructor].
    eapply runs_bind_quiet; [exact Hn | ].
    cbv beta iota. rewrite size_not_zero, size_not_negative.
    eapply runs_bind_quiet; [exact Hc | apply runs_ret].
  - assert (Hpre' : starts_with (buf ++ "/" ++ qualifier q ++ elem_name elem)
                      ((buf ++ text) ++ suffix)).
    { eapply starts_with_trans; [exact Hpre | apply starts_with_app]. }
    simpl andb in Hc. destruct (forallb content_match (elem_child elem)).
    + exists [(buf ++ text) ++ suffix]. split; [ | now constructor].
      eapply runs_bind_quiet; [exact Hn | ].
      cbv beta iota. rewrite size_not_zero, size_not_negative.
      eapply runs_bind_quiet; [exact Hc | ].
      eapply runs_bind_quiet_r; [apply runs_add_filter | apply runs_ret].
    + assert (Hw : Forall (walk_runs (fun child => filter_xpath_buf_add ctx child None last_ns))
                     (elem_child elem)).
      { eapply Forall_impl; [ | exact IH]. intros child H b n Hb.
        destruct (H None b n Hb) as (out & Hr & Hp). exists 0, out. split; trivial.
        destruct (resolve_module_name ctx child None last_ns); [ | subst; constructor].
        eapply Forall_starts_with_trans; [apply starts_with_app | exact Hp]. }
      destruct (branch_runs ctx last_ns _ _ Hw ((buf ++ text) ++ suffix) _ eq_refl)
        as [Hb Hp].
      eexists. split.
      * eapply runs_bind_quiet; [exact Hn | ].
        cbv beta iota. rewrite size_not_zero, size_not_negative.
        eapply runs_bind_quiet; [exact Hc | exact Hb].
      * eapply Forall_starts_with_trans; [exact Hpre' | exact Hp].
Qed.

Lemma walker_walk_runs ctx last_ns child :
  walk_runs (fun child => filter_xpath_buf_add ctx child None last_ns) child.
Proof.
  intros b n Hb.
  destruct (walker_runs ctx last_ns child None b n Hb) as (out & Hr & Hp).
  exists 0, out. split; trivial.
  destruct (resolve_module_name ctx child None last_ns); [ | subst; constructor].
  eapply Forall_starts_with_trans; [apply starts_with_app | exact Hp].
Qed.

(** ** The top-level resolver under the oracle that never fails *)

Lemma top_level_branch_runs ctx next module :
  runs (top_level_branch ctx next module) 0 (top_strings ctx next module)
  /\ Forall (starts_with ("/" ++ mod_name module ++ ":" ++ elem_name next))
       (top_strings ctx next module).
Proof.
  assert (H : exists out, runs (top_level_branch ctx next module) 0 out
              /\ Forall (starts_with ("/" ++ mod_name module ++ ":" ++ elem_name next)) out).
  { unfold top_level_branch. destruct (content_match next).
    - destruct (add_top_content_runs ctx next (mod_name module)) as [suffix Hr].
      eexists. split; [exact Hr | ].
      constructor; [ | constructor].
      eapply starts_with_trans; [ | apply starts_with_app].
      exists ("[text()='" ++ content_text ctx next ++ "']").
      simpl. now rewrite !append_assoc.
    - destruct (walker_runs ctx (mod_ns module) next (Some (mod_name module)) "" 1 eq_refl)
        as (out & Hr & Hp).
      exists out. split; [exact Hr | ].
      simpl in Hp. now rewrite append_assoc in Hp. }
  destruct H as (out & Hr & Hp).
  unfold top_strings. rewrite (runs_init _ _ _ Hr). simpl. now split.
Qed.

Lemma for_modules_runs ctx next modules :
  runs (for_modules ctx next modules) 0 (flat_map (top_strings ctx next) modules).
Proof.
  induction modules as [|module rest IH]; simpl; [apply runs_ret | ].
  eapply runs_bind; [apply top_level_branch_runs | exact IH].
Qed.

Lemma modules_by_name_runs name iter :
  forall modules,
    runs (modules_by_name name iter modules)
         (Some (modules ++ filter (exposes name) iter)%list) [].
Proof.
  induction iter as [|module rest IH]; intros modules; simpl.
  - rewrite app_nil_r. apply runs_ret.
  - fold (exposes name module). destruct (exposes name module).
    + apply runs_bind_quiet with true; [apply runs_malloc | ].
      specialize (IH (modules ++ [module])%list).
      now rewrite <- app_assoc in IH.
    + apply IH.
Qed.

(** Without allocation failure the compilation returns 0, and the Filter List
    grows by the strings of every root for every candidate module, in
    order. *)
Lemma build_runs ctx elem :
  runs (op_filter_build_xpath_from_subtree ctx elem) 0
       (flat_map (fun next => flat_map (top_strings ctx next) (candidate_modules ctx next))
                 elem).
Proof.
  induction elem as [|next rest IH]; simpl; [apply runs_ret | ].
  unfold candidate_modules.
  destruct (match elem_ns next with
            | Some v => if String.eqb v base_ns then None else Some v
            | None => None
            end) as [v|].
  - apply runs_bind_quiet with true; [apply runs_malloc | ].
    simpl negb. cbv iota.
    destruct (ly_ctx_get_module_by_ns ctx v) as [module|]; [ | exact IH].
    eapply runs_bind; [exact (for_modules_runs ctx next [module]) | exact IH].
  - eapply runs_bind_quiet; [apply modules_by_name_runs | ].
    simpl app. eapply runs_bind; [apply for_modules_runs | exact IH].
Qed.

(** ** What the builders print *)

Lemma add_attrs_text ctx attr :
  forall buf size, size = strlen buf + 1 ->
    runs (filter_xpath_buf_add_attrs ctx attr buf size)
         (strlen (buf ++ attr_predicates ctx attr) + 1, buf ++ attr_predicates ctx attr) [].
Proof.
  induction attr as [|next rest IH]; intros buf size Hsize;
    cbn [filter_xpath_buf_add_attrs attr_predicates fold_right].
  - rewrite append_nil_r, <- Hsize. apply runs_ret.
  - fold (attr_predicates ctx rest). unfold attr_predicate.
    destruct (attr_type next); [ | now apply IH].
    destruct (attr_ns next) as [v|]; [ | now apply IH].
    destruct (ly_ctx_get_module_by_ns ctx v) as [module|]; [ | now apply IH].
    rewrite (sprintf_at_end _ _ _ Hsize).
    apply runs_bind_quiet with true; [apply runs_malloc | ].
    match goal with
    | |- context [filter_xpath_buf_add_attrs ctx rest (buf ++ ?t) ?n] =>
        specialize (IH (buf ++ t) n ltac:(subst size; strlen_solve))
    end.
    rewrite append_assoc in IH. exact IH.
Qed.

Lemma no_failure_result {A : Type} (m : M A) (a : A) (s : state) :
  oblivious m -> runs m a [] -> no_failure s ->
  fst (m s) = a /\ filters (snd (m s)) = filters s.
Proof.
  intros Hobl Hruns Hs.
  destruct (runs_no_failure m a [] s Hobl Hruns Hs) as (Ha & Hf & _).
  rewrite app_nil_r in Hf. now split.
Qed.

Lemma add_node_text ctx elem m q last_ns buf size :
  size = strlen buf + 1 ->
  resolve_module_name ctx elem m last_ns = Some q ->
  runs (filter_xpath_buf_add_node ctx elem m last_ns buf size)
       (strlen (buf ++ node_step ctx q elem) + 1, buf ++ node_step ctx q elem) [].
Proof.
  intros Hsize Hresolve. unfold filter_xpath_buf_add_node. rewrite Hresolve.
  rewrite (sprintf_at_end _ _ _ Hsize).
  apply runs_bind_quiet with true; [apply runs_malloc | ].
  match goal with
  | |- context [filter_xpath_buf_add_attrs ctx ?a (buf ++ ?t) ?n] =>
      pose proof (add_attrs_text ctx a (buf ++ t) n
                    ltac:(subst size; rewrite qualifier_len_strlen; strlen_solve)) as H
  end.
  unfold node_step. rewrite ?append_assoc in H. rewrite ?append_assoc. exact H.
Qed.

Lemma add_content_text ctx elem m q last_ns buf size :
  size = strlen buf + 1 ->
  resolve_module_name ctx elem m last_ns = Some q ->
  runs (filter_xpath_buf_add_content ctx elem m last_ns buf size)
       (strlen (buf ++ content_step ctx q elem) + 1, buf ++ content_step ctx q elem) [].
Proof.
  intros Hsize Hresolve.
  set (content := content_text ctx elem).
  set (b0 := buf ++ content_step ctx q elem).
  unfold filter_xpath_buf_add_content. rewrite Hresolve.
  rewrite (sprintf_at_end _ _ _ Hsize).
  apply runs_bind_quiet with true; [apply runs_malloc | ].
  cbn [negb]. cbv beta iota.
  eapply runs_bind_quiet.
  { apply add_attrs_text. subst size. rewrite qualifier_len_strlen. strlen_solve. }
  cbv beta iota. rewrite size_not_zero, size_not_negative.
  eapply runs_bind_quiet; [apply get_content_runs | ].
  cbv beta iota. fold content.
  apply runs_bind_quiet with true; [apply runs_malloc | ].
  cbn [negb]. cbv beta iota.
  rewrite (sprintf_at_end _ _ _ eq_refl).
  assert (Htext : ((buf ++ "[" ++ qualifier q ++ elem_name elem)
                   ++ attr_predicates ctx (elem_attr elem))
                  ++ "=" ++ String (if strchr content squote then dquote else squote)
                                   content
                         ++ String (if strchr content squote then dquote else squote) "]"
                  = b0).
  { subst b0. unfold content_step, content_literal. fold content.
    destruct (strchr content squote); rewrite !append_assoc; cbn [append];
      now rewrite !append_assoc. }
  rewrite Htext.
  replace (strlen ((buf ++ "[" ++ qualifier q ++ elem_name elem)
                   ++ attr_predicates ctx (elem_attr elem)) + 1 + 2
           + strlen content + 2)
    with (strlen b0 + 1); [apply runs_ret | ].
  rewrite <- Htext. strlen_solve.
Qed.

(** When every content match child resolves, the first loop appends their
    predicates, one after the other. *)
Lemma content_match_nodes_text ctx last_ns children :
  forall m buf size only, size = strlen buf + 1 ->
    Forall (fun child => content_match child = true ->
                         resolve_module_name ctx child m last_ns <> None) children ->
    runs (content_match_nodes ctx last_ns children m buf size only)
         (Scanned (buf ++ content_predicates ctx last_ns m children)
                  (strlen (buf ++ content_predicates ctx last_ns m children) + 1)
                  (only && forallb content_match children))
         [].
Proof.
  induction children as [|child rest IH]; intros m buf size only Hsize Hall;
    cbn [content_match_nodes content_predicates forallb].
  - rewrite append_nil_r, andb_true_r, <- Hsize. apply runs_ret.
  - apply Forall_cons_iff in Hall. destruct Hall as [Hchild Hrest].
    destruct (content_match child) eqn:Hcm; cbn [andb].
    + destruct (resolve_module_name ctx child m last_ns) as [q|] eqn:Hq;
        [ | now elim (Hchild eq_refl)].
      eapply runs_bind_quiet; [apply (add_content_text _ _ _ q); assumption | ].
      cbv beta iota. rewrite size_not_zero, size_not_negative.
      specialize (IH m (buf ++ content_step ctx q child) _ only eq_refl Hrest).
      rewrite append_assoc in IH. exact IH.
    + rewrite andb_false_r. specialize (IH m buf size false Hsize Hrest).
      now rewrite andb_false_l in IH.
Qed.

(** ** The dispatcher: which branch a request takes *)

Lemma select_attr_find (attrs : list lyd_attr) :
  select_attr attrs = find (fun a => String.eqb (lyd_attr_name a) "select") attrs.
Proof.
  induction attrs as [|a rest IH]; simpl; [reflexivity | now rewrite IH].
Qed.

Lemma scan_type_undeclared (all attrs : list lyd_attr) :
  undeclared_type attrs -> scan_type all attrs = Attr None.
Proof.
  induction attrs as [|a rest IH]; intros H; simpl; [reflexivity | ].
  assert (Hrest : undeclared_type rest).
  { intros b Hb. apply H. now right. }
  destruct (String.eqb_spec (lyd_attr_name a) "type") as [Hname|]; [ | now apply IH].
  destruct (H a (or_introl eq_refl) Hname) as [Hx Hs].
  destruct (value_str a) as [v|]; [ | now apply IH].
  destruct (String.eqb_spec v "xpath") as [->|]; [now elim Hx | ].
  destruct (String.eqb_spec v "subtree") as [->|]; [now elim Hs | ].
  now apply IH.
Qed.

Lemma scan_type_skip (all pre rest : list lyd_attr) :
  undeclared_type pre -> scan_type all (pre ++ rest) = scan_type all rest.
Proof.
  induction pre as [|b pre IH]; intros H; simpl; [reflexivity | ].
  assert (Hpre : undeclared_type pre).
  { intros c Hc. apply H. now right. }
  destruct (String.eqb_spec (lyd_attr_name b) "type") as [Hname|]; [ | now apply IH].
  destruct (H b (or_introl eq_refl) Hname) as [Hx Hs].
  destruct (value_str b) as [v|]; [ | now apply IH].
  destruct (String.eqb_spec v "xpath") as [->|]; [now elim Hx | ].
  destruct (String.eqb_spec v "subtree") as [->|]; [now elim Hs | ].
  now apply IH.
Qed.

Lemma scan_type_xpath (all attrs : list lyd_attr) :
  declared_type attrs "xpath" ->
  scan_type all attrs = match select_attr all with
                        | None => No_select
                        | Some sel => Attr (Some sel)
                        end.
Proof.
  intros (pre & a & post & -> & Hpre & Hname & Hval).
  rewrite scan_type_skip by exact Hpre.
  simpl. now rewrite Hname, Hval.
Qed.

Lemma scan_type_subtree (all attrs : list lyd_attr) :
  declared_type attrs "subtree" -> scan_type all attrs = Attr None.
Proof.
  intros (pre & a & post & -> & Hpre & Hname & Hval).
  rewrite scan_type_skip by exact Hpre.
  simpl. now rewrite Hname, Hval.
Qed.

Lemma create_subtree_request ctx filter_node :
  subtree_request filter_node ->
  op_filter_create ctx filter_node = subtree_filter ctx filter_node.
Proof.
  intros H. unfold op_filter_create.
  destruct H as [H | H];
    [rewrite (scan_type_subtree _ _ H) | rewrite (scan_type_undeclared _ _ H)];
    reflexivity.
Qed.

(** ** The claims *)

(** C10.  A filter node with no attribute named [type], or whose [type]
    attributes say neither [xpath] nor [subtree], is handled as a subtree
    filter, as under an explicit [type="subtree"]: a string payload that is
    not empty is parsed, an XML payload is taken as it is, and the elements
    are compiled by [op_filter_build_xpath_from_subtree], whose failure is the
    only failure.  So without allocation failure the request is not rejected:
    the call returns 0 and the Filter List grows by the strings compiled from
    the payload. *)
Theorem default_type_is_subtree (ctx : ly_ctx) (filter_node : lyd_node) (s : state) :
  (forall a, In a (node_attr filter_node) -> lyd_attr_name a = "type" ->
             exists v, value_str a = Some v /\ v <> "xpath" /\ v <> "subtree") ->
  op_filter_create ctx filter_node s
  = op_filter_create ctx
      (mk_lyd_node [mk_lyd_attr "type" (Some "subtree")] (value filter_node)) s
  /\ (forall tree,
        tree <> [] ->
        value filter_node = value_xml tree
        \/ (exists const str,
               value filter_node = value_string const (Some str)
               /\ str <> ""
               /\ lyxml_parse_mem ctx str = tree) ->
        op_filter_create ctx filter_node s
        = (let (r, s') := op_filter_build_xpath_from_subtree ctx tree s in
           (if r =? 0 then 0 else -1, s'))
        /\ (no_failure s ->
            fst (op_filter_create ctx filter_node s) = 0
            /\ filters (snd (op_filter_create ctx filter_node s))
               = (filters s
                  ++ flat_map (fun next =>
                                 flat_map (top_strings ctx next)
                                          (candidate_modules ctx next))
                              tree)%list)).
Proof.
  intros H.
  assert (Hreq : subtree_request filter_node).
  { right. intros a Hin Hname. destruct (H a Hin Hname) as (v & Hv & Hx & Hs).
    rewrite Hv. split; intros [= E]; [now elim Hx | now elim Hs]. }
  rewrite (create_subtree_request ctx filter_node Hreq).
  split; [reflexivity | ].
  intros tree Hsome Hvalue.
  assert (Hcreate : subtree_filter ctx filter_node s
                    = (let (r, s') :=
                         op_filter_build_xpath_from_subtree ctx tree s in
                       (if r =? 0 then 0 else -1, s'))).
  { unfold subtree_filter.
    destruct Hvalue as [Hxml | (const & str & Hstr & Hne & Hparse)].
    - rewrite Hxml. destruct tree as [|e l]; [now elim Hsome | ].
      cbn [value_null value_str_empty value_type valuetype_code andb orb].
      rewrite andb_false_r. cbv iota. unfold bind.
      destruct (op_filter_build_xpath_from_subtree ctx (e :: l) s) as [r s'].
      now destruct (r =? 0).
    - rewrite Hstr. destruct str as [|c str]; [now elim Hne | ].
      replace (value_null (value_string const (Some (String c str)))
               || (valuetype_code (value_type (value_string const (Some (String c str))))
                   <=? valuetype_code LYD_ANYDATA_STRING)
                  && value_str_empty (value_string const (Some (String c str))))%bool
        with false by (now destruct const).
      cbv iota. rewrite Hparse.
      destruct tree as [|e l]; [now elim Hsome | ].
      unfold bind.
      destruct (op_filter_build_xpath_from_subtree ctx (e :: l) s) as [r s'].
      now destruct (r =? 0). }
  split; [exact Hcreate | ].
  intros Hs. rewrite Hcreate.
  pose proof (runs_no_failure _ _ _ s (oblivious_build ctx tree)
                (build_runs ctx tree) Hs) as (Hr & Hf & _).
  destruct (op_filter_build_xpath_from_subtree ctx tree s) as [r s'].
  cbn [fst snd] in *. subst r. now split.
Qed.

Lemma default_type_is_subtree_witness :
  (forall a, In a (node_attr Examples.odd_type_request) -> lyd_attr_name a = "type" ->
             exists v, value_str a = Some v /\ v <> "xpath" /\ v <> "subtree")
  /\ no_failure (init [true; true])
  /\ fst (op_filter_create Examples.ctx0 Examples.odd_type_request (init [true; true])) = 0
  /\ filters (snd (op_filter_create Examples.ctx0 Examples.odd_type_request
                     (init [true; true])))
     = ["/ietf-interfaces:interfaces/interface[name='eth0']"].
Proof.
  assert (H : forall a, In a (node_attr Examples.odd_type_request) ->
                        lyd_attr_name a = "type" ->
                        exists v, value_str a = Some v /\ v <> "xpath" /\ v <> "subtree").
  { intros a [<- | [<- | []]] Hname; simpl in *.
    - exists "regexp". repeat split; discriminate.
    - discriminate. }
  assert (Hs : no_failure (init [true; true])) by (repeat constructor).
  split; [exact H | split; [exact Hs | ]].
  destruct (default_type_is_subtree Examples.ctx0 Examples.odd_type_request
              (init [true; true]) H) as [_ Hcompiled].
  destruct (Hcompiled [Examples.interfaces_filter]) as [_ Hrun].
  - discriminate.
  - left. reflexivity.
  - destruct (Hrun Hs) as [Hr Hf]. split; [exact Hr | ]. rewrite Hf. reflexivity.
Defined.

(** C9.  Compilation is deterministic: two compilations of the same filter
    node against the same context, started with the same Filter List and
    meeting no allocation failure, return the same code and leave the same
    Filter List, string for string and in the same order, whatever else the
    allocator did. *)
Theorem op_filter_create_deterministic (ctx : ly_ctx) (filter_node : lyd_node)
    (oracle1 oracle2 : list bool) (fs : list string) :
  Forall (fun b => b = true) oracle1 ->
  Forall (fun b => b = true) oracle2 ->
  fst (op_filter_create ctx filter_node (mk_state oracle1 fs))
  = fst (op_filter_create ctx filter_node (mk_state oracle2 fs))
  /\ filters (snd (op_filter_create ctx filter_node (mk_state oracle1 fs)))
     = filters (snd (op_filter_create ctx filter_node (mk_state oracle2 fs))).
Proof.
  intros H1 H2.
  destruct (oblivious_create ctx filter_node (mk_state oracle1 fs) (mk_state oracle2 fs))
    as [Hr (_ & _ & Hf)].
  - split; [now apply no_failure_mk_state | split; [now apply no_failure_mk_state | ]].
    reflexivity.
  - now split.
Qed.

Lemma op_filter_create_deterministic_witness :
  Forall (fun b => b = true) [true; true]
  /\ Forall (fun b => b = true) (@nil bool)
  /\ fst (op_filter_create Examples.ctx0 Examples.plain_request (mk_state [true; true] []))
     = fst (op_filter_create Examples.ctx0 Examples.plain_request (mk_state [] []))
  /\ filters (snd (op_filter_create Examples.ctx0 Examples.plain_request
                     (mk_state [true; true] [])))
     = filters (snd (op_filter_create Examples.ctx0 Examples.plain_request
                       (mk_state [] []))).
Proof.
  assert (H1 : Forall (fun b => b = true) [true; true]) by (repeat constructor).
  assert (H2 : Forall (fun b => b = true) (@nil bool)) by constructor.
  split; [exact H1 | split; [exact H2 | ]].
  exact (op_filter_create_deterministic Examples.ctx0 Examples.plain_request
           [true; true] [] [] H1 H2).
Defined.

Lemma xpath_filter_runs (attr : lyd_attr) (path : string) :
  value_str attr = Some path -> path <> "" -> runs (xpath_filter attr) 0 [path].
Proof.
  intros Hval Hpath. unfold xpath_filter. rewrite Hval.
  destruct path as [|c path]; [contradiction | ].
  apply runs_bind_quiet with true; [apply runs_malloc | ].
  eapply runs_bind_quiet_r; [apply runs_add_filter | apply runs_ret].
Qed.

(** C4.  For a request whose type is [xpath]: without an attribute named
    [select] the call fails with -1; with a [select] attribute whose value is
    the empty string the call returns 0 and the Filter List stays empty; with
    a [select] attribute whose value is a non-empty string, and no
    allocation failure, the call returns 0 and the Filter List is that string
    alone, unchanged. *)
Theorem xpath_request_select (ctx : ly_ctx) (filter_node : lyd_node) (oracle : list bool) :
  declared_type (node_attr filter_node) "xpath" ->
  let select := find (fun a => String.eqb (lyd_attr_name a) "select")
                     (node_attr filter_node) in
  (select = None ->
     op_filter_create ctx filter_node (init oracle) = (-1, init oracle))
  /\ (option_map value_str select = Some (Some "") ->
      op_filter_create ctx filter_node (init oracle) = (0, init oracle))
  /\ (forall path, option_map value_str select = Some (Some path) -> path <> "" ->
      Forall (fun b => b = true) oracle ->
      fst (op_filter_create ctx filter_node (init oracle)) = 0
      /\ filters (snd (op_filter_create ctx filter_node (init oracle))) = [path]).
Proof.
  intros Htype select. unfold op_filter_create.
  rewrite (scan_type_xpath _ _ Htype), select_attr_find. fold select.
  destruct select as [sel|]; simpl; (split; [ | split]); try discriminate.
  - intros [= Hval]. unfold xpath_filter. now rewrite Hval.
  - intros path [= Hval] Hpath Horacle.
    pose proof (runs_no_failure _ _ _ (init oracle) (oblivious_xpath_filter sel)
                  (xpath_filter_runs sel path Hval Hpath)
                  (no_failure_mk_state _ _ Horacle)) as (Hr & Hf & _).
    now split.
  - reflexivity.
Qed.

Lemma xpath_request_select_witness :
  declared_type (node_attr (Examples.xpath_request [mk_lyd_attr "select" (Some "/a/b")]))
                "xpath"
  /\ fst (op_filter_create Examples.ctx0
            (Examples.xpath_request [mk_lyd_attr "select" (Some "/a/b")]) (init [true])) = 0
  /\ filters (snd (op_filter_create Examples.ctx0
                     (Examples.xpath_request [mk_lyd_attr "select" (Some "/a/b")])
                     (init [true]))) = ["/a/b"].
Proof.
  assert (Htype : declared_type
                    (node_attr (Examples.xpath_request [mk_lyd_attr "select" (Some "/a/b")]))
                    "xpath").
  { exists [], (mk_lyd_attr "type" (Some "xpath")), [mk_lyd_attr "select" (Some "/a/b")].
    repeat split; try reflexivity; contradiction. }
  split; [exact Htype | ].
  destruct (xpath_request_select Examples.ctx0
              (Examples.xpath_request [mk_lyd_attr "select" (Some "/a/b")])
              [true] Htype) as (_ & _ & H).
  apply (H "/a/b").
  - reflexivity.
  - discriminate.
  - repeat constructor.
Defined.

(** C3, as the code has it.  A subtree request whose payload is absent (a
    NULL pointer, of whatever value type) or is the empty string returns 0,
    allocates nothing and leaves the Filter List as it was, so empty for a new
    request.  A string payload that is not empty, white space included, goes
    to the XML parser, and the call returns -1 when the parser finds no
    element in it. *)
Theorem empty_subtree_payload (ctx : ly_ctx) (filter_node : lyd_node) (s : state) :
  subtree_request filter_node ->
  ((value_null (value filter_node) = true
    \/ exists const, value filter_node = value_string const (Some "")) ->
   op_filter_create ctx filter_node s = (0, s))
  /\ (forall const str,
        value filter_node = value_string const (Some str) -> str <> "" ->
        lyxml_parse_mem ctx str = [] ->
        op_filter_create ctx filter_node s = (-1, s)).
Proof.
  intros Hreq. rewrite (create_subtree_request ctx filter_node Hreq).
  unfold subtree_filter. split.
  - intros [Hnull | [const Hval]].
    + now rewrite Hnull.
    + rewrite Hval. now destruct const.
  - intros const str Hval Hstr Hparse. rewrite Hval, Hparse.
    destruct str as [|c str]; [contradiction | ].
    now destruct const.
Qed.

Lemma empty_subtree_payload_witness :
  subtree_request (Examples.subtree_string_request (Some ""))
  /\ op_filter_create Examples.ctx0 (Examples.subtree_string_request (Some "")) (init [])
     = (0, init []).
Proof.
  assert (Hreq : subtree_request (Examples.subtree_string_request (Some ""))).
  { left. exists [], (mk_lyd_attr "type" (Some "subtree")), [].
    repeat split; try reflexivity; contradiction. }
  split; [exact Hreq | ].
  apply (empty_subtree_payload Examples.ctx0 (Examples.subtree_string_request (Some ""))
           (init []) Hreq).
  right. now exists false.
Defined.

(** C3 as stated fails: a subtree request whose payload is one space, all
    white space, is not an empty filter for [op_filter_create]; the parser
    finds no element and the call returns -1. *)
Lemma whitespace_payload_rejected :
  strws " " = true
  /\ op_filter_create Examples.ctx0 (Examples.subtree_string_request (Some " ")) (init [])
     = (-1, init [])
  /\ fst (op_filter_create Examples.ctx0 (Examples.subtree_string_request (Some " "))
            (init [])) <> 0.
Proof.
  split; [reflexivity | ]. split; [reflexivity | discriminate].
Qed.

(** C6.  The filter
    [<interfaces xmlns="urn:ietf:params:xml:ns:yang:ietf-interfaces">
       <interface><name>eth0</name></interface></interfaces>],
    compiled in a context that resolves the namespace to the module
    [ietf-interfaces] (and in which [ly_path_xml2json] leaves the text [eth0]
    alone), without allocation failure, gives the Filter List of the one
    string [/ietf-interfaces:interfaces/interface[name='eth0']]. *)
Theorem interfaces_example (ctx : ly_ctx) (data : list lys_node) (oracle : list bool) :
  ly_ctx_get_module_by_ns ctx Examples.if_ns
  = Some (mk_module "ietf-interfaces" Examples.if_ns data) ->
  (forall elem, ly_path_xml2json ctx "eth0" elem = None
                \/ ly_path_xml2json ctx "eth0" elem = Some "eth0") ->
  Forall (fun b => b = true) oracle ->
  fst (op_filter_build_xpath_from_subtree ctx [Examples.interfaces_filter] (init oracle)) = 0
  /\ filters (snd (op_filter_build_xpath_from_subtree ctx [Examples.interfaces_filter]
                    (init oracle)))
     = ["/ietf-interfaces:interfaces/interface[name='eth0']"].
Proof.
  intros Hmod Hjson Horacle.
  pose proof (runs_no_failure _ _ _ (init oracle)
                (oblivious_build ctx [Examples.interfaces_filter])
                (build_runs ctx [Examples.interfaces_filter])
                (no_failure_mk_state _ _ Horacle)) as (Hr & Hf & _).
  split; [exact Hr | ]. rewrite Hf. clear Hr Hf.
  assert (Hc : candidate_modules ctx Examples.interfaces_filter
               = [mk_module "ietf-interfaces" Examples.if_ns data]).
  { unfold candidate_modules.
    change (elem_ns Examples.interfaces_filter) with (Some Examples.if_ns).
    cbv iota. change (String.eqb Examples.if_ns base_ns) with false. cbv iota.
    now rewrite Hmod. }
  cbn [flat_map]. rewrite Hc. cbn [flat_map]. rewrite !app_nil_r.
  pose proof (Hjson (mk_elem "name" (Some Examples.if_ns) [] (Some "eth0") [])) as Hname.
  clear Hmod Hjson Hc. destruct ctx as [lookup iter json parse].
  cbv in Hname. cbv.
  destruct Hname as [-> | ->]; reflexivity.
Qed.

Lemma interfaces_example_witness :
  ly_ctx_get_module_by_ns Examples.ctx0 Examples.if_ns
  = Some (mk_module "ietf-interfaces" Examples.if_ns
            [mk_node "interfaces"; mk_node "interfaces-state"])
  /\ Forall (fun b => b = true) [true; true; true]
  /\ fst (op_filter_build_xpath_from_subtree Examples.ctx0 [Examples.interfaces_filter]
            (init [true; true; true])) = 0
  /\ filters (snd (op_filter_build_xpath_from_subtree Examples.ctx0
                     [Examples.interfaces_filter] (init [true; true; true])))
     = ["/ietf-interfaces:interfaces/interface[name='eth0']"].
Proof.
  assert (Hmod : ly_ctx_get_module_by_ns Examples.ctx0 Examples.if_ns
                 = Some (mk_module "ietf-interfaces" Examples.if_ns
                           [mk_node "interfaces"; mk_node "interfaces-state"]))
    by reflexivity.
  assert (Horacle : Forall (fun b => b = true) [true; true; true])
    by (repeat constructor).
  split; [exact Hmod | split; [exact Horacle | ]].
  apply (interfaces_example Examples.ctx0 _ [true; true; true] Hmod); [ | exact Horacle].
  intros elem. left. reflexivity.
Defined.

(** One root compiled for one module adds [top_strings], whatever the Filter
    List held, as long as no allocation fails. *)
Lemma top_level_branch_appends ctx next module s :
  no_failure s ->
  fst (top_level_branch ctx next module s) = 0
  /\ filters (snd (top_level_branch ctx next module s))
     = (filters s ++ top_strings ctx next module)%list.
Proof.
  intros Hs.
  destruct (top_level_branch_runs ctx next module) as [Hr _].
  pose proof (runs_no_failure _ _ _ s (oblivious_top_level_branch ctx next module) Hr Hs)
    as (H0 & Hf & _).
  now split.
Qed.

(** C7.  A root element without a namespace of its own (it has none, or the
    base namespace of the protocol) is compiled once for every module of the
    context that exposes a top-level node of its name: without allocation
    failure the call returns 0 and the Filter List grows by the strings of
    these compilations, module after module in the order of the context, and
    every string compiled for a module starts with the root step qualified by
    that module, [/module:name]. *)
Theorem ambiguous_root_fans_out (ctx : ly_ctx) (next : lyxml_elem) (s : state) :
  elem_ns next = None \/ elem_ns next = Some base_ns ->
  no_failure s ->
  let modules := filter (exposes (elem_name next)) (ly_ctx_get_module_iter ctx) in
  fst (op_filter_build_xpath_from_subtree ctx [next] s) = 0
  /\ filters (snd (op_filter_build_xpath_from_subtree ctx [next] s))
     = (filters s ++ flat_map (top_strings ctx next) modules)%list
  /\ Forall (fun module =>
              (forall s', no_failure s' ->
                 filters (snd (top_level_branch ctx next module s'))
                 = (filters s' ++ top_strings ctx next module)%list)
              /\ Forall (starts_with ("/" ++ mod_name module ++ ":" ++ elem_name next))
                   (top_strings ctx next module))
       modules.
Proof.
  intros Hns Hs modules.
  pose proof (runs_no_failure _ _ _ s (oblivious_build ctx [next])
                (build_runs ctx [next]) Hs) as (Hr & Hf & _).
  split; [exact Hr | split].
  - rewrite Hf. cbn [flat_map]. rewrite app_nil_r.
    unfold candidate_modules. destruct Hns as [-> | ->]; [reflexivity | ].
    now rewrite String.eqb_refl.
  - apply Forall_forall. intros module _. split.
    + intros s' Hs'. now apply top_level_branch_appends.
    + apply top_level_branch_runs.
Qed.

Lemma ambiguous_root_fans_out_witness :
  (elem_ns (mk_elem "a" (Some base_ns) [] None [mk_elem "b" (Some base_ns) [] None []])
   = None
   \/ elem_ns (mk_elem "a" (Some base_ns) [] None [mk_elem "b" (Some base_ns) [] None []])
      = Some base_ns)
  /\ no_failure (init [true])
  /\ filters (snd (op_filter_build_xpath_from_subtree Examples.ctx0
                     [mk_elem "a" (Some base_ns) [] None
                        [mk_elem "b" (Some base_ns) [] None []]]
                     (init [true])))
     = ["/m:a/b"; "/n:a/b"].
Proof.
  assert (Hns : elem_ns (mk_elem "a" (Some base_ns) [] None
                           [mk_elem "b" (Some base_ns) [] None []]) = None
                \/ elem_ns (mk_elem "a" (Some base_ns) [] None
                              [mk_elem "b" (Some base_ns) [] None []]) = Some base_ns)
    by (right; reflexivity).
  assert (Hs : no_failure (init [true])) by (repeat constructor).
  split; [exact Hns | split; [exact Hs | ]].
  destruct (ambiguous_root_fans_out Examples.ctx0
              (mk_elem "a" (Some base_ns) [] None [mk_elem "b" (Some base_ns) [] None []])
              (init [true]) Hns Hs) as (_ & Hf & _).
  rewrite Hf. reflexivity.
Defined.

(** C8 fails on the code for a content match node below a root element.
    No module of the context has the namespace [urn:zz].  The walker passes
    the module name of a root on to the content builder of its content match
    children, so that the namespace of
    [<b xmlns="urn:zz">x</b>] below the root [a] of module [m] is not looked
    up: the node is compiled as [m:b], where the claim has its branch stop.
    Everywhere else the lookup is made and the branch stops: below the
    element [a] inside the root [top] the same node ends the branch of [a],
    and as a selection node below the root [a] the element
    [<b xmlns="urn:zz"/>] is dropped. *)
Theorem unknown_namespace_below_root_is_compiled :
  ly_ctx_get_module_by_ns Examples.ctx0 "urn:zz" = None
  /\ op_filter_build_xpath_from_subtree Examples.ctx0
       [mk_elem "a" (Some "urn:m") [] None
          [mk_elem "b" (Some "urn:zz") [] (Some "x") []]]
       (init [])
     = (0, mk_state [] ["/m:a[m:b='x']"])
  /\ op_filter_build_xpath_from_subtree Examples.ctx0
       [mk_elem "top" (Some "urn:m") [] None
          [mk_elem "a" None [] None [mk_elem "b" (Some "urn:zz") [] (Some "x") []];
           mk_elem "c" None [] None []]]
       (init [])
     = (0, mk_state [] ["/m:top/c"])
  /\ op_filter_build_xpath_from_subtree Examples.ctx0
       [mk_elem "a" (Some "urn:m") [] None
          [mk_elem "b" (Some "urn:zz") [] None []]]
       (init [])
     = (0, mk_state [] []).
Proof.
  repeat split; reflexivity.
Qed.

(** ** The second loop of the walker *)

(** A childless child whose step resolves adds one string: the shared buffer
    and its step. *)
Lemma leaf_child_strings ctx last_ns walk child buf size q :
  size = strlen buf + 1 ->
  elem_child child = [] ->
  resolve_module_name ctx child None last_ns = Some q ->
  child_strings ctx last_ns walk child buf size = [buf ++ node_step ctx q child].
Proof.
  intros Hsize Hleaf Hresolve.
  assert (Hr : runs (branch_child ctx last_ns walk child buf size) 0
                    [buf ++ node_step ctx q child]).
  { unfold branch_child. rewrite Hleaf.
    eapply runs_bind_quiet; [now apply (add_node_text _ _ _ q) | ].
    cbv beta iota. rewrite size_not_zero, size_not_negative.
    eapply runs_bind_quiet_r; [apply runs_add_filter | apply runs_ret]. }
  unfold child_strings. now rewrite (runs_init _ _ _ Hr).
Qed.

(** A child of unknown namespace adds nothing. *)
Lemma unresolved_child_strings ctx last_ns child buf size :
  size = strlen buf + 1 ->
  resolve_module_name ctx child None last_ns = None ->
  child_strings ctx last_ns (fun child => filter_xpath_buf_add ctx child None last_ns)
    child buf size = [].
Proof.
  intros Hsize Hresolve.
  assert (Hr : runs (branch_child ctx last_ns
                       (fun child => filter_xpath_buf_add ctx child None last_ns)
                       child buf size) 0 []).
  { unfold branch_child. destruct (elem_child child).
    - pose proof (add_node_runs ctx child None last_ns buf size Hsize) as Hn.
      rewrite Hresolve in Hn.
      eapply runs_bind_quiet; [exact Hn | apply runs_ret].
    - destruct (walker_runs ctx last_ns child None buf size Hsize) as (out & Hw & Hout).
      rewrite Hresolve in Hout. subst out.
      eapply runs_bind_quiet; [exact Hw | apply runs_ret]. }
  unfold child_strings. now rewrite (runs_init _ _ _ Hr).
Qed.

(** A child with children adds what its own compilation adds. *)
Lemma inner_child_strings ctx last_ns walk child buf size :
  elem_child child <> [] ->
  child_strings ctx last_ns walk child buf size
  = filters (snd (walk child buf size (init []))).
Proof.
  intros Hinner. unfold child_strings, branch_child.
  destruct (elem_child child); [now elim Hinner | ].
  unfold bind. now destruct (walk child buf size (init [])).
Qed.

Lemma length_flat_map_singletons {A B : Type} (f : A -> list B) (l : list A) :
  Forall (fun a => length (f a) = 1%nat) l -> length (flat_map f l) = length l.
Proof.
  induction 1 as [|a l Ha _ IH]; simpl; [reflexivity | ].
  rewrite length_app, Ha, IH. reflexivity.
Qed.

(** The walker on an element that it compiles into its second loop. *)
Lemma containment_runs ctx elem m q last_ns buf size :
  size = strlen buf + 1 ->
  resolve_module_name ctx elem m last_ns = Some q ->
  Forall (fun child => content_match child = true ->
                       resolve_module_name ctx child m last_ns <> None)
         (elem_child elem) ->
  forallb content_match (elem_child elem) = false ->
  let p := buf ++ node_step ctx q elem
           ++ content_predicates ctx last_ns m (elem_child elem) in
  let gained :=
    flat_map (fun child =>
                child_strings ctx last_ns
                  (fun child => filter_xpath_buf_add ctx child None last_ns)
                  child p (strlen p + 1))
             (elem_child elem) in
  runs (filter_xpath_buf_add ctx elem m last_ns buf size) 0 gained
  /\ Forall (starts_with p) gained.
Proof.
  intros Hsize Hresolve Hall Hsome p gained. subst gained.
  assert (Hp : p = (buf ++ node_step ctx q elem)
                   ++ content_predicates ctx last_ns m (elem_child elem)).
  { subst p. symmetry. apply append_assoc. }
  clearbody p. subst p.
  assert (Hw : Forall (walk_runs (fun child => filter_xpath_buf_add ctx child None last_ns))
                 (elem_child elem)).
  { apply Forall_forall. intros child _. apply walker_walk_runs. }
  destruct (branch_runs ctx last_ns _ _ Hw
              ((buf ++ node_step ctx q elem)
               ++ content_predicates ctx last_ns m (elem_child elem)) _ eq_refl)
    as [Hb Hp].
  split; [ | exact Hp].
  rewrite filter_xpath_buf_add_eq.
  eapply runs_bind_quiet; [now apply (add_node_text _ _ _ q) | ].
  cbv beta iota. rewrite size_not_zero, size_not_negative.
  eapply runs_bind_quiet.
  { apply content_match_nodes_text; [reflexivity | exact Hall]. }
  rewrite Hsome. cbn [andb]. cbv beta iota. exact Hb.
Qed.

(** C1, as the code has it.  Take an element that the walker compiles into
    its second loop: its step resolves, its content match children resolve,
    and one of its children is not a content match node.  Let [p] be the
    buffer it was given, its step with the attribute predicates, and the
    predicates of its content match children, in that order.  Without
    allocation failure the walker returns 0 and the Filter List grows by the
    strings of all children of the element in document order, content match
    children included: a childless child whose step resolves gives the one
    string [p] plus its step, a child with children gives the strings of its
    own compilation on [p], a child of unknown namespace gives none.  Every
    such string starts with [p].  When every child is childless and resolves,
    the list grows by as many strings as the element has children. *)
Theorem containment_branches (ctx : ly_ctx) (elem : lyxml_elem)
    (elem_module_name q : option string) (last_ns buf : string) (size : Z) (s : state) :
  size = strlen buf + 1 ->
  no_failure s ->
  resolve_module_name ctx elem elem_module_name last_ns = Some q ->
  Forall (fun child => content_match child = true ->
                       resolve_module_name ctx child elem_module_name last_ns <> None)
         (elem_child elem) ->
  (exists child, In child (elem_child elem) /\ content_match child = false) ->
  let walk := fun child => filter_xpath_buf_add ctx child None last_ns in
  let p := buf ++ "/" ++ qualifier q ++ elem_name elem
           ++ attr_predicates ctx (elem_attr elem)
           ++ content_predicates ctx last_ns elem_module_name (elem_child elem) in
  let psize := strlen p + 1 in
  let gained :=
    flat_map (fun child => child_strings ctx last_ns walk child p psize)
             (elem_child elem) in
  let r := filter_xpath_buf_add ctx elem elem_module_name last_ns buf size s in
  fst r = 0
  /\ filters (snd r) = (filters s ++ gained)%list
  /\ Forall (starts_with p) gained
  /\ (forall child q', In child (elem_child elem) -> elem_child child = [] ->
        resolve_module_name ctx child None last_ns = Some q' ->
        child_strings ctx last_ns walk child p psize
        = [p ++ "/" ++ qualifier q' ++ elem_name child
             ++ attr_predicates ctx (elem_attr child)])
  /\ (forall child, In child (elem_child elem) -> elem_child child <> [] ->
        child_strings ctx last_ns walk child p psize
        = filters (snd (filter_xpath_buf_add ctx child None last_ns p psize (init []))))
  /\ (forall child, In child (elem_child elem) ->
        resolve_module_name ctx child None last_ns = None ->
        child_strings ctx last_ns walk child p psize = [])
  /\ (Forall (fun child => elem_child child = []
                           /\ resolve_module_name ctx child None last_ns <> None)
             (elem_child elem) ->
      length gained = length (elem_child elem)).
Proof.
  intros Hsize Hs Hresolve Hall Hsome walk p psize gained r.
  assert (Hnot : forallb content_match (elem_child elem) = false).
  { destruct Hsome as (child & Hin & Hcm).
    destruct (forallb content_match (elem_child elem)) eqn:E; [ | reflexivity].
    rewrite forallb_forall in E. rewrite (E child Hin) in Hcm. discriminate. }
  assert (Hp : p = buf ++ node_step ctx q elem
                   ++ content_predicates ctx last_ns elem_module_name (elem_child elem)).
  { subst p. unfold node_step. now rewrite !append_assoc. }
  destruct (containment_runs ctx elem elem_module_name q last_ns buf size
              Hsize Hresolve Hall Hnot) as [Hruns Hstarts].
  rewrite <- Hp in Hruns, Hstarts. fold psize walk gained in Hruns, Hstarts.
  pose proof (runs_no_failure _ _ _ s
                (oblivious_walker ctx last_ns elem elem_module_name buf size) Hruns Hs)
    as (Hr & Hf & _).
  assert (Hleaf : forall child q', elem_child child = [] ->
             resolve_module_name ctx child None last_ns = Some q' ->
             child_strings ctx last_ns walk child p psize
             = [p ++ "/" ++ qualifier q' ++ elem_name child
                  ++ attr_predicates ctx (elem_attr child)]).
  { intros child q' Hc Hq.
    now apply (leaf_child_strings ctx last_ns walk child p psize q'). }
  split; [exact Hr | ]. split; [exact Hf | ]. split; [exact Hstarts | ].
  split; [ | split; [ | split]].
  - intros child q' _. apply Hleaf.
  - intros child _ Hinner. now apply inner_child_strings.
  - intros child _ Hq. now apply unresolved_child_strings.
  - intros Hleaves. apply length_flat_map_singletons.
    eapply Forall_impl; [ | exact Hleaves]. intros child [Hc Hq]. simpl.
    destruct (resolve_module_name ctx child None last_ns) as [q'|] eqn:E; [ | now elim Hq].
    now rewrite (Hleaf child q' Hc E).
Qed.

Lemma containment_branches_witness :
  1 = strlen "" + 1
  /\ no_failure (init [true])
  /\ resolve_module_name Examples.ctx0
       (mk_elem "a" (Some "urn:m") [] None
          [mk_elem "b" None [] (Some "x") []; mk_elem "c" None [] None []])
       (Some "m") "urn:m" = Some (Some "m")
  /\ filters (snd (filter_xpath_buf_add Examples.ctx0
                     (mk_elem "a" (Some "urn:m") [] None
                        [mk_elem "b" None [] (Some "x") []; mk_elem "c" None [] None []])
                     (Some "m") "urn:m" "" 1 (init [true])))
     = ["/m:a[m:b='x']/b"; "/m:a[m:b='x']/c"].
Proof.
  assert (Hs : no_failure (init [true])) by (repeat constructor).
  split; [reflexivity | split; [exact Hs | split; [reflexivity | ]]].
  destruct (containment_branches Examples.ctx0
              (mk_elem "a" (Some "urn:m") [] None
                 [mk_elem "b" None [] (Some "x") []; mk_elem "c" None [] None []])
              (Some "m") (Some "m") "urn:m" "" 1 (init [true])
              eq_refl Hs eq_refl) as (_ & Hf & _).
  - apply Forall_cons; [discriminate | ].
    apply Forall_cons; [discriminate | apply Forall_nil].
  - exists (mk_elem "c" None [] None []). split; [right; now left | reflexivity].
  - rewrite Hf. reflexivity.
Defined.

(** C1 as stated fails: the element [<a><b>x</b><c/></a>] has one child that
    is not a content match node, and the walker adds two strings, one of them
    for the content match child [b]. *)
Lemma content_match_child_gets_a_string :
  length (filter (fun child => negb (content_match child))
            [mk_elem "b" None [] (Some "x") []; mk_elem "c" None [] None []]) = 1%nat
  /\ filter_xpath_buf_add Examples.ctx0
       (mk_elem "a" (Some "urn:m") [] None
          [mk_elem "b" None [] (Some "x") []; mk_elem "c" None [] None []])
       (Some "m") "urn:m" "" 1 (init [])
     = (0, mk_state [] ["/m:a[m:b='x']/b"; "/m:a[m:b='x']/c"])
  /\ length (filters (snd (filter_xpath_buf_add Examples.ctx0
       (mk_elem "a" (Some "urn:m") [] None
          [mk_elem "b" None [] (Some "x") []; mk_elem "c" None [] None []])
       (Some "m") "urn:m" "" 1 (init [])))) <> 1%nat.
Proof.
  split; [reflexivity | split; [reflexivity | discriminate]].
Qed.

(** C2 fails on the code.  The walker drops the result of its recursive
    call: in [<a xmlns="urn:m"><b><c/></b><d/></a>] the fourth allocation, the
    growth of the buffer for [b] inside the recursive call, fails, and the
    compilation still returns 0 with the Filter List of the other branch,
    where the compilation without failure gives both branches. *)
Theorem nested_allocation_failure_is_swallowed :
  existsb negb [true; true; true; false] = true
  /\ op_filter_create Examples.ctx0
       (mk_lyd_node []
          (value_xml [mk_elem "a" (Some "urn:m") [] None
                        [mk_elem "b" None [] None [mk_elem "c" None [] None []];
                         mk_elem "d" None [] None []]]))
       (init [true; true; true; false])
     = (0, mk_state [] ["/m:a/d"])
  /\ op_filter_create Examples.ctx0
       (mk_lyd_node []
          (value_xml [mk_elem "a" (Some "urn:m") [] None
                        [mk_elem "b" None [] None [mk_elem "c" None [] None []];
                         mk_elem "d" None [] None []]]))
       (init [])
     = (0, mk_state [] ["/m:a/b/c"; "/m:a/d"]).
Proof.
  split; [reflexivity | split; reflexivity].
Qed.

(** C5 fails on the code for a top-level content match node: its text is
    always put between single quotes, also when it holds one, where the
    content match node below an element gets double quotes. *)
Theorem top_level_content_single_quoted :
  strchr "O'Brien" squote = true
  /\ op_filter_build_xpath_from_subtree Examples.ctx0
       [mk_elem "top" (Some "urn:m") [] (Some "O'Brien") []] (init [])
     = (0, mk_state [] ["/m:top[text()='O'Brien']"])
  /\ op_filter_build_xpath_from_subtree Examples.ctx0
       [mk_elem "a" (Some "urn:m") [] None [mk_elem "top" None [] (Some "O'Brien") []]]
       (init [])
     = (0, mk_state [] ["/m:a[m:top=" ++ String dquote ("O'Brien" ++ String dquote "]")]).
Proof.
  split; [reflexivity | split; reflexivity].
Qed.

(** * Further properties of [common.c] *)

(** ** [np_sleep] *)

(** For every [ms] of type [uint32_t] the [timespec] of [np_sleep] is the
    same duration, [ms] milliseconds, and is one that [nanosleep] accepts:
    the nanoseconds are below one second, and their product does not wrap on
    32 bits. *)
Theorem np_sleep_timespec_exact (ms : Z) :
  0 <= ms < 2 ^ 32 ->
  let ts := np_sleep_timespec ms in
  0 <= tv_sec ts
  /\ 0 <= tv_nsec ts <= 999999999
  /\ tv_nsec ts = ms mod 1000 * 1000000
  /\ tv_sec ts * 1000000000 + tv_nsec ts = ms * 1000000.
Proof.
  intros Hms. unfold np_sleep_timespec, uint32. cbv zeta. cbn [tv_sec tv_nsec].
  rewrite (Z.mod_small ms (2 ^ 32)) by lia.
  pose proof (Z.mod_pos_bound ms 1000 ltac:(lia)) as Hmod.
  pose proof (Z.div_mod ms 1000 ltac:(lia)) as Hdiv.
  assert (Hq : 0 <= ms / 1000) by (apply Z.div_pos; lia).
  rewrite (Z.mod_small (ms mod 1000 * 1000000)) by lia.
  repeat split; lia.
Qed.

Lemma np_sleep_timespec_exact_witness :
  0 <= 4294967295 < 2 ^ 32
  /\ 0 <= tv_sec (np_sleep_timespec 4294967295)
  /\ 0 <= tv_nsec (np_sleep_timespec 4294967295) <= 999999999
  /\ tv_nsec (np_sleep_timespec 4294967295) = 4294967295 mod 1000 * 1000000
  /\ tv_sec (np_sleep_timespec 4294967295) * 1000000000
     + tv_nsec (np_sleep_timespec 4294967295) = 4294967295 * 1000000.
Proof.
  assert (H : 0 <= 4294967295 < 2 ^ 32) by lia.
  split; [exact H | ].
  exact (np_sleep_timespec_exact 4294967295 H).
Defined.

(** ** [np_get_nc_sess_user] *)

Lemma session_by_id_none (nc_ps : list nc_session) (nc_sid : Z) :
  (forall nc_sess, In nc_sess nc_ps -> nc_session_get_id nc_sess <> nc_sid) ->
  session_by_id nc_ps nc_sid = None.
Proof.
  induction nc_ps as [|x rest IH]; intros H; simpl; [reflexivity | ].
  destruct (Z.eqb_spec (nc_session_get_id x) nc_sid) as [E|_].
  - elim (H x (or_introl eq_refl) E).
  - apply IH. intros y Hy. apply H. now right.
Qed.

Lemma session_by_id_found (nc_ps : list nc_session) (nc_sess : nc_session) :
  NoDup (map nc_session_get_id nc_ps) -> In nc_sess nc_ps ->
  session_by_id nc_ps (nc_session_get_id nc_sess) = Some nc_sess.
Proof.
  induction nc_ps as [|x rest IH]; intros Hnd Hin; [contradiction | ].
  simpl in Hnd. inversion Hnd as [|? ? Hx Hrest]; subst. simpl.
  destruct Hin as [-> | Hin].
  - now rewrite Z.eqb_refl.
  - destruct (Z.eqb_spec (nc_session_get_id x) (nc_session_get_id nc_sess)) as [E|_].
    + elim Hx. rewrite E. now apply in_map.
    + now apply IH.
Qed.

(** Session ids being unique, [np_get_nc_sess_user] gives for the id of a
    session of the poll structure the user name of that session; for an id
    that no session has it gives NULL. *)
Theorem np_get_nc_sess_user_lookup (nc_ps : list nc_session) :
  NoDup (map nc_session_get_id nc_ps) ->
  (forall nc_sess, In nc_sess nc_ps ->
     np_get_nc_sess_user nc_ps (nc_session_get_id nc_sess)
     = nc_session_get_username nc_sess)
  /\ (forall nc_sid,
        (forall nc_sess, In nc_sess nc_ps -> nc_session_get_id nc_sess <> nc_sid) ->
        np_get_nc_sess_user nc_ps nc_sid = None).
Proof.
  intros Hnd. split.
  - intros nc_sess Hin. unfold np_get_nc_sess_user.
    now rewrite (session_by_id_found nc_ps nc_sess Hnd Hin).
  - intros nc_sid H. unfold np_get_nc_sess_user.
    now rewrite (session_by_id_none nc_ps nc_sid H).
Qed.

Lemma np_get_nc_sess_user_lookup_witness :
  NoDup (map nc_session_get_id
           [mk_session 1 (Some "alice") None NC_TI_LIBSSH; mk_session 2 (Some "bob") None NC_TI_UNIX])
  /\ np_get_nc_sess_user
       [mk_session 1 (Some "alice") None NC_TI_LIBSSH; mk_session 2 (Some "bob") None NC_TI_UNIX] 2
     = Some "bob".
Proof.
  assert (Hnd : NoDup (map nc_session_get_id
                         [mk_session 1 (Some "alice") None NC_TI_LIBSSH;
                          mk_session 2 (Some "bob") None NC_TI_UNIX])).
  { simpl. repeat constructor; simpl; intuition discriminate. }
  split; [exact Hnd | ].
  destruct (np_get_nc_sess_user_lookup _ Hnd) as [H _].
  apply (H (mk_session 2 (Some "bob") None NC_TI_UNIX)). simpl. now right; left.
Defined.

(** ** [url_readdata] *)

Lemma size_t_range (z : Z) : 0 <= size_t z < 2 ^ 64.
Proof. unfold size_t. apply Z.mod_pos_bound. lia. Qed.

Lemma url_readdata_step (size nmemb : Z) (data : np2srv_url_mem) :
  url_mem_valid data ->
  let '(copied, bytes, data') := url_readdata size nmemb data in
  0 <= copied <= size_t (size * nmemb)
  /\ copied <= mem_size data
  /\ Z.of_nat (length bytes) = copied
  /\ (bytes ++ memory data')%list = memory data
  /\ mem_size data' = mem_size data - copied
  /\ url_mem_valid data'
  /\ (copied = 0 <-> size_t (size * nmemb) = 0 \/ mem_size data = 0).
Proof.
  unfold url_mem_valid, url_readdata. intros Hvalid.
  pose proof (size_t_range (size * nmemb)) as Haux.
  set (aux_size := size_t (size * nmemb)) in *.
  destruct (Z.ltb_spec aux_size 1) as [Hlt | Hge]; cbn [orb].
  { cbv beta iota zeta. rewrite app_nil_l. repeat split; try lia. }
  destruct (Z.eqb_spec (mem_size data) 0) as [Hz | Hnz].
  { cbv beta iota zeta. rewrite app_nil_l. repeat split; try lia. }
  set (copied := if mem_size data >? aux_size then aux_size else mem_size data).
  assert (Hc : 1 <= copied <= aux_size /\ copied <= mem_size data).
  { subst copied. destruct (Z.gtb_spec (mem_size data) aux_size); lia. }
  cbv beta iota zeta. cbn [memory mem_size].
  rewrite firstn_skipn, length_firstn, length_skipn.
  repeat split; try lia.
Qed.

(** One call of [url_readdata] on a valid structure copies no more than the
    buffer takes and no more than is left, copies the next bytes and moves
    past them, and leaves a valid structure; it returns 0 exactly when the
    buffer takes nothing or nothing is left. *)
Theorem url_readdata_bounds (size nmemb : Z) (data : np2srv_url_mem) :
  url_mem_valid data ->
  let '(copied, bytes, data') := url_readdata size nmemb data in
  0 <= copied <= size_t (size * nmemb)
  /\ copied <= mem_size data
  /\ Z.of_nat (length bytes) = copied
  /\ (bytes ++ memory data')%list = memory data
  /\ mem_size data' = mem_size data - copied
  /\ url_mem_valid data'
  /\ (copied = 0 <-> size_t (size * nmemb) = 0 \/ mem_size data = 0).
Proof.
  exact (url_readdata_step size nmemb data).
Qed.

Lemma url_readdata_bounds_witness :
  url_mem_valid (mk_url_mem [Byte.x61; Byte.x62; Byte.x63] 3)
  /\ let '(copied, bytes, data') :=
       url_readdata 1 2 (mk_url_mem [Byte.x61; Byte.x62; Byte.x63] 3) in
     0 <= copied <= size_t (1 * 2)
     /\ copied <= 3
     /\ Z.of_nat (length bytes) = copied
     /\ (bytes ++ memory data')%list = [Byte.x61; Byte.x62; Byte.x63]
     /\ mem_size data' = 3 - copied
     /\ url_mem_valid data'
     /\ (copied = 0 <-> size_t (1 * 2) = 0 \/ 3 = 0).
Proof.
  assert (H : url_mem_valid (mk_url_mem [Byte.x61; Byte.x62; Byte.x63] 3))
    by reflexivity.
  split; [exact H | ].
  exact (url_readdata_bounds 1 2 (mk_url_mem [Byte.x61; Byte.x62; Byte.x63] 3) H).
Defined.

(** Whatever buffers libcurl offers, the bytes that successive calls of
    [url_readdata] deliver, followed by what is left, are the bytes of the
    document, in order: nothing is lost, repeated or reordered.  When every
    buffer takes at least one byte, as many calls as the document has bytes
    deliver all of it. *)
Theorem url_read_calls_stream (calls : list (Z * Z)) :
  forall data, url_mem_valid data ->
    let (bytes, data') := url_read_calls calls data in
    (bytes ++ memory data')%list = memory data
    /\ url_mem_valid data'
    /\ (Forall (fun call => 1 <= size_t (fst call * snd call)) calls ->
        (length (memory data) <= length calls)%nat ->
        memory data' = [] /\ bytes = memory data).
Proof.
  induction calls as [|[size nmemb] rest IH]; intros data Hvalid.
  - cbn [url_read_calls]. split; [reflexivity | split; [exact Hvalid | ]].
    intros _ Hlen. destruct (memory data); [now split | simpl in Hlen; lia].
  - cbn [url_read_calls].
    pose proof (url_readdata_step size nmemb data Hvalid) as Hstep.
    destruct (url_readdata size nmemb data) as [[copied bytes] data1].
    destruct Hstep as (Hc & Hle & Hlen & Hcat & Hsize & Hvalid1 & Hzero).
    specialize (IH data1 Hvalid1).
    destruct (url_read_calls rest data1) as [more data2].
    destruct IH as (Hcat' & Hvalid2 & Hall).
    split; [ | split; [exact Hvalid2 | ]].
    + rewrite <- app_assoc, Hcat'. exact Hcat.
    + intros Hcalls Hcount. apply Forall_cons_iff in Hcalls as [Hcall Hrest].
      cbn [fst snd] in Hcall. cbn [length] in Hcount.
      assert (Hshort : (length (memory data1) <= length rest)%nat).
      { unfold url_mem_valid in Hvalid, Hvalid1.
        destruct (Z.eq_dec (mem_size data) 0) as [Hz | Hnz]; [lia | ].
        assert (copied <> 0) by (intros E; apply Hzero in E; lia). lia. }
      destruct (Hall Hrest Hshort) as [Hnil Hmore]. split; [exact Hnil | ].
      rewrite Hmore. exact Hcat.
Qed.

Lemma url_read_calls_stream_witness :
  url_mem_valid (mk_url_mem [Byte.x61; Byte.x62; Byte.x63] 3)
  /\ url_read_calls [(1, 2); (1, 0); (2, 1)] (mk_url_mem [Byte.x61; Byte.x62; Byte.x63] 3)
     = ([Byte.x61; Byte.x62; Byte.x63], mk_url_mem [] 0).
Proof.
  assert (H : url_mem_valid (mk_url_mem [Byte.x61; Byte.x62; Byte.x63] 3))
    by reflexivity.
  split; [exact H | ].
  pose proof (url_read_calls_stream [(1, 2); (1, 0); (2, 1)] _ H) as Hstream.
  destruct (url_read_calls [(1, 2); (1, 0); (2, 1)]
              (mk_url_mem [Byte.x61; Byte.x62; Byte.x63] 3)) as [bytes data'] eqn:E.
  destruct Hstream as (Hcat & Hvalid & _).
  vm_compute in E. exact (eq_sym E).
Defined.

(** ** [np2srv_url_setcap] *)

Lemma url_protocol_bit_mask (protocol : string) (b0 b1 b2 b3 b4 b5 b6 : bool) :
  url_protocol_bit protocol url_protocol_str 0 (url_mask b0 b1 b2 b3 b4 b5 b6)
  = url_mask (b0 || String.eqb protocol "scp") (b1 || String.eqb protocol "http")
             (b2 || String.eqb protocol "https") (b3 || String.eqb protocol "ftp")
             (b4 || String.eqb protocol "sftp") (b5 || String.eqb protocol "ftps")
             (b6 || String.eqb protocol "file").
Proof.
  cbn [url_protocol_bit url_protocol_str].
  repeat match goal with
         | |- context [String.eqb ?x ?t] =>
             is_var x; destruct (String.eqb_spec x t) as [->|]
         end;
    destruct b0, b1, b2, b3, b4, b5, b6; reflexivity.
Qed.

Lemma url_supported_fold (protocols : list string) :
  forall b0 b1 b2 b3 b4 b5 b6,
    fold_left (fun sup_prot protocol =>
                 url_protocol_bit protocol url_protocol_str 0 sup_prot)
              protocols (url_mask b0 b1 b2 b3 b4 b5 b6)
    = url_mask (b0 || existsb (fun p => String.eqb p "scp") protocols)
               (b1 || existsb (fun p => String.eqb p "http") protocols)
               (b2 || existsb (fun p => String.eqb p "https") protocols)
               (b3 || existsb (fun p => String.eqb p "ftp") protocols)
               (b4 || existsb (fun p => String.eqb p "sftp") protocols)
               (b5 || existsb (fun p => String.eqb p "ftps") protocols)
               (b6 || existsb (fun p => String.eqb p "file") protocols).
Proof.
  induction protocols as [|p rest IH]; intros b0 b1 b2 b3 b4 b5 b6.
  - cbn [fold_left existsb]. now rewrite !orb_false_r.
  - cbn [fold_left existsb]. rewrite url_protocol_bit_mask, IH.
    now rewrite !orb_assoc.
Qed.

Lemma url_supported_mask (protocols : list string) :
  url_supported protocols
  = url_mask (existsb (fun p => String.eqb p "scp") protocols)
             (existsb (fun p => String.eqb p "http") protocols)
             (existsb (fun p => String.eqb p "https") protocols)
             (existsb (fun p => String.eqb p "ftp") protocols)
             (existsb (fun p => String.eqb p "sftp") protocols)
             (existsb (fun p => String.eqb p "ftps") protocols)
             (existsb (fun p => String.eqb p "file") protocols).
Proof.
  exact (url_supported_fold protocols false false false false false false false).
Qed.

(** [np2srv_url_setcap] is defined for every list of curl protocols: the
    sentinel of the table is never printed and the text always fits the
    buffer.  It advertises exactly the protocols of the table that curl
    supports, in the order of the table and separated by commas, whatever the
    order and the repetitions in curl's list; without any, it sets no
    capability and allocates nothing; when the allocation fails it sets none
    and returns [EXIT_FAILURE]. *)
Theorem np2srv_url_setcap_capability (protocols : list string) (s : state) :
  let supported :=
    filter (fun entry => existsb (fun p => String.eqb p entry) protocols)
           url_protocol_names in
  np2srv_url_setcap protocols s =
  match supported with
  | [] => (Some (EXIT_SUCCESS, None), s)
  | _ :: _ =>
      let (ok, s') := malloc s in
      (Some (if ok
             then (EXIT_SUCCESS, Some (main_cpblt ++ String.concat "," supported))
             else (EXIT_FAILURE, None)),
       s')
  end.
Proof.
  unfold np2srv_url_setcap. rewrite url_supported_mask.
  cbn [filter url_protocol_names].
  destruct (existsb (fun p => String.eqb p "scp") protocols),
           (existsb (fun p => String.eqb p "http") protocols),
           (existsb (fun p => String.eqb p "https") protocols),
           (existsb (fun p => String.eqb p "ftp") protocols),
           (existsb (fun p => String.eqb p "sftp") protocols),
           (existsb (fun p => String.eqb p "ftps") protocols),
           (existsb (fun p => String.eqb p "file") protocols);
    cbv -[malloc]; try reflexivity;
    destruct (malloc s) as [[|] s']; reflexivity.
Qed.

(** ** The filter compiler under every oracle *)

Lemma post_ret {A : Type} (a : A) (P : A -> list string -> Prop) :
  P a [] -> post (ret a) P.
Proof. intros H s. exists []. simpl. now rewrite app_nil_r. Qed.

Lemma post_bind {A B : Type} (m : M A) (f : A -> M B)
    (P : A -> list string -> Prop) (Q : B -> list string -> Prop) :
  post m P ->
  (forall a out, P a out -> post (f a) (fun b out' => Q b (out ++ out')%list)) ->
  post (bind m f) Q.
Proof.
  intros Hm Hf s. unfold bind.
  destruct (Hm s) as (out & Hout & HP).
  destruct (m s) as [a s1]. simpl in Hout, HP.
  destruct (Hf a out HP s1) as (out' & Hout' & HQ).
  exists (out ++ out')%list. split; [ | exact HQ].
  now rewrite Hout', Hout, app_assoc.
Qed.

Lemma post_weaken {A : Type} (m : M A) (P Q : A -> list string -> Prop) :
  post m P -> (forall a out, P a out -> Q a out) -> post m Q.
Proof.
  intros Hm HPQ s. destruct (Hm s) as (out & Hout & HP). exists out. auto.
Qed.

Lemma post_malloc : post malloc (fun _ out => out = []).
Proof.
  intros s. exists []. unfold malloc.
  destruct (allocs s); simpl; now rewrite app_nil_r.
Qed.

(** A bind whose first action appends nothing. *)
Lemma post_bind_quiet {A B : Type} (m : M A) (f : A -> M B)
    (P : A -> Prop) (Q : B -> list string -> Prop) :
  post m (fun a out => out = [] /\ P a) ->
  (forall a, P a -> post (f a) Q) ->
  post (bind m f) Q.
Proof.
  intros Hm Hf. eapply post_bind; [exact Hm | ].
  intros a out [-> Ha]. exact (Hf a Ha).
Qed.

Lemma post_alloc {B : Type} (f : bool -> M B) (Q : B -> list string -> Prop) :
  (forall ok, post (f ok) Q) -> post (bind malloc f) Q.
Proof.
  intros Hf. eapply post_bind; [apply post_malloc | ].
  intros ok out ->. apply Hf.
Qed.

Lemma post_add_filter (x : string) :
  post (op_filter_xpath_add_filter x)
       (fun r out => (r = 0 /\ out = [x]) \/ (r = -1 /\ out = [])).
Proof.
  intros s. unfold op_filter_xpath_add_filter, bind, realloc, malloc.
  destruct (allocs s) as [|[|] rest]; simpl.
  - exists [x]. split; [reflexivity | now left].
  - exists [x]. split; [reflexivity | now left].
  - exists []. split; [now rewrite app_nil_r | now right].
Qed.

Lemma post_null_dereference {A : Type} (a : A) (P : A -> list string -> Prop) :
  P a [] -> post (null_dereference a) P.
Proof. intros H s. exists []. simpl. now rewrite app_nil_r. Qed.

Lemma get_content_post ctx elem :
  post (filter_xpath_buf_get_content ctx elem) (fun _ out => out = [] /\ True).
Proof.
  unfold filter_xpath_buf_get_content.
  destruct (ly_path_xml2json ctx _ elem) as [r|]; [now apply post_ret | ].
  apply post_alloc. intros [|]; now apply post_ret.
Qed.

Lemma add_attrs_post ctx attr :
  forall buf size, size = strlen buf + 1 ->
    post (filter_xpath_buf_add_attrs ctx attr buf size)
         (fun r out => out = [] /\ (fst r = -1 \/ grown buf r)).
Proof.
  induction attr as [|next rest IH]; intros buf size Hsize; simpl.
  - apply post_ret. split; [reflexivity | ]. right. split; [exact Hsize | ].
    exists "". now rewrite append_nil_r.
  - destruct (attr_type next); [ | now apply IH].
    destruct (match attr_ns next with
              | Some v => ly_ctx_get_module_by_ns ctx v
              | None => None
              end) as [module|]; [ | now apply IH].
    apply post_alloc. intros [|].
    + rewrite (sprintf_at_end _ _ _ Hsize).
      eapply post_weaken; [apply IH; subst size; strlen_solve | ].
      intros r out [-> [Hr | [Hr Hp]]]; (split; [reflexivity | ]); [now left | right].
      split; [exact Hr | ].
      eapply starts_with_trans; [apply starts_with_app | exact Hp].
    + apply post_ret. split; [reflexivity | now left].
Qed.

Lemma add_node_post ctx elem m last_ns buf size :
  size = strlen buf + 1 ->
  post (filter_xpath_buf_add_node ctx elem m last_ns buf size)
       (fun r out => out = [] /\ (fst r = 0 \/ fst r = -1 \/ grown (buf ++ "/") r)).
Proof.
  intros Hsize. unfold filter_xpath_buf_add_node.
  destruct (resolve_module_name ctx elem m last_ns) as [q|].
  2:{ apply post_ret. split; [reflexivity | now left]. }
  apply post_alloc. intros [|]; simpl negb; cbv iota.
  - rewrite (sprintf_at_end _ _ _ Hsize).
    eapply post_weaken;
      [apply add_attrs_post; subst size; rewrite qualifier_len_strlen; strlen_solve | ].
    intros r out [-> [Hr | [Hr Hp]]]; (split; [reflexivity | ]); right; [now left | right].
    split; [exact Hr | ].
    eapply starts_with_trans; [ | exact Hp].
    exists (qualifier q ++ elem_name elem). now rewrite append_assoc.
  - apply post_ret. split; [reflexivity | ]. right. now left.
Qed.

Lemma add_content_post ctx elem m last_ns buf size :
  size = strlen buf + 1 ->
  post (filter_xpath_buf_add_content ctx elem m last_ns buf size)
       (fun r out => out = [] /\ (fst r = 0 \/ fst r = -1 \/ grown (buf ++ "[") r)).
Proof.
  intros Hsize. unfold filter_xpath_buf_add_content.
  destruct (resolve_module_name ctx elem m last_ns) as [q|].
  2:{ apply post_ret. split; [reflexivity | now left]. }
  apply post_alloc. intros [|]; simpl negb; cbv iota.
  2:{ apply post_ret. split; [reflexivity | ]. right. now left. }
  rewrite (sprintf_at_end _ _ _ Hsize).
  eapply post_bind_quiet;
    [apply add_attrs_post; subst size; rewrite qualifier_len_strlen; strlen_solve | ].
  intros [size1 buf1] Hr. cbn [fst snd] in Hr.
  destruct Hr as [-> | [Hsize1 Hp]].
  { apply post_ret. split; [reflexivity | ]. right. now left. }
  cbn [fst snd] in Hsize1, Hp. rewrite Hsize1, size_not_zero, size_not_negative.
  eapply post_bind_quiet; [apply get_content_post | ].
  intros [content|] _.
  2:{ apply post_null_dereference. split; [reflexivity | ]. right. now left. }
  apply post_alloc. intros [|]; simpl negb; cbv iota.
  2:{ apply post_ret. split; [reflexivity | ]. right. now left. }
  rewrite (sprintf_at_end _ _ _ eq_refl).
  apply post_ret. split; [reflexivity | ]. right. right. split.
  - cbn [fst snd]. strlen_solve.
  - cbn [snd]. eapply starts_with_trans; [ | apply starts_with_app].
    eapply starts_with_trans; [ | exact Hp].
    exists (qualifier q ++ elem_name elem). now rewrite append_assoc.
Qed.

Lemma starts_with_shorter (p t s : string) :
  starts_with (p ++ t) s -> starts_with p s.
Proof.
  intros [u ->]. exists (t ++ u). apply append_assoc.
Qed.

Lemma content_match_nodes_post ctx last_ns children :
  forall m buf size only, size = strlen buf + 1 ->
    post (content_match_nodes ctx last_ns children m buf size only)
         (fun scan out =>
            out = []
            /\ match scan with
               | Returned r => r = 0 \/ r = -1
               | Scanned b n _ => n = strlen b + 1 /\ starts_with buf b
               end).
Proof.
  induction children as [|child rest IH]; intros m buf size only Hsize; simpl.
  - apply post_ret. split; [reflexivity | ]. split; [exact Hsize | ].
    exists "". now rewrite append_nil_r.
  - destruct (content_match child); [ | now apply IH].
    eapply post_bind_quiet; [apply add_content_post; exact Hsize | ].
    intros [size1 buf1] Hr. cbn [fst snd] in Hr.
    destruct Hr as [-> | [-> | [Hsize1 Hp]]].
    + apply post_ret. split; [reflexivity | now left].
    + apply post_ret. split; [reflexivity | now right].
    + cbn [fst snd] in Hsize1, Hp. rewrite Hsize1, size_not_zero, size_not_negative.
      eapply post_weaken; [apply IH; reflexivity | ].
      intros [b n o | r] out [-> H]; (split; [reflexivity | ]); [ | exact H].
      destruct H as [Hn Hb]. split; [exact Hn | ].
      eapply starts_with_trans; [ | exact Hb].
      eapply starts_with_shorter. exact Hp.
Qed.

Lemma branch_child_post ctx last_ns walk child buf size :
  walk_post walk child -> size = strlen buf + 1 ->
  post (branch_child ctx last_ns walk child buf size)
       (fun r out => (r = 0 \/ r = -1) /\ Forall (starts_with (buf ++ "/")) out).
Proof.
  intros Hwalk Hsize. unfold branch_child. destruct (elem_child child).
  - eapply post_bind_quiet; [apply add_node_post; exact Hsize | ].
    intros [size1 buf1] Hr. cbn [fst snd] in Hr.
    destruct Hr as [-> | [-> | [Hsize1 Hp]]].
    + apply post_ret. split; [now left | constructor].
    + apply post_ret. split; [now right | constructor].
    + cbn [fst snd] in Hsize1, Hp. rewrite Hsize1, size_not_zero, size_not_negative.
      eapply post_bind; [apply post_add_filter | ].
      intros r out [[-> ->] | [-> ->]]; apply post_ret; rewrite app_nil_r.
      * split; [now left | now constructor].
      * split; [now right | constructor].
  - eapply post_bind; [apply Hwalk; exact Hsize | ].
    intros r out [_ Hout]. apply post_ret. rewrite app_nil_r. split; [now left | exact Hout].
Qed.

Lemma branch_post ctx last_ns walk children :
  Forall (walk_post walk) children ->
  forall buf size, size = strlen buf + 1 ->
    post (branch ctx last_ns walk children buf size)
         (fun r out => (r = 0 \/ r = -1) /\ Forall (starts_with (buf ++ "/")) out).
Proof.
  induction 1 as [|child rest Hchild _ IH]; intros buf size Hsize; cbn [branch].
  - apply post_ret. split; [now left | constructor].
  - eapply post_bind_quiet with (P := fun _ => True).
    { destruct rest; [apply post_ret; now split | ].
      eapply post_weaken; [apply post_malloc | ]. intros ok out ->. now split. }
    intros [|] _; simpl negb; cbv iota.
    2:{ apply post_ret. split; [now right | constructor]. }
    eapply post_bind; [apply branch_child_post; [exact Hchild | exact Hsize] | ].
    intros r out [[-> | ->] Hout].
    + eapply post_weaken; [apply IH; exact Hsize | ].
      intros r' out' [Hr' Hout']. split; [exact Hr' | ]. apply Forall_app. now split.
    + apply post_ret. rewrite app_nil_r. split; [now right | exact Hout].
Qed.

Lemma walker_post ctx last_ns elem :
  forall m buf size, size = strlen buf + 1 ->
    post (filter_xpath_buf_add ctx elem m last_ns buf size)
         (fun r out => (r = 0 \/ r = -1) /\ Forall (starts_with (buf ++ "/")) out).
Proof.
  induction elem as [elem IH] using lyxml_elem_forall_ind; intros m buf size Hsize.
  rewrite filter_xpath_buf_add_eq.
  eapply post_bind_quiet; [apply add_node_post; exact Hsize | ].
  intros [size1 buf1] Hr. cbn [fst snd] in Hr.
  destruct Hr as [-> | [-> | [Hsize1 Hp]]].
  { apply post_ret. split; [now left | constructor]. }
  { apply post_ret. split; [now right | constructor]. }
  cbn [fst snd] in Hsize1, Hp. rewrite Hsize1, size_not_zero, size_not_negative.
  eapply post_bind_quiet; [apply content_match_nodes_post; reflexivity | ].
  intros [buf2 size2 [|] | r] Hscan.
  - destruct Hscan as [Hsize2 Hp2].
    eapply post_bind; [apply post_add_filter | ].
    intros r out [[-> ->] | [-> ->]]; apply post_ret; rewrite app_nil_r.
    + split; [now left | ]. constructor; [ | constructor].
      eapply starts_with_trans; [exact Hp | exact Hp2].
    + split; [now right | constructor].
  - destruct Hscan as [Hsize2 Hp2].
    eapply post_weaken.
    { apply branch_post; [ | exact Hsize2].
      eapply Forall_impl; [ | exact IH]. intros child H b n Hb. now apply H. }
    intros r out [Hr Hout]. split; [exact Hr | ].
    eapply Forall_impl; [ | exact Hout]. intros x Hx.
    eapply starts_with_trans; [exact Hp | ].
    eapply starts_with_trans; [exact Hp2 | ].
    eapply starts_with_shorter. exact Hx.
  - apply post_ret. split; [exact Hscan | constructor].
Qed.

Lemma add_top_content_post ctx elem m :
  post (filter_xpath_buf_add_top_content ctx elem m)
       (fun r out => (r = 0 \/ r = -1) /\ Forall (starts_with "/") out).
Proof.
  unfold filter_xpath_buf_add_top_content.
  eapply post_bind_quiet; [apply get_content_post | ].
  intros [content|] _.
  2:{ apply post_null_dereference. split; [now right | constructor]. }
  apply post_alloc. intros [|]; simpl negb; cbv iota.
  2:{ apply post_ret. split; [now right | constructor]. }
  eapply post_bind_quiet; [apply add_attrs_post; strlen_solve | ].
  intros [size1 buf1] Hr. cbn [fst snd] in Hr.
  destruct Hr as [-> | [Hsize1 Hp]].
  { apply post_ret. split; [now right | constructor]. }
  cbn [fst snd] in Hsize1, Hp. rewrite Hsize1, size_not_zero, size_not_negative.
  eapply post_bind; [apply post_add_filter | ].
  intros r out [[-> ->] | [-> ->]]; apply post_ret; rewrite app_nil_r.
  - split; [now left | ]. constructor; [ | constructor].
    eapply starts_with_trans; [ | exact Hp]. eexists. reflexivity.
  - split; [now right | constructor].
Qed.

Lemma top_level_branch_post ctx next module :
  post (top_level_branch ctx next module)
       (fun r out => (r = 0 \/ r = -1) /\ Forall (starts_with "/") out).
Proof.
  unfold top_level_branch. destruct (content_match next).
  - apply add_top_content_post.
  - apply (walker_post ctx (mod_ns module) next (Some (mod_name module)) "" 1 eq_refl).
Qed.

Lemma for_modules_post ctx next modules :
  post (for_modules ctx next modules)
       (fun r out => (r = 0 \/ r = -1) /\ Forall (starts_with "/") out).
Proof.
  induction modules as [|module rest IH]; cbn [for_modules].
  - apply post_ret. split; [now left | constructor].
  - eapply post_bind; [apply top_level_branch_post | ].
    intros r out [[-> | ->] Hout].
    + eapply post_weaken; [exact IH | ].
      intros r' out' [Hr' Hout']. split; [exact Hr' | ]. apply Forall_app. now split.
    + apply post_ret. rewrite app_nil_r. split; [now right | exact Hout].
Qed.

Lemma modules_by_name_post name iter :
  forall modules,
    post (modules_by_name name iter modules) (fun _ out => out = []).
Proof.
  induction iter as [|module rest IH]; intros modules; cbn [modules_by_name].
  - now apply post_ret.
  - destruct (exposes name module); [ | apply IH].
    apply post_alloc. intros [|]; [apply IH | now apply post_ret].
Qed.

Lemma compiled_step (s s1 : state) (out : list string) (r : Z * state) :
  filters s1 = (filters s ++ out)%list -> Forall (starts_with "/") out ->
  compiled s1 r -> compiled s r.
Proof.
  intros Hs1 Hout [[Hr (out' & Hf & Hout')] | [Hr Hf]]; [left | now right].
  split; [exact Hr | ]. exists (out ++ out')%list. split.
  - now rewrite Hf, Hs1, app_assoc.
  - apply Forall_app. now split.
Qed.

Lemma build_compiled ctx elem :
  forall s, compiled s (op_filter_build_xpath_from_subtree ctx elem s).
Proof.
  induction elem as [|next rest IH]; intros s; cbn [op_filter_build_xpath_from_subtree].
  { left. split; [reflexivity | ]. exists []. split; [now rewrite app_nil_r | constructor]. }
  assert (Herror : forall t, compiled s (build_error t)) by (intros t; now right).
  assert (Hfor : forall modules t, filters t = filters s ->
             compiled s ((r <- for_modules ctx next modules ;;
                          if r =? 0 then op_filter_build_xpath_from_subtree ctx rest
                          else build_error) t)).
  { intros modules t Ht. unfold bind.
    destruct (for_modules_post ctx next modules t) as (out & Hout & [Hr | Hr] & Hall);
      destruct (for_modules ctx next modules t) as [r t1]; cbn [fst snd] in *; subst r.
    - eapply compiled_step; [ | exact Hall | apply IH]. now rewrite Hout, Ht.
    - apply Herror. }
  destruct (match elem_ns next with
            | Some v => if String.eqb v base_ns then None else Some v
            | None => None
            end) as [v|].
  - unfold bind at 1.
    destruct (post_malloc s) as (out & Hout & ->). rewrite app_nil_r in Hout.
    destruct (malloc s) as [[|] s1]; cbn [fst snd] in *; simpl negb; cbv iota.
    + destruct (ly_ctx_get_module_by_ns ctx v) as [module|].
      * now apply Hfor.
      * eapply compiled_step; [ | constructor | apply IH]. now rewrite Hout, app_nil_r.
    + apply Herror.
  - unfold bind at 1.
    destruct (modules_by_name_post (elem_name next) (ly_ctx_get_module_iter ctx) [] s)
      as (out & Hout & ->). rewrite app_nil_r in Hout.
    destruct (modules_by_name (elem_name next) (ly_ctx_get_module_iter ctx) [] s)
      as [[modules|] s1]; cbn [fst snd] in *.
    + now apply Hfor.
    + apply Herror.
Qed.

(** ** A dereferenced NULL stays dereferenced *)

Lemma sticky_ret {A : Type} (a : A) : sticky (ret a).
Proof. intros s H. exact H. Qed.

Lemma sticky_bind {A B : Type} (m : M A) (f : A -> M B) :
  sticky m -> (forall a, sticky (f a)) -> sticky (bind m f).
Proof.
  intros Hm Hf s H. unfold bind. specialize (Hm s H).
  destruct (m s) as [a s1]. now apply Hf.
Qed.

Lemma malloc_keeps_flag (s : state) : null_deref (snd (malloc s)) = null_deref s.
Proof. unfold malloc. now destruct (allocs s). Qed.

Lemma sticky_malloc : sticky malloc.
Proof. intros s H. now rewrite malloc_keeps_flag. Qed.

Lemma sticky_null_dereference {A : Type} (a : A) : sticky (null_dereference a).
Proof. intros s _. reflexivity. Qed.

Lemma sticky_push (a : Z) (x : string) :
  sticky (fun s => (a, Build_state (allocs s) (filters s ++ [x]) (null_deref s))).
Proof. intros s H. exact H. Qed.

Lemma sticky_build_error : sticky build_error.
Proof. intros s H. exact H. Qed.

Create HintDb sticky.

#[local] Hint Resolve sticky_malloc sticky_push sticky_build_error : sticky.

Ltac sticky_step :=
  match goal with
  | |- sticky (ret _) => apply sticky_ret
  | |- sticky realloc => apply sticky_malloc
  | |- sticky strdup => apply sticky_malloc
  | |- sticky (null_dereference _) => apply sticky_null_dereference
  | |- sticky (bind _ _) => apply sticky_bind; [ | intros ]
  | |- sticky (if ?b then _ else _) => destruct b
  | |- sticky (match ?x with _ => _ end) => destruct x
  | |- sticky _ => solve [auto with sticky]
  end.

Ltac sticky_auto := repeat sticky_step.

Lemma sticky_add_filter (x : string) : sticky (op_filter_xpath_add_filter x).
Proof. unfold op_filter_xpath_add_filter. sticky_auto. Qed.

Lemma sticky_get_content ctx elem : sticky (filter_xpath_buf_get_content ctx elem).
Proof. unfold filter_xpath_buf_get_content. cbv zeta. sticky_auto. Qed.

#[local] Hint Resolve sticky_add_filter sticky_get_content : sticky.

Lemma sticky_add_attrs ctx attr :
  forall buf size, sticky (filter_xpath_buf_add_attrs ctx attr buf size).
Proof.
  induction attr as [|next rest IH]; intros buf size; simpl; sticky_auto.
Qed.

#[local] Hint Resolve sticky_add_attrs : sticky.

Lemma sticky_add_top_content ctx elem m :
  sticky (filter_xpath_buf_add_top_content ctx elem m).
Proof. unfold filter_xpath_buf_add_top_content. sticky_auto. Qed.

Lemma sticky_add_content ctx elem m last_ns buf size :
  sticky (filter_xpath_buf_add_content ctx elem m last_ns buf size).
Proof. unfold filter_xpath_buf_add_content. sticky_auto. Qed.

Lemma sticky_add_node ctx elem m last_ns buf size :
  sticky (filter_xpath_buf_add_node ctx elem m last_ns buf size).
Proof. unfold filter_xpath_buf_add_node. sticky_auto. Qed.

#[local] Hint Resolve sticky_add_top_content sticky_add_content sticky_add_node : sticky.

Lemma sticky_content_match_nodes ctx last_ns children :
  forall m buf size only,
    sticky (content_match_nodes ctx last_ns children m buf size only).
Proof.
  induction children as [|child rest IH]; intros m buf size only; simpl; sticky_auto.
Qed.

#[local] Hint Resolve sticky_content_match_nodes : sticky.

Lemma sticky_branch ctx last_ns walk children :
  Forall (fun child => forall buf size, sticky (walk child buf size)) children ->
  forall buf size, sticky (branch ctx last_ns walk children buf size).
Proof.
  induction 1 as [|child rest Hchild _ IH]; intros buf size; simpl.
  - sticky_auto.
  - apply sticky_bind; [destruct rest; sticky_auto | intros ok].
    destruct ok; simpl; [ | sticky_auto].
    apply sticky_bind; [ | intros r; sticky_auto].
    unfold branch_child. destruct (elem_child child); sticky_auto.
Qed.

Lemma sticky_walker ctx last_ns elem :
  forall m buf size, sticky (filter_xpath_buf_add ctx elem m last_ns buf size).
Proof.
  induction elem as [elem IH] using lyxml_elem_forall_ind; intros m buf size.
  rewrite filter_xpath_buf_add_eq.
  apply sticky_bind; [sticky_auto | intros [size1 buf1]].
  destruct (size1 =? 0); [sticky_auto | ].
  destruct (size1 <? 1); [sticky_auto | ].
  apply sticky_bind; [sticky_auto | intros [buf2 size2 [|] | r]];
    try solve [sticky_auto].
  apply sticky_branch.
  eapply Forall_impl; [ | exact IH]. intros child H buf' size'. apply H.
Qed.

#[local] Hint Resolve sticky_walker : sticky.

Lemma sticky_modules_by_name name iter :
  forall modules, sticky (modules_by_name name iter modules).
Proof.
  induction iter as [|module rest IH]; intros modules; simpl; sticky_auto.
Qed.

Lemma sticky_top_level_branch ctx next module :
  sticky (top_level_branch ctx next module).
Proof. unfold top_level_branch. sticky_auto. Qed.

#[local] Hint Resolve sticky_modules_by_name sticky_top_level_branch : sticky.

Lemma sticky_for_modules ctx next modules : sticky (for_modules ctx next modules).
Proof.
  induction modules as [|module rest IH]; simpl; sticky_auto.
Qed.

#[local] Hint Resolve sticky_for_modules : sticky.

Lemma sticky_build ctx elem : sticky (op_filter_build_xpath_from_subtree ctx elem).
Proof.
  induction elem as [|next rest IH]; simpl; sticky_auto.
Qed.

#[local] Hint Resolve sticky_build : sticky.

Lemma sticky_create ctx filter_node : sticky (op_filter_create ctx filter_node).
Proof.
  unfold op_filter_create, subtree_filter, xpath_filter. sticky_auto.
Qed.

(** The attribute and the node builder dereference nothing. *)
Lemma add_attrs_keeps_flag ctx attr :
  forall buf size s,
    null_deref (snd (filter_xpath_buf_add_attrs ctx attr buf size s)) = null_deref s.
Proof.
  induction attr as [|next rest IH]; intros buf size s; simpl; [reflexivity | ].
  destruct (attr_type next); [ | apply IH].
  destruct (match attr_ns next with
            | Some v => ly_ctx_get_module_by_ns ctx v
            | None => None
            end) as [module|]; [ | apply IH].
  unfold bind, realloc. pose proof (malloc_keeps_flag s) as Hm.
  destruct (malloc s) as [[|] s1]; cbn [snd] in Hm; [now rewrite IH | exact Hm].
Qed.

Lemma add_node_keeps_flag ctx elem m last_ns buf size s :
  null_deref (snd (filter_xpath_buf_add_node ctx elem m last_ns buf size s)) = null_deref s.
Proof.
  unfold filter_xpath_buf_add_node.
  destruct (resolve_module_name ctx elem m last_ns) as [q|]; [ | reflexivity].
  unfold bind, realloc. pose proof (malloc_keeps_flag s) as Hm.
  destruct (malloc s) as [[|] s1]; cbn [snd negb] in *; cbv beta iota;
    [now rewrite add_attrs_keeps_flag | exact Hm].
Qed.

Lemma add_node_zero ctx elem m last_ns buf size s :
  size = strlen buf + 1 ->
  (fst (fst (filter_xpath_buf_add_node ctx elem m last_ns buf size s)) = 0
   <-> resolve_module_name ctx elem m last_ns = None).
Proof.
  intros Hsize. unfold filter_xpath_buf_add_node.
  destruct (resolve_module_name ctx elem m last_ns) as [q|]; [ | now split].
  split; [ | discriminate]. unfold bind.
  destruct (realloc s) as [[|] s1]; cbn [negb]; cbv beta iota; [ | cbn; discriminate].
  rewrite (sprintf_at_end _ _ _ Hsize).
  match goal with
  | |- context [filter_xpath_buf_add_attrs ctx ?a ?b ?n ?t] =>
      destruct (add_attrs_post ctx a b n
                  ltac:(subst size; rewrite qualifier_len_strlen; strlen_solve) t)
        as (out & _ & _ & [Hr | [Hr _]]);
      destruct (filter_xpath_buf_add_attrs ctx a b n t) as [[r b'] t']
  end; cbn [fst snd] in *; intros E; subst r.
  - discriminate.
  - pose proof (strlen_nonneg b'). lia.
Qed.

Lemma add_content_zero ctx elem m last_ns buf size s :
  size = strlen buf + 1 ->
  (fst (fst (filter_xpath_buf_add_content ctx elem m last_ns buf size s)) = 0
   <-> resolve_module_name ctx elem m last_ns = None).
Proof.
  intros Hsize. unfold filter_xpath_buf_add_content.
  destruct (resolve_module_name ctx elem m last_ns) as [q|]; [ | now split].
  split; [ | discriminate]. unfold bind.
  destruct (realloc s) as [[|] s1]; cbn [negb]; cbv beta iota; [ | cbn; discriminate].
  rewrite (sprintf_at_end _ _ _ Hsize).
  match goal with
  | |- context [filter_xpath_buf_add_attrs ctx ?a ?b ?n ?t] =>
      destruct (add_attrs_post ctx a b n
                  ltac:(subst size; rewrite qualifier_len_strlen; strlen_solve) t)
        as (out & _ & _ & [Hr | [Hr _]]);
      destruct (filter_xpath_buf_add_attrs ctx a b n t) as [[r b'] t']
  end; cbn [fst snd] in *; subst r.
  - discriminate.
  - rewrite size_not_zero, size_not_negative.
    destruct (filter_xpath_buf_get_content ctx elem t') as [[content|] t1];
      [ | cbn; discriminate].
    destruct (realloc t1) as [[|] t'']; cbn [negb]; cbv beta iota; cbn [fst ret].
    + intros E. pose proof (strlen_nonneg b').
      pose proof (strlen_nonneg content). lia.
    + discriminate.
Qed.

(** The three builders keep the size of the buffer, under every oracle.  On a
    buffer whose [size] is the length of its text and the NUL, the attribute
    and the node builder return -1, or 0 (the node builder, and then exactly
    for a namespace that is not resolved), or a size that is again the length
    of the text and the NUL; the text then starts with the old one, a [/]
    after it for the node builder.  They touch neither the Filter List nor a
    NULL pointer, and the attribute builder never returns 0.  The content
    builder, called on a content match node as the walker calls it, hands the
    result of [filter_xpath_buf_get_content] to [strlen] unchecked: it never
    dereferences NULL when no allocation fails, and in every run in which it
    does not, it returns 0 (exactly for a namespace that is not resolved), -1,
    or the size of a text that starts with the old one and a [[], and leaves
    the Filter List alone. *)
Theorem builders_keep_size (ctx : ly_ctx) (elem : lyxml_elem)
    (elem_module_name : option string) (last_ns buf : string) (size : Z) (s : state) :
  size = strlen buf + 1 ->
  (let '(r, b, s') := filter_xpath_buf_add_attrs ctx (elem_attr elem) buf size s in
   filters s' = filters s
   /\ null_deref s' = null_deref s
   /\ (r = -1 \/ (r = strlen b + 1 /\ starts_with buf b)))
  /\ (let '(r, b, s') :=
        filter_xpath_buf_add_node ctx elem elem_module_name last_ns buf size s in
      filters s' = filters s
      /\ null_deref s' = null_deref s
      /\ (r = 0 \/ r = -1 \/ (r = strlen b + 1 /\ starts_with (buf ++ "/") b))
      /\ (r = 0 <-> resolve_module_name ctx elem elem_module_name last_ns = None))
  /\ (content_match elem = true ->
      let '(r, b, s') :=
        filter_xpath_buf_add_content ctx elem elem_module_name last_ns buf size s in
      (null_deref s = true -> null_deref s' = true)
      /\ (no_failure s -> null_deref s' = false)
      /\ (null_deref s' = false ->
          filters s' = filters s
          /\ (r = 0 \/ r = -1 \/ (r = strlen b + 1 /\ starts_with (buf ++ "[") b))
          /\ (r = 0 <-> resolve_module_name ctx elem elem_module_name last_ns = None))).
Proof.
  intros Hsize. split; [ | split].
  - pose proof (add_attrs_keeps_flag ctx (elem_attr elem) buf size s) as Hflag.
    destruct (add_attrs_post ctx (elem_attr elem) buf size Hsize s) as (out & Hf & -> & H).
    destruct (filter_xpath_buf_add_attrs ctx (elem_attr elem) buf size s) as [[r b] s'].
    cbn [fst snd] in *. rewrite app_nil_r in Hf.
    split; [exact Hf | split; [exact Hflag | exact H]].
  - pose proof (add_node_zero ctx elem elem_module_name last_ns buf size s Hsize) as Hz.
    pose proof (add_node_keeps_flag ctx elem elem_module_name last_ns buf size s) as Hflag.
    destruct (add_node_post ctx elem elem_module_name last_ns buf size Hsize s)
      as (out & Hf & -> & H).
    destruct (filter_xpath_buf_add_node ctx elem elem_module_name last_ns buf size s)
      as [[r b] s'].
    cbn [fst snd] in *. rewrite app_nil_r in Hf.
    split; [exact Hf | split; [exact Hflag | split; [exact H | exact Hz]]].
  - intros _.
    pose proof (add_content_zero ctx elem elem_module_name last_ns buf size s Hsize) as Hz.
    pose proof (sticky_add_content ctx elem elem_module_name last_ns buf size s) as Hsticky.
    pose proof (oblivious_no_failure _ s
                  (oblivious_add_content ctx elem elem_module_name last_ns buf size))
      as Hsafe.
    destruct (add_content_post ctx elem elem_module_name last_ns buf size Hsize s)
      as (out & Hf & -> & H).
    destruct (filter_xpath_buf_add_content ctx elem elem_module_name last_ns buf size s)
      as [[r b] s'].
    cbn [fst snd] in *. rewrite app_nil_r in Hf.
    split; [exact Hsticky | split; [intros Hs; apply (Hsafe Hs) | intros _]].
    split; [exact Hf | split; [exact H | exact Hz]].
Qed.

Lemma builders_keep_size_witness :
  14 = strlen "/m:a[m:b='x']" + 1
  /\ filter_xpath_buf_add_node Examples.ctx0
       (mk_elem "c" (Some "urn:n") [mk_attr LYXML_ATTR_STD "k" "1" (Some "urn:m")] None [])
       None "urn:m" "/m:a[m:b='x']" 14 (init [])
     = (28, "/m:a[m:b='x']/n:c[@m:k='1']", init []).
Proof.
  assert (H : 14 = strlen "/m:a[m:b='x']" + 1) by reflexivity.
  split; [exact H | ].
  destruct (builders_keep_size Examples.ctx0
              (mk_elem "c" (Some "urn:n") [mk_attr LYXML_ATTR_STD "k" "1" (Some "urn:m")]
                       None [])
              None "urn:m" "/m:a[m:b='x']" 14 (init []) H) as (_ & Hnode & _).
  destruct (filter_xpath_buf_add_node Examples.ctx0
              (mk_elem "c" (Some "urn:n") [mk_attr LYXML_ATTR_STD "k" "1" (Some "urn:m")]
                       None [])
              None "urn:m" "/m:a[m:b='x']" 14 (init [])) as [[r b] s'] eqn:E.
  destruct Hnode as (_ & _ & _).
  vm_compute in E. exact (eq_sym E).
Defined.

(** The walker under every oracle.  It never dereferences NULL when no
    allocation fails.  In every run in which it does not dereference the NULL
    of the unchecked [strdup], it returns 0 or -1, it only appends to the
    Filter List, and every string it appends starts with the buffer it was
    given and the [/] of its own step. *)
Theorem walker_only_appends (ctx : ly_ctx) (elem : lyxml_elem)
    (elem_module_name : option string) (last_ns buf : string) (size : Z) (s : state) :
  size = strlen buf + 1 ->
  let r := filter_xpath_buf_add ctx elem elem_module_name last_ns buf size s in
  (null_deref s = true -> null_deref (snd r) = true)
  /\ (no_failure s -> null_deref (snd r) = false)
  /\ (null_deref (snd r) = false ->
      (fst r = 0 \/ fst r = -1)
      /\ exists out,
           filters (snd r) = (filters s ++ out)%list
           /\ Forall (starts_with (buf ++ "/")) out).
Proof.
  intros Hsize r.
  split; [apply sticky_walker | split].
  - intros Hs. apply (oblivious_no_failure _ s
                        (oblivious_walker ctx last_ns elem elem_module_name buf size) Hs).
  - intros _.
    destruct (walker_post ctx last_ns elem elem_module_name buf size Hsize s)
      as (out & Hf & Hr & Hout).
    split; [exact Hr | ]. now exists out.
Qed.

Lemma walker_only_appends_witness :
  1 = strlen "" + 1
  /\ null_deref (snd (filter_xpath_buf_add Examples.ctx0 Examples.interfaces_filter
                        (Some "ietf-interfaces") Examples.if_ns "" 1
                        (mk_state [true; true; false] ["/x"]))) = false
  /\ (fst (filter_xpath_buf_add Examples.ctx0 Examples.interfaces_filter
             (Some "ietf-interfaces") Examples.if_ns "" 1
             (mk_state [true; true; false] ["/x"])) = 0
      \/ fst (filter_xpath_buf_add Examples.ctx0 Examples.interfaces_filter
                (Some "ietf-interfaces") Examples.if_ns "" 1
                (mk_state [true; true; false] ["/x"])) = -1)
  /\ exists out,
       filters (snd (filter_xpath_buf_add Examples.ctx0 Examples.interfaces_filter
                       (Some "ietf-interfaces") Examples.if_ns "" 1
                       (mk_state [true; true; false] ["/x"])))
       = (filters (mk_state [true; true; false] ["/x"]) ++ out)%list
       /\ Forall (starts_with ("" ++ "/")) out.
Proof.
  assert (H : 1 = strlen "" + 1) by reflexivity.
  assert (Hflag : null_deref (snd (filter_xpath_buf_add Examples.ctx0
                                     Examples.interfaces_filter
                                     (Some "ietf-interfaces") Examples.if_ns "" 1
                                     (mk_state [true; true; false] ["/x"]))) = false)
    by reflexivity.
  split; [exact H | split; [exact Hflag | ]].
  destruct (walker_only_appends Examples.ctx0 Examples.interfaces_filter
              (Some "ietf-interfaces") Examples.if_ns "" 1
              (mk_state [true; true; false] ["/x"]) H) as (_ & _ & Hrun).
  exact (Hrun Hflag).
Defined.

(** The compilation of a filter under every oracle.  It never dereferences
    NULL when no allocation fails.  In every run in which it does not
    dereference the NULL of the unchecked [strdup], either it returns 0, the
    Filter List is the old one followed by the new strings, and every new
    string is an absolute path (it starts with [/]); or it returns -1 and the
    whole Filter List, old strings included, has been released. *)
Theorem build_all_or_nothing (ctx : ly_ctx) (elem : list lyxml_elem) (s : state) :
  let r := op_filter_build_xpath_from_subtree ctx elem s in
  (null_deref s = true -> null_deref (snd r) = true)
  /\ (no_failure s -> null_deref (snd r) = false)
  /\ (null_deref (snd r) = false ->
      (fst r = 0
       /\ exists out, filters (snd r) = (filters s ++ out)%list
                      /\ Forall (starts_with "/") out)
      \/ (fst r = -1 /\ filters (snd r) = [])).
Proof.
  intros r. split; [apply sticky_build | split].
  - intros Hs. apply (oblivious_no_failure _ s (oblivious_build ctx elem) Hs).
  - intros _. exact (build_compiled ctx elem s).
Qed.

Lemma build_all_or_nothing_witness :
  null_deref (snd (op_filter_build_xpath_from_subtree Examples.ctx0
                     [mk_elem "a" (Some "urn:m") [] None []; Examples.interfaces_filter]
                     (mk_state [true; true; true; true; false] ["/old"]))) = false
  /\ fst (op_filter_build_xpath_from_subtree Examples.ctx0
            [mk_elem "a" (Some "urn:m") [] None []; Examples.interfaces_filter]
            (mk_state [true; true; true; true; false] ["/old"])) = -1
  /\ filters (snd (op_filter_build_xpath_from_subtree Examples.ctx0
                     [mk_elem "a" (Some "urn:m") [] None []; Examples.interfaces_filter]
                     (mk_state [true; true; true; true; false] ["/old"]))) = [].
Proof.
  assert (Hflag : null_deref
                    (snd (op_filter_build_xpath_from_subtree Examples.ctx0
                            [mk_elem "a" (Some "urn:m") [] None [];
                             Examples.interfaces_filter]
                            (mk_state [true; true; true; true; false] ["/old"]))) = false)
    by reflexivity.
  split; [exact Hflag | ].
  destruct (build_all_or_nothing Examples.ctx0
              [mk_elem "a" (Some "urn:m") [] None []; Examples.interfaces_filter]
              (mk_state [true; true; true; true; false] ["/old"])) as (_ & _ & Hrun).
  destruct (Hrun Hflag) as [[Hr _] | Hr]; [ | exact Hr].
  vm_compute in Hr. discriminate Hr.
Defined.

(** [op_filter_create] under every oracle.  It never dereferences NULL when
    no allocation fails.  In every run in which it does not dereference the
    NULL of the unchecked [strdup], it returns 0 or -1: with 0 the Filter List
    is the old one followed by what the request added; with -1 it is the old
    one (nothing was added) or it has been released. *)
Theorem create_outcome (ctx : ly_ctx) (filter_node : lyd_node) (s : state) :
  let r := op_filter_create ctx filter_node s in
  (null_deref s = true -> null_deref (snd r) = true)
  /\ (no_failure s -> null_deref (snd r) = false)
  /\ (null_deref (snd r) = false ->
      (fst r = 0 /\ exists out, filters (snd r) = (filters s ++ out)%list)
      \/ (fst r = -1 /\ (filters (snd r) = filters s \/ filters (snd r) = []))).
Proof.
  intros r0. split; [apply sticky_create | split].
  { intros Hs. apply (oblivious_no_failure _ s (oblivious_create ctx filter_node) Hs). }
  intros _. subst r0.
  assert (Hsame : forall r, (r = 0 \/ r = -1) ->
            (fst (r, s) = 0 /\ exists out, filters (snd (r, s)) = (filters s ++ out)%list)
            \/ (fst (r, s) = -1
                /\ (filters (snd (r, s)) = filters s \/ filters (snd (r, s)) = []))).
  { intros r [-> | ->]; [left | right]; cbn [fst snd].
    - split; [reflexivity | ]. exists []. now rewrite app_nil_r.
    - split; [reflexivity | now left]. }
  assert (Hbuild : forall elem,
            let r := (r <- op_filter_build_xpath_from_subtree ctx elem ;;
                      if r =? 0 then ret 0 else ret (-1)) s in
            (fst r = 0 /\ exists out, filters (snd r) = (filters s ++ out)%list)
            \/ (fst r = -1 /\ (filters (snd r) = filters s \/ filters (snd r) = []))).
  { intros elem. unfold bind.
    destruct (build_compiled ctx elem s) as [[Hr (out & Hf & _)] | [Hr Hf]];
      destruct (op_filter_build_xpath_from_subtree ctx elem s) as [r s'];
      cbn [fst snd] in *; subst r.
    - left. split; [reflexivity | ]. now exists out.
    - right. split; [reflexivity | now right]. }
  unfold op_filter_create.
  destruct (scan_type (node_attr filter_node) (node_attr filter_node)) as [|[attr|]].
  - apply Hsame. now right.
  - unfold xpath_filter. destruct (value_str attr) as [[|c path]|];
      try (apply Hsame; now left).
    unfold bind, strdup.
    destruct (post_malloc s) as (out & Hout & ->). rewrite app_nil_r in Hout.
    destruct (malloc s) as [[|] s1]; cbn [fst snd] in *; cbn [negb]; cbv beta iota.
    + destruct (post_add_filter (String c path) s1) as (out & Hf & [[Hr ->] | [Hr ->]]);
        destruct (op_filter_xpath_add_filter (String c path) s1) as [r s2];
        cbn [fst snd] in *; subst r; [left | right]; (split; [reflexivity | ]).
      * cbn. exists [String c path]. now rewrite Hf, Hout.
      * cbn. left. now rewrite Hf, app_nil_r.
    + right. split; [reflexivity | now left].
  - unfold subtree_filter.
    destruct (value_null (value filter_node)
              || ((valuetype_code (value_type (value filter_node))
                   <=? valuetype_code LYD_ANYDATA_STRING)
                  && value_str_empty (value filter_node)))%bool.
    { apply Hsame. now left. }
    destruct (value filter_node) as [const [str|] | [|e xml] | t null];
      try (apply Hsame; now right).
    + destruct (lyxml_parse_mem ctx str); [apply Hsame; now right | apply Hbuild].
    + apply Hbuild.
Qed.

Lemma create_outcome_witness :
  null_deref (snd (op_filter_create Examples.ctx0 Examples.plain_request
                     (mk_state [true; true; true; false] ["/old"]))) = false
  /\ fst (op_filter_create Examples.ctx0 Examples.plain_request
            (mk_state [true; true; true; false] ["/old"])) = 0
  /\ exists out,
       filters (snd (op_filter_create Examples.ctx0 Examples.plain_request
                       (mk_state [true; true; true; false] ["/old"])))
       = (filters (mk_state [true; true; true; false] ["/old"]) ++ out)%list.
Proof.
  assert (Hflag : null_deref
                    (snd (op_filter_create Examples.ctx0 Examples.plain_request
                            (mk_state [true; true; true; false] ["/old"]))) = false)
    by reflexivity.
  split; [exact Hflag | ].
  destruct (create_outcome Examples.ctx0 Examples.plain_request
              (mk_state [true; true; true; false] ["/old"])) as (_ & _ & Hrun).
  destruct (Hrun Hflag) as [Hr | [Hr _]]; [exact Hr | ].
  vm_compute in Hr. discriminate Hr.
Defined.

(** The unchecked [strdup].  When [ly_path_xml2json] does not convert the
    trimmed text of a content match node and the [strdup] of
    [filter_xpath_buf_get_content] fails, both callers dereference its NULL:
    the top-level content builder when its first allocation fails, the
    content builder of the walker (for an element without attributes) when
    the buffer has grown and the next allocation fails. *)
Theorem unchecked_strdup_null_dereference (ctx : ly_ctx) (elem : lyxml_elem)
    (rest : list bool) (s : state) :
  content_match elem = true ->
  ly_path_xml2json ctx (trimmed_text elem) elem = None ->
  (forall m, allocs s = false :: rest ->
     null_deref (snd (filter_xpath_buf_add_top_content ctx elem m s)) = true)
  /\ (forall m q last_ns buf size,
        resolve_module_name ctx elem m last_ns = Some q ->
        elem_attr elem = [] ->
        size = strlen buf + 1 ->
        allocs s = true :: false :: rest ->
        null_deref (snd (filter_xpath_buf_add_content ctx elem m last_ns buf size s)) = true).
Proof.
  intros _ Hjson. split.
  - intros m Hallocs.
    unfold filter_xpath_buf_add_top_content, filter_xpath_buf_get_content.
    cbv zeta. fold (trimmed_text elem). rewrite Hjson.
    unfold bind, strdup, malloc. rewrite Hallocs. reflexivity.
  - intros m q last_ns buf size Hresolve Hattr Hsize Hallocs.
    unfold filter_xpath_buf_add_content, filter_xpath_buf_get_content.
    rewrite Hresolve, Hattr. cbv zeta. fold (trimmed_text elem). rewrite Hjson.
    unfold bind, realloc, strdup, malloc. rewrite Hallocs.
    cbn [negb filter_xpath_buf_add_attrs ret allocs].
    replace (size + 1 + qualifier_len q + strlen (elem_name elem) =? 0) with false.
    2:{ symmetry. apply Z.eqb_neq. subst size. rewrite qualifier_len_strlen.
        pose proof (strlen_nonneg buf). pose proof (strlen_nonneg (qualifier q)).
        pose proof (strlen_nonneg (elem_name elem)). lia. }
    replace (size + 1 + qualifier_len q + strlen (elem_name elem) <? 1) with false.
    2:{ symmetry. apply Z.ltb_ge. subst size. rewrite qualifier_len_strlen.
        pose proof (strlen_nonneg buf). pose proof (strlen_nonneg (qualifier q)).
        pose proof (strlen_nonneg (elem_name elem)). lia. }
    reflexivity.
Qed.

Lemma unchecked_strdup_null_dereference_witness :
  content_match (mk_elem "top" (Some "urn:m") [] (Some "x") []) = true
  /\ ly_path_xml2json Examples.ctx0
       (trimmed_text (mk_elem "top" (Some "urn:m") [] (Some "x") []))
       (mk_elem "top" (Some "urn:m") [] (Some "x") []) = None
  /\ allocs (init [false]) = [false]
  /\ null_deref (snd (filter_xpath_buf_add_top_content Examples.ctx0
                        (mk_elem "top" (Some "urn:m") [] (Some "x") []) "m"
                        (init [false]))) = true.
Proof.
  split; [reflexivity | split; [reflexivity | split; [reflexivity | ]]].
  destruct (unchecked_strdup_null_dereference Examples.ctx0
              (mk_elem "top" (Some "urn:m") [] (Some "x") []) [] (init [false])
              eq_refl eq_refl)
    as [Htop _].
  exact (Htop "m" eq_refl).
Defined.

(** ** What the builders print, under any oracle without failure *)

(** Without allocation failure the node builder appends to the buffer the
    step of its element, [/module:name] or [/name], and right after it one
    predicate [[@module:name='value']] for every standard attribute whose
    namespace resolves, in the order of the attributes; the other attributes
    leave no trace. *)
Theorem node_step_text (ctx : ly_ctx) (elem : lyxml_elem)
    (elem_module_name q : option string) (last_ns buf : string) (size : Z) (s : state) :
  size = strlen buf + 1 ->
  no_failure s ->
  resolve_module_name ctx elem elem_module_name last_ns = Some q ->
  let '(r, b, s') :=
    filter_xpath_buf_add_node ctx elem elem_module_name last_ns buf size s in
  b = buf ++ "/" ++ qualifier q ++ elem_name elem ++ attr_predicates ctx (elem_attr elem)
  /\ r = strlen b + 1
  /\ filters s' = filters s.
Proof.
  intros Hsize Hs Hresolve.
  set (b0 := buf ++ "/" ++ qualifier q ++ elem_name elem
             ++ attr_predicates ctx (elem_attr elem)).
  assert (Hruns : runs (filter_xpath_buf_add_node ctx elem elem_module_name last_ns buf size)
                       (strlen b0 + 1, b0) []).
  { unfold filter_xpath_buf_add_node. rewrite Hresolve.
    rewrite (sprintf_at_end _ _ _ Hsize).
    apply runs_bind_quiet with true; [apply runs_malloc | ].
    match goal with
    | |- context [filter_xpath_buf_add_attrs ctx ?a (buf ++ ?t) ?n] =>
        pose proof (add_attrs_text ctx a (buf ++ t) n
                      ltac:(subst size; rewrite qualifier_len_strlen; strlen_solve)) as H
    end.
    subst b0. rewrite ?append_assoc in H. rewrite ?append_assoc. exact H. }
  destruct (no_failure_result _ _ s
              (oblivious_add_node ctx elem elem_module_name last_ns buf size) Hruns Hs)
    as [Hr Hf].
  destruct (filter_xpath_buf_add_node ctx elem elem_module_name last_ns buf size s)
    as [[r b] s'].
  cbn [fst snd] in Hr, Hf. injection Hr as -> ->. now repeat split.
Qed.

Lemma node_step_text_witness :
  14 = strlen "/m:a[m:b='x']" + 1
  /\ no_failure (init [true; true])
  /\ filter_xpath_buf_add_node Examples.ctx0
       (mk_elem "c" (Some "urn:n")
          [mk_attr LYXML_ATTR_NS "xmlns" "urn:n" None;
           mk_attr LYXML_ATTR_STD "k" "1" (Some "urn:m");
           mk_attr LYXML_ATTR_STD "u" "2" (Some "urn:zz")] None [])
       None "urn:m" "/m:a[m:b='x']" 14 (init [true; true])
     = (28, "/m:a[m:b='x']/n:c[@m:k='1']", init []).
Proof.
  assert (H : 14 = strlen "/m:a[m:b='x']" + 1) by reflexivity.
  assert (Hs : no_failure (init [true; true])) by (repeat constructor).
  split; [exact H | split; [exact Hs | ]].
  pose proof (node_step_text Examples.ctx0
                (mk_elem "c" (Some "urn:n")
                   [mk_attr LYXML_ATTR_NS "xmlns" "urn:n" None;
                    mk_attr LYXML_ATTR_STD "k" "1" (Some "urn:m");
                    mk_attr LYXML_ATTR_STD "u" "2" (Some "urn:zz")] None [])
                None (Some "n") "urn:m" "/m:a[m:b='x']" 14 (init [true; true])
                H Hs eq_refl) as Htext.
  destruct (filter_xpath_buf_add_node Examples.ctx0
              (mk_elem "c" (Some "urn:n")
                 [mk_attr LYXML_ATTR_NS "xmlns" "urn:n" None;
                  mk_attr LYXML_ATTR_STD "k" "1" (Some "urn:m");
                  mk_attr LYXML_ATTR_STD "u" "2" (Some "urn:zz")] None [])
              None "urn:m" "/m:a[m:b='x']" 14 (init [true; true])) as [[r b] s'] eqn:E.
  destruct Htext as (_ & _ & _).
  vm_compute in E. exact (eq_sym E).
Defined.

(** Without allocation failure the content builder of the walker appends
    [[module:name] or [[name], the attribute predicates, [=] and the trimmed
    text as it is, without any escaping, between two quotes: double quotes
    when the text holds a single quote, single quotes otherwise. *)
Theorem content_predicate_text (ctx : ly_ctx) (elem : lyxml_elem)
    (elem_module_name q : option string) (last_ns buf : string) (size : Z) (s : state) :
  size = strlen buf + 1 ->
  no_failure s ->
  resolve_module_name ctx elem elem_module_name last_ns = Some q ->
  let '(r, b, s') :=
    filter_xpath_buf_add_content ctx elem elem_module_name last_ns buf size s in
  b = buf ++ "[" ++ qualifier q ++ elem_name elem ++ attr_predicates ctx (elem_attr elem)
      ++ "=" ++ content_literal (content_text ctx elem) ++ "]"
  /\ r = strlen b + 1
  /\ filters s' = filters s.
Proof.
  intros Hsize Hs Hresolve.
  set (content := content_text ctx elem).
  set (b0 := buf ++ "[" ++ qualifier q ++ elem_name elem
             ++ attr_predicates ctx (elem_attr elem)
             ++ "=" ++ content_literal content ++ "]").
  assert (Hruns : runs (filter_xpath_buf_add_content ctx elem elem_module_name last_ns
                          buf size)
                       (strlen b0 + 1, b0) []).
  { unfold filter_xpath_buf_add_content. rewrite Hresolve.
    rewrite (sprintf_at_end _ _ _ Hsize).
    apply runs_bind_quiet with true; [apply runs_malloc | ].
    cbn [negb]. cbv beta iota.
    eapply runs_bind_quiet.
    { apply add_attrs_text. subst size. rewrite qualifier_len_strlen. strlen_solve. }
    cbv beta iota. rewrite size_not_zero, size_not_negative.
    eapply runs_bind_quiet; [apply get_content_runs | ].
    cbv beta iota. fold content.
    apply runs_bind_quiet with true; [apply runs_malloc | ].
    cbn [negb]. cbv beta iota.
    rewrite (sprintf_at_end _ _ _ eq_refl).
    assert (Htext : ((buf ++ "[" ++ qualifier q ++ elem_name elem)
                     ++ attr_predicates ctx (elem_attr elem))
                    ++ "=" ++ String (if strchr content squote then dquote else squote)
                                     content
                           ++ String (if strchr content squote then dquote else squote) "]"
                    = b0).
    { subst b0. unfold content_literal.
      destruct (strchr content squote); rewrite !append_assoc; cbn [append];
        now rewrite !append_assoc. }
    rewrite Htext.
    replace (strlen ((buf ++ "[" ++ qualifier q ++ elem_name elem)
                     ++ attr_predicates ctx (elem_attr elem)) + 1 + 2
             + strlen content + 2)
      with (strlen b0 + 1); [apply runs_ret | ].
    rewrite <- Htext. strlen_solve. }
  destruct (no_failure_result _ _ s
              (oblivious_add_content ctx elem elem_module_name last_ns buf size) Hruns Hs)
    as [Hr Hf].
  destruct (filter_xpath_buf_add_content ctx elem elem_module_name last_ns buf size s)
    as [[r b] s'].
  cbn [fst snd] in Hr, Hf. injection Hr as -> ->. now repeat split.
Qed.

Lemma content_predicate_text_witness :
  5 = strlen "/m:a" + 1
  /\ no_failure (init [true; true])
  /\ filter_xpath_buf_add_content Examples.ctx0
       (mk_elem "c" (Some "urn:n") [] (Some " it's ") [])
       None "urn:m" "/m:a" 5 (init [true; true])
     = (17, "/m:a[n:c=" ++ String dquote ("it's" ++ String dquote "]"), init []).
Proof.
  assert (H : 5 = strlen "/m:a" + 1) by reflexivity.
  assert (Hs : no_failure (init [true; true])) by (repeat constructor).
  split; [exact H | split; [exact Hs | ]].
  pose proof (content_predicate_text Examples.ctx0
                (mk_elem "c" (Some "urn:n") [] (Some " it's ") [])
                None (Some "n") "urn:m" "/m:a" 5 (init [true; true])
                H Hs eq_refl) as Htext.
  destruct (filter_xpath_buf_add_content Examples.ctx0
              (mk_elem "c" (Some "urn:n") [] (Some " it's ") [])
              None "urn:m" "/m:a" 5 (init [true; true])) as [[r b] s'] eqn:E.
  destruct Htext as (_ & _ & _).
  vm_compute in E. exact (eq_sym E).
Defined.

(** Attributes that are namespace declarations, that have no namespace or
    whose namespace no module has are skipped by the attribute builder: it
    returns the buffer and the size it was given, and allocates nothing,
    under every oracle. *)
Theorem unresolved_attrs_skipped (ctx : ly_ctx) (attr : list lyxml_attr)
    (buf : string) (size : Z) (s : state) :
  Forall (fun a => attr_type a = LYXML_ATTR_NS
                   \/ attr_ns a = None
                   \/ exists v, attr_ns a = Some v
                                /\ ly_ctx_get_module_by_ns ctx v = None) attr ->
  filter_xpath_buf_add_attrs ctx attr buf size s = (size, buf, s).
Proof.
  induction 1 as [|a rest Ha _ IH]; cbn [filter_xpath_buf_add_attrs]; [reflexivity | ].
  destruct Ha as [Ht | [Hn | (v & Hv & Hl)]].
  - now rewrite Ht.
  - rewrite Hn. now destruct (attr_type a).
  - rewrite Hv, Hl. now destruct (attr_type a).
Qed.

Lemma unresolved_attrs_skipped_witness :
  Forall (fun a => attr_type a = LYXML_ATTR_NS
                   \/ attr_ns a = None
                   \/ exists v, attr_ns a = Some v
                                /\ ly_ctx_get_module_by_ns Examples.ctx0 v = None)
         [mk_attr LYXML_ATTR_NS "xmlns" "urn:n" None;
          mk_attr LYXML_ATTR_STD "plain" "1" None;
          mk_attr LYXML_ATTR_STD "u" "2" (Some "urn:zz")]
  /\ filter_xpath_buf_add_attrs Examples.ctx0
       [mk_attr LYXML_ATTR_NS "xmlns" "urn:n" None;
        mk_attr LYXML_ATTR_STD "plain" "1" None;
        mk_attr LYXML_ATTR_STD "u" "2" (Some "urn:zz")]
       "/m:a" 5 (init [false])
     = (5, "/m:a", init [false]).
Proof.
  assert (H : Forall (fun a => attr_type a = LYXML_ATTR_NS
                               \/ attr_ns a = None
                               \/ exists v, attr_ns a = Some v
                                            /\ ly_ctx_get_module_by_ns Examples.ctx0 v = None)
                     [mk_attr LYXML_ATTR_NS "xmlns" "urn:n" None;
                      mk_attr LYXML_ATTR_STD "plain" "1" None;
                      mk_attr LYXML_ATTR_STD "u" "2" (Some "urn:zz")]).
  { apply Forall_cons; [now left | ].
    apply Forall_cons; [right; now left | ].
    apply Forall_cons; [ | apply Forall_nil].
    right. right. now exists "urn:zz". }
  split; [exact H | ].
  exact (unresolved_attrs_skipped Examples.ctx0 _ "/m:a" 5 (init [false]) H).
Defined.

(** ** Unknown namespaces *)

(** A child whose loop body returns 0 and leaves the state alone only costs
    the copy of the buffer. *)
Lemma branch_skips_child ctx last_ns walk child buf size :
  (forall t, branch_child ctx last_ns walk child buf size t = (0, t)) ->
  forall rest s,
    branch ctx last_ns walk (child :: rest) buf size s =
    match rest with
    | [] => branch ctx last_ns walk rest buf size s
    | _ :: _ =>
        let (ok, s') := malloc s in
        if ok then branch ctx last_ns walk rest buf size s' else (-1, s')
    end.
Proof.
  intros Hchild rest s. cbn [branch]. unfold bind.
  destruct rest as [|c rest].
  - unfold ret at 1. change (negb true) with false. cbv beta iota.
    now rewrite Hchild.
  - destruct (malloc s) as [[|] s']; [ | reflexivity].
    change (negb true) with false. cbv beta iota. now rewrite Hchild.
Qed.

(** A content match child of unknown namespace ends the first loop with
    [return 0]. *)
Lemma content_match_nodes_unresolved ctx last_ns child children :
  In child children -> content_match child = true ->
  forall m buf size only,
    resolve_module_name ctx child m last_ns = None ->
    size = strlen buf + 1 ->
    runs (content_match_nodes ctx last_ns children m buf size only) (Returned 0) [].
Proof.
  intros Hin Hcm m.
  induction children as [|c rest IH]; intros buf size only Hresolve Hsize;
    [contradiction | ].
  cbn [content_match_nodes].
  destruct (content_match c) eqn:Hc.
  - pose proof (add_content_runs ctx c m last_ns buf size Hsize) as Hrun.
    destruct (resolve_module_name ctx c m last_ns) as [q|] eqn:Hq.
    + destruct Hin as [-> | Hin]; [congruence | ].
      destruct Hrun as (text & _ & Hrun).
      eapply runs_bind_quiet; [exact Hrun | ].
      cbv beta iota. rewrite size_not_zero, size_not_negative.
      now apply IH.
    + eapply runs_bind_quiet; [exact Hrun | apply runs_ret].
  - destruct Hin as [-> | Hin]; [congruence | ]. now apply IH.
Qed.

Section UnknownNamespace.

Variable ctx : ly_ctx.
Variable v : string.
Hypothesis Hlookup : ly_ctx_get_module_by_ns ctx v = None.
Hypothesis Hbase : v <> base_ns.

Lemma unknown_namespace_unresolved child last_ns :
  elem_ns child = Some v -> v <> last_ns ->
  resolve_module_name ctx child None last_ns = None.
Proof.
  intros Hns Hlast. unfold resolve_module_name, foreign_ns. rewrite Hns.
  apply String.eqb_neq in Hbase, Hlast. rewrite Hbase, Hlast. simpl.
  now rewrite Hlookup.
Qed.

(** A root of namespace [v] costs the allocation of [modules] and nothing
    else. *)
Lemma unknown_root_skipped next rest s :
  elem_ns next = Some v -> no_failure s ->
  fst (op_filter_build_xpath_from_subtree ctx (next :: rest) s)
  = fst (op_filter_build_xpath_from_subtree ctx rest s)
  /\ filters (snd (op_filter_build_xpath_from_subtree ctx (next :: rest) s))
     = filters (snd (op_filter_build_xpath_from_subtree ctx rest s)).
Proof.
  intros Hns Hs. simpl. rewrite Hns.
  pose proof Hbase as Hneq. apply String.eqb_neq in Hneq. rewrite Hneq.
  destruct (no_failure_malloc s Hs) as (Hok & Hs' & Hf).
  unfold bind. destruct (malloc s) as [ok s']. simpl in Hok, Hs', Hf. subst ok.
  simpl negb. cbv iota. rewrite Hlookup.
  destruct (oblivious_build ctx rest s' s) as [Hr (_ & _ & Hfs)];
    [split; [exact Hs' | split; [exact Hs | exact Hf]] | ].
  now split.
Qed.

(** The walker returns at once on an element of namespace [v]. *)
Lemma unknown_element_walk child last_ns buf size s :
  elem_ns child = Some v -> v <> last_ns ->
  filter_xpath_buf_add ctx child None last_ns buf size s = (0, s).
Proof.
  intros Hns Hlast. rewrite filter_xpath_buf_add_eq.
  unfold bind, filter_xpath_buf_add_node.
  now rewrite (unknown_namespace_unresolved child last_ns Hns Hlast).
Qed.

Lemma unknown_child_body child last_ns buf size s :
  elem_ns child = Some v -> v <> last_ns ->
  branch_child ctx last_ns (fun child => filter_xpath_buf_add ctx child None last_ns)
    child buf size s = (0, s).
Proof.
  intros Hns Hlast. unfold branch_child, bind. destruct (elem_child child).
  - unfold filter_xpath_buf_add_node.
    now rewrite (unknown_namespace_unresolved child last_ns Hns Hlast).
  - now rewrite unknown_element_walk.
Qed.

(** The second loop goes on after a child of namespace [v]. *)
Lemma unknown_child_skipped child rest last_ns buf size s :
  elem_ns child = Some v -> v <> last_ns -> no_failure s ->
  let walk := fun child => filter_xpath_buf_add ctx child None last_ns in
  fst (branch ctx last_ns walk (child :: rest) buf size s)
  = fst (branch ctx last_ns walk rest buf size s)
  /\ filters (snd (branch ctx last_ns walk (child :: rest) buf size s))
     = filters (snd (branch ctx last_ns walk rest buf size s)).
Proof.
  intros Hns Hlast Hs walk.
  rewrite (branch_skips_child ctx last_ns walk child buf size
             (fun t => unknown_child_body child last_ns buf size t Hns Hlast) rest s).
  destruct rest as [|c rest]; [now split | ].
  destruct (no_failure_malloc s Hs) as (Hok & Hs' & Hf).
  destruct (malloc s) as [ok s']. simpl in Hok, Hs', Hf. subst ok.
  destruct (oblivious_branch ctx last_ns walk (c :: rest)) with
    (buf := buf) (size := size) (s1 := s') (s2 := s) as [Hr (_ & _ & Hfs)].
  - apply Forall_forall. intros c' _ b n. apply oblivious_walker.
  - split; [exact Hs' | split; [exact Hs | exact Hf]].
  - now split.
Qed.

(** A content match child of namespace [v] makes the walker give up the
    branch of its parent. *)
Lemma unknown_content_match_drops_parent elem child last_ns buf size s :
  In child (elem_child elem) -> content_match child = true ->
  elem_ns child = Some v -> v <> last_ns ->
  size = strlen buf + 1 -> no_failure s ->
  fst (filter_xpath_buf_add ctx elem None last_ns buf size s) = 0
  /\ filters (snd (filter_xpath_buf_add ctx elem None last_ns buf size s)) = filters s.
Proof.
  intros Hin Hcm Hns Hlast Hsize Hs.
  assert (Hruns : runs (filter_xpath_buf_add ctx elem None last_ns buf size) 0 []).
  { rewrite filter_xpath_buf_add_eq.
    pose proof (add_node_runs ctx elem None last_ns buf size Hsize) as Hn.
    destruct (resolve_module_name ctx elem None last_ns) as [q|].
    - destruct Hn as (text & _ & Hn).
      eapply runs_bind_quiet; [exact Hn | ].
      cbv beta iota. rewrite size_not_zero, size_not_negative.
      eapply runs_bind_quiet;
        [eapply content_match_nodes_unresolved;
           eauto using unknown_namespace_unresolved
        | apply runs_ret].
    - eapply runs_bind_quiet; [exact Hn | apply runs_ret]. }
  pose proof (runs_no_failure _ _ _ s (oblivious_walker ctx last_ns elem None buf size)
                Hruns Hs) as (Hr & Hf & _).
  rewrite app_nil_r in Hf. now split.
Qed.

End UnknownNamespace.

(** Where an unknown namespace is skipped.  Let [v] be a namespace that the
    context does not resolve and that is not the base namespace.  A root
    element with namespace [v] is skipped: the compilation of the roots goes
    on with the next root, and the root adds nothing and causes no error.  A
    nested element with namespace [v], reached as a child in the second loop
    of the walker with a last namespace other than [v], is dropped in the same
    way: the walker and the loop body return 0 and leave the state as it was,
    and the loop goes on with the next child.  A content match node with such
    a namespace, below an element that is compiled without a module name of
    its own, makes the walker give up the branch of that element: it returns 0
    and adds nothing. *)
Theorem unknown_namespace_is_skipped (ctx : ly_ctx) (v : string) :
  ly_ctx_get_module_by_ns ctx v = None ->
  v <> base_ns ->
  (forall next rest s, elem_ns next = Some v -> no_failure s ->
     fst (op_filter_build_xpath_from_subtree ctx (next :: rest) s)
     = fst (op_filter_build_xpath_from_subtree ctx rest s)
     /\ filters (snd (op_filter_build_xpath_from_subtree ctx (next :: rest) s))
        = filters (snd (op_filter_build_xpath_from_subtree ctx rest s)))
  /\ (forall child last_ns buf size s, elem_ns child = Some v -> v <> last_ns ->
      let walk := fun child => filter_xpath_buf_add ctx child None last_ns in
      filter_xpath_buf_add ctx child None last_ns buf size s = (0, s)
      /\ branch_child ctx last_ns walk child buf size s = (0, s)
      /\ (forall rest, no_failure s ->
          fst (branch ctx last_ns walk (child :: rest) buf size s)
          = fst (branch ctx last_ns walk rest buf size s)
          /\ filters (snd (branch ctx last_ns walk (child :: rest) buf size s))
             = filters (snd (branch ctx last_ns walk rest buf size s))))
  /\ (forall elem child last_ns buf size s,
        In child (elem_child elem) -> content_match child = true ->
        elem_ns child = Some v -> v <> last_ns ->
        size = strlen buf + 1 -> no_failure s ->
        fst (filter_xpath_buf_add ctx elem None last_ns buf size s) = 0
        /\ filters (snd (filter_xpath_buf_add ctx elem None last_ns buf size s))
           = filters s).
Proof.
  intros Hlookup Hbase. split; [ | split].
  - intros next rest s. now apply unknown_root_skipped.
  - intros child last_ns buf size s Hns Hlast walk. repeat split.
    + now apply (unknown_element_walk ctx v Hlookup Hbase).
    + now apply (unknown_child_body ctx v Hlookup Hbase).
    + now apply (unknown_child_skipped ctx v Hlookup Hbase).
    + now apply (unknown_child_skipped ctx v Hlookup Hbase).
  - intros elem child last_ns buf size s.
    now apply (unknown_content_match_drops_parent ctx v Hlookup Hbase).
Qed.

Lemma unknown_namespace_is_skipped_witness :
  ly_ctx_get_module_by_ns Examples.ctx0 "urn:zz" = None
  /\ "urn:zz" <> base_ns
  /\ filters (snd (op_filter_build_xpath_from_subtree Examples.ctx0
                     [mk_elem "top" (Some "urn:zz") [] None []; Examples.interfaces_filter]
                     (init [])))
     = ["/ietf-interfaces:interfaces/interface[name='eth0']"].
Proof.
  assert (Hlookup : ly_ctx_get_module_by_ns Examples.ctx0 "urn:zz" = None) by reflexivity.
  assert (Hbase : "urn:zz" <> base_ns) by discriminate.
  split; [exact Hlookup | split; [exact Hbase | ]].
  destruct (unknown_namespace_is_skipped Examples.ctx0 "urn:zz" Hlookup Hbase)
    as (Htop & _ & _).
  destruct (Htop (mk_elem "top" (Some "urn:zz") [] None []) [Examples.interfaces_filter]
              (init []) eq_refl) as [_ Hf].
  - repeat constructor.
  - rewrite Hf. reflexivity.
Defined.

(** ** Roots *)

Lemma modules_by_name_unmatched name iter modules s :
  Forall (fun module => exposes name module = false) iter ->
  modules_by_name name iter modules s = (Some modules, s).
Proof.
  induction 1 as [|module rest Hm _ IH]; cbn [modules_by_name]; [reflexivity | ].
  now rewrite Hm.
Qed.

(** A root element without namespace, or in the base namespace, whose name
    no module of the context exposes is skipped under every oracle: it
    allocates nothing, adds nothing, causes no error, and the compilation
    goes on with the next root. *)
Theorem unmatched_root_skipped (ctx : ly_ctx) (next : lyxml_elem)
    (rest : list lyxml_elem) (s : state) :
  elem_ns next = None \/ elem_ns next = Some base_ns ->
  Forall (fun module => exposes (elem_name next) module = false)
         (ly_ctx_get_module_iter ctx) ->
  op_filter_build_xpath_from_subtree ctx (next :: rest) s
  = op_filter_build_xpath_from_subtree ctx rest s.
Proof.
  intros Hns Hnone. cbn [op_filter_build_xpath_from_subtree].
  assert (E : match elem_ns next with
              | Some v => if String.eqb v base_ns then None else Some v
              | None => None
              end = None).
  { destruct Hns as [-> | ->]; [reflexivity | now rewrite String.eqb_refl]. }
  rewrite E. unfold bind.
  now rewrite (modules_by_name_unmatched _ _ [] s Hnone).
Qed.

Lemma unmatched_root_skipped_witness :
  (elem_ns (mk_elem "nowhere" None [] None []) = None
   \/ elem_ns (mk_elem "nowhere" None [] None []) = Some base_ns)
  /\ Forall (fun module => exposes "nowhere" module = false)
            (ly_ctx_get_module_iter Examples.ctx0)
  /\ op_filter_build_xpath_from_subtree Examples.ctx0
       [mk_elem "nowhere" None [] None []; Examples.interfaces_filter] (init [])
     = op_filter_build_xpath_from_subtree Examples.ctx0 [Examples.interfaces_filter]
         (init []).
Proof.
  assert (Hns : elem_ns (mk_elem "nowhere" None [] None []) = None
                \/ elem_ns (mk_elem "nowhere" None [] None []) = Some base_ns)
    by (now left).
  assert (Hnone : Forall (fun module => exposes "nowhere" module = false)
                         (ly_ctx_get_module_iter Examples.ctx0))
    by (repeat constructor).
  split; [exact Hns | split; [exact Hnone | ]].
  exact (unmatched_root_skipped Examples.ctx0 (mk_elem "nowhere" None [] None [])
           [Examples.interfaces_filter] (init []) Hns Hnone).
Defined.

(** Roots are compiled one after the other and independently: without
    allocation failure the compilation of two lists of roots in a row returns
    0 and adds what the first list adds, then what the second adds. *)
Theorem build_app (ctx : ly_ctx) (elem1 elem2 : list lyxml_elem) (s : state) :
  no_failure s ->
  let added elem := filters (snd (op_filter_build_xpath_from_subtree ctx elem (init []))) in
  fst (op_filter_build_xpath_from_subtree ctx (elem1 ++ elem2) s) = 0
  /\ filters (snd (op_filter_build_xpath_from_subtree ctx (elem1 ++ elem2) s))
     = (filters s ++ added elem1 ++ added elem2)%list.
Proof.
  intros Hs added.
  pose proof (runs_no_failure _ _ _ s (oblivious_build ctx (elem1 ++ elem2))
                (build_runs ctx (elem1 ++ elem2)) Hs) as (Hr & Hf & _).
  split; [exact Hr | ]. rewrite Hf, flat_map_app. unfold added.
  now rewrite (runs_init _ _ _ (build_runs ctx elem1)),
              (runs_init _ _ _ (build_runs ctx elem2)).
Qed.

Lemma build_app_witness :
  no_failure (init [true])
  /\ filters (snd (op_filter_build_xpath_from_subtree Examples.ctx0
                     ([mk_elem "a" None [] None []] ++ [Examples.interfaces_filter])
                     (init [true])))
     = ["/m:a"; "/n:a"; "/ietf-interfaces:interfaces/interface[name='eth0']"].
Proof.
  assert (Hs : no_failure (init [true])) by (repeat constructor).
  split; [exact Hs | ].
  destruct (build_app Examples.ctx0 [mk_elem "a" None [] None []]
              [Examples.interfaces_filter] (init [true]) Hs) as [_ Hf].
  rewrite Hf. reflexivity.
Defined.

Lemma content_match_nodes_qualified ctx last_ns children name :
  forall buf size only, size = strlen buf + 1 ->
    exists suffix,
      runs (content_match_nodes ctx last_ns children (Some name) buf size only)
           (Scanned (buf ++ suffix) (strlen (buf ++ suffix) + 1)
                    (only && forallb content_match children))
           [].
Proof.
  induction children as [|child rest IH]; intros buf size only Hsize;
    cbn [content_match_nodes forallb].
  - exists "". rewrite append_nil_r, andb_true_r, <- Hsize. apply runs_ret.
  - destruct (content_match child); cbn [andb].
    + pose proof (add_content_runs ctx child (Some name) last_ns buf size Hsize) as Hc.
      cbn [resolve_module_name] in Hc. destruct Hc as (text & _ & Hc).
      destruct (IH (buf ++ text) (strlen (buf ++ text) + 1) only eq_refl) as [suffix Hr].
      exists (text ++ suffix). eapply runs_bind_quiet; [exact Hc | ].
      cbv beta iota. rewrite size_not_zero, size_not_negative.
      rewrite append_assoc in Hr. exact Hr.
    + rewrite andb_false_r. destruct (IH buf size false Hsize) as [suffix Hr].
      exists suffix. exact Hr.
Qed.

(** A root all of whose children are content match nodes, a root without
    child included, is a terminal branch: compiled for a module without
    allocation failure it adds exactly one string, which starts with the step
    [/module:name] of the root. *)
Theorem terminal_root_one_string (ctx : ly_ctx) (next : lyxml_elem)
    (module : lys_module) (s : state) :
  forallb content_match (elem_child next) = true ->
  no_failure s ->
  exists x,
    fst (top_level_branch ctx next module s) = 0
    /\ filters (snd (top_level_branch ctx next module s)) = (filters s ++ [x])%list
    /\ starts_with ("/" ++ mod_name module ++ ":" ++ elem_name next) x.
Proof.
  intros Hall Hs.
  assert (Hone : exists x, runs (top_level_branch ctx next module) 0 [x]).
  { unfold top_level_branch. destruct (content_match next).
    - destruct (add_top_content_runs ctx next (mod_name module)) as [suffix Hr].
      eexists. exact Hr.
    - rewrite filter_xpath_buf_add_eq.
      pose proof (add_node_runs ctx next (Some (mod_name module)) (mod_ns module) "" 1
                    eq_refl) as Hn.
      cbn [resolve_module_name] in Hn. destruct Hn as (text & _ & Hn).
      destruct (content_match_nodes_qualified ctx (mod_ns module) (elem_child next)
                  (mod_name module) ("" ++ text) (strlen ("" ++ text) + 1) true eq_refl)
        as [suffix Hc].
      rewrite Hall in Hc. cbn [andb] in Hc.
      eexists. eapply runs_bind_quiet; [exact Hn | ].
      cbv beta iota. rewrite size_not_zero, size_not_negative.
      eapply runs_bind_quiet; [exact Hc | ].
      eapply runs_bind_quiet_r; [apply runs_add_filter | apply runs_ret]. }
  destruct Hone as [x Hx]. exists x.
  destruct (top_level_branch_appends ctx next module s Hs) as [Hr Hf].
  destruct (top_level_branch_runs ctx next module) as [_ Hp].
  assert (Htop : top_strings ctx next module = [x]).
  { unfold top_strings. now rewrite (runs_init _ _ _ Hx). }
  rewrite Htop in Hf, Hp. split; [exact Hr | split; [exact Hf | ]].
  now inversion Hp.
Qed.

Lemma terminal_root_one_string_witness :
  forallb content_match
    (elem_child (mk_elem "a" (Some "urn:m") [] None
                   [mk_elem "b" None [] (Some "x") []; mk_elem "c" None [] (Some "y") []]))
  = true
  /\ no_failure (init [true])
  /\ filters (snd (top_level_branch Examples.ctx0
                     (mk_elem "a" (Some "urn:m") [] None
                        [mk_elem "b" None [] (Some "x") [];
                         mk_elem "c" None [] (Some "y") []])
                     Examples.mod_m (init [true])))
     = ["/m:a[m:b='x'][m:c='y']"].
Proof.
  assert (Hs : no_failure (init [true])) by (repeat constructor).
  split; [reflexivity | split; [exact Hs | ]].
  destruct (terminal_root_one_string Examples.ctx0
              (mk_elem "a" (Some "urn:m") [] None
                 [mk_elem "b" None [] (Some "x") []; mk_elem "c" None [] (Some "y") []])
              Examples.mod_m (init [true]) eq_refl Hs) as (x & _ & Hf & _).
  reflexivity.
Defined.

(** ** XPath requests *)

(** A request of type [xpath] is answered from its attributes alone: the
    payload is not read and the context is not consulted. *)
Theorem xpath_request_ignores_payload (attrs : list lyd_attr)
    (ctx1 ctx2 : ly_ctx) (value1 value2 : anydata_value) (s : state) :
  declared_type attrs "xpath" ->
  op_filter_create ctx1 (mk_lyd_node attrs value1) s
  = op_filter_create ctx2 (mk_lyd_node attrs value2) s.
Proof.
  intros Htype. unfold op_filter_create. cbn [node_attr].
  rewrite (scan_type_xpath attrs attrs Htype).
  now destruct (select_attr attrs).
Qed.

Lemma xpath_request_ignores_payload_witness :
  declared_type [mk_lyd_attr "type" (Some "xpath"); mk_lyd_attr "select" (Some "/a")]
                "xpath"
  /\ op_filter_create Examples.ctx0
       (mk_lyd_node [mk_lyd_attr "type" (Some "xpath"); mk_lyd_attr "select" (Some "/a")]
                    (value_xml [Examples.interfaces_filter])) (init [])
     = op_filter_create Examples.ctx0
         (mk_lyd_node [mk_lyd_attr "type" (Some "xpath"); mk_lyd_attr "select" (Some "/a")]
                      (value_string false (Some "<"))) (init []).
Proof.
  assert (H : declared_type
                [mk_lyd_attr "type" (Some "xpath"); mk_lyd_attr "select" (Some "/a")]
                "xpath").
  { exists [], (mk_lyd_attr "type" (Some "xpath")), [mk_lyd_attr "select" (Some "/a")].
    repeat split; try reflexivity; contradiction. }
  split; [exact H | ].
  exact (xpath_request_ignores_payload _ Examples.ctx0 Examples.ctx0 _ _ (init []) H).
Defined.

(** A request of type [xpath] with a non-empty [select], under every oracle:
    either it returns 0 and the Filter List is the old one and the [select]
    string, or it returns -1 and the Filter List is the old one. *)
Theorem xpath_request_all_or_nothing (ctx : ly_ctx) (filter_node : lyd_node)
    (sel : lyd_attr) (path : string) (s : state) :
  declared_type (node_attr filter_node) "xpath" ->
  find (fun a => String.eqb (lyd_attr_name a) "select") (node_attr filter_node) = Some sel ->
  value_str sel = Some path ->
  path <> "" ->
  let r := op_filter_create ctx filter_node s in
  (fst r = 0 /\ filters (snd r) = (filters s ++ [path])%list)
  \/ (fst r = -1 /\ filters (snd r) = filters s).
Proof.
  intros Htype Hsel Hval Hpath. unfold op_filter_create.
  rewrite (scan_type_xpath _ _ Htype), select_attr_find, Hsel.
  unfold xpath_filter. rewrite Hval.
  destruct path as [|c path]; [contradiction | ].
  unfold bind, strdup, op_filter_xpath_add_filter, bind, realloc, malloc, ret.
  destruct s as [[|[|] [|[|] o]] fs]; cbn; auto.
Qed.

Lemma xpath_request_all_or_nothing_witness :
  declared_type (node_attr (Examples.xpath_request [mk_lyd_attr "select" (Some "/a/b")]))
                "xpath"
  /\ op_filter_create Examples.ctx0
       (Examples.xpath_request [mk_lyd_attr "select" (Some "/a/b")])
       (mk_state [true; false] ["/old"])
     = (-1, mk_state [] ["/old"]).
Proof.
  assert (H : declared_type
                (node_attr (Examples.xpath_request [mk_lyd_attr "select" (Some "/a/b")]))
                "xpath").
  { exists [], (mk_lyd_attr "type" (Some "xpath")), [mk_lyd_attr "select" (Some "/a/b")].
    repeat split; try reflexivity; contradiction. }
  split; [exact H | ].
  pose proof (xpath_request_all_or_nothing Examples.ctx0
                (Examples.xpath_request [mk_lyd_attr "select" (Some "/a/b")])
                (mk_lyd_attr "select" (Some "/a/b")) "/a/b"
                (mk_state [true; false] ["/old"]) H eq_refl eq_refl
                ltac:(discriminate)) as [[E _] | [_ _]].
  - discriminate E.
  - reflexivity.
Defined.

(** ** The text of a content match node *)










(** ** [np2srv_new_session_cb] *)

(** The loop is over after four unfoldings, whatever the answers. *)
Lemma ps_add_session_loop_fuel (world : session_world) (fuel : nat) :
  (4 <= fuel)%nat ->
  ps_add_session_loop world fuel 0 0 = ps_add_session_loop world 4 0 0.
Proof.
  intros H.
  destruct fuel as [|[|[|[|fuel]]]]; try lia.
  cbn [ps_add_session_loop]. cbn.
  destruct (nc_ps_add_session_rc world 0 =? 0); [reflexivity | ].
  destruct (nc_ps_add_session_rc world 1 =? 0); [reflexivity | ].
  destruct (nc_ps_add_session_rc world 2 =? 0); [reflexivity | ].
  destruct fuel; reflexivity.
Qed.

(** Once the sysrepo session is started, [np2srv_new_session_cb] tries
    [nc_ps_add_session] until it succeeds, three times at most; it sleeps once
    after every failed attempt, also after the third, and always for
    [NP2SRV_PS_BACKOFF_SLEEP] milliseconds. *)
Theorem new_session_attempts (world : session_world) (new_session : nc_session) :
  sr_session_start_rc world = 0 ->
  let calls := np2srv_new_session_cb world new_session in
  let failures := leading_failures world in
  length (filter is_ps_add_session calls) = Nat.min 3 (S failures)
  /\ length (filter is_nanosleep calls) = failures
  /\ (forall ts, In (Call_nanosleep ts) calls ->
        ts = np_sleep_timespec (NP2SRV_PS_BACKOFF_SLEEP world))
  /\ (forall fuel, (4 <= fuel)%nat ->
        ps_add_session_loop world fuel 0 0 = ps_add_session_loop world 4 0 0).
Proof.
  intros Hstart calls failures.
  split; [ | split; [ | split; [ | apply ps_add_session_loop_fuel]]];
    subst calls failures; unfold np2srv_new_session_cb, leading_failures;
    rewrite Hstart; cbn [Z.eqb negb ps_add_session_loop]; cbn;
    destruct (monitored_transport world (nc_session_get_ti new_session));
    destruct (nc_ps_add_session_rc world 0 =? 0);
    try destruct (nc_ps_add_session_rc world 1 =? 0);
    try destruct (nc_ps_add_session_rc world 2 =? 0);
    destruct (notifications_module world); cbn; try reflexivity;
    intros ts H; repeat (destruct H as [H | H]; try discriminate H; try now inversion H);
    try contradiction.
Qed.

Lemma new_session_attempts_witness :
  sr_session_start_rc
    (mk_session_world 0 (fun k => if (k <? 2)%nat then 1 else 0) true true true 200) = 0
  /\ np2srv_new_session_cb
       (mk_session_world 0 (fun k => if (k <? 2)%nat then 1 else 0) true true true 200)
       (mk_session 7 (Some "alice") (Some "10.0.0.1") NC_TI_LIBSSH)
     = [Call_sr_session_start; Call_nc_session_set_data; Call_sr_session_set_nc_id 7;
        Call_ncm_session_add;
        Call_nc_ps_add_session; Call_nanosleep (mk_timespec 0 200000000);
        Call_nc_ps_add_session; Call_nanosleep (mk_timespec 0 200000000);
        Call_nc_ps_add_session;
        Call_sr_event_notif_send "/ietf-netconf-notifications:netconf-session-start"
          [("/ietf-netconf-notifications:netconf-session-start/username",
            SR_STRING_T (Some "alice"));
           ("/ietf-netconf-notifications:netconf-session-start/session-id",
            SR_UINT32_T 7);
           ("/ietf-netconf-notifications:netconf-session-start/source-host",
            SR_STRING_T (Some "10.0.0.1"))]].
Proof.
  split; [reflexivity | ].
  destruct (new_session_attempts
              (mk_session_world 0 (fun k => if (k <? 2)%nat then 1 else 0) true true true 200)
              (mk_session 7 (Some "alice") (Some "10.0.0.1") NC_TI_LIBSSH) eq_refl)
    as (_ & _ & _ & _).
  reflexivity.
Defined.

(** [np2srv_new_session_cb] gives the session up exactly when the sysrepo
    session cannot be started or the first three calls of
    [nc_ps_add_session] all fail.  It then ends with [sr_session_stop] and
    [nc_session_free], takes the session out of monitoring exactly when it had
    put it in, and generates no [netconf-session-start] event.  In every other
    case it neither frees the session, nor stops the sysrepo session, nor
    takes the session out of monitoring. *)
Theorem new_session_teardown (world : session_world) (new_session : nc_session) :
  let calls := np2srv_new_session_cb world new_session in
  if (negb (sr_session_start_rc world =? 0)
      || (negb (nc_ps_add_session_rc world 0 =? 0)
          && negb (nc_ps_add_session_rc world 1 =? 0)
          && negb (nc_ps_add_session_rc world 2 =? 0)))%bool
  then
    (exists before started,
        calls = (before ++ [Call_sr_session_stop started; Call_nc_session_free])%list
        /\ ~ In Call_nc_session_free before
        /\ (In Call_ncm_session_del before <-> In Call_ncm_session_add before))
    /\ (forall xpath values, ~ In (Call_sr_event_notif_send xpath values) calls)
  else
    ~ In Call_nc_session_free calls
    /\ (forall started, ~ In (Call_sr_session_stop started) calls)
    /\ ~ In Call_ncm_session_del calls.
Proof.
  intros calls. subst calls. unfold np2srv_new_session_cb, new_session_error.
  destruct (sr_session_start_rc world =? 0); cbn [negb orb].
  2:{ split.
      - exists [Call_sr_session_start], false. cbn. intuition discriminate.
      - intros xpath values H. cbn in H. intuition discriminate. }
  cbn [ps_add_session_loop]. cbn [Z.ltb Z.compare Z.add Pos.add Pos.succ Pos.compare
                                   Pos.compare_cont].
  destruct (monitored_transport world (nc_session_get_ti new_session));
    destruct (nc_ps_add_session_rc world 0 =? 0); cbn [negb andb];
    try destruct (nc_ps_add_session_rc world 1 =? 0); cbn [negb andb];
    try destruct (nc_ps_add_session_rc world 2 =? 0); cbn [negb andb];
    destruct (notifications_module world); cbn;
    try (repeat split; intros; intuition discriminate).
  all: split; [ | intros xpath values H; intuition discriminate].
  all: eexists _, true.
  all: split;
    [ match goal with
      | |- ?l = _ =>
          match l with
          | context [Call_ncm_session_add] =>
              change l with
                ([Call_sr_session_start; Call_nc_session_set_data;
                  Call_sr_session_set_nc_id (nc_session_get_id new_session);
                  Call_ncm_session_add;
                  Call_nc_ps_add_session;
                  Call_nanosleep (np_sleep_timespec (NP2SRV_PS_BACKOFF_SLEEP world));
                  Call_nc_ps_add_session;
                  Call_nanosleep (np_sleep_timespec (NP2SRV_PS_BACKOFF_SLEEP world));
                  Call_nc_ps_add_session;
                  Call_nanosleep (np_sleep_timespec (NP2SRV_PS_BACKOFF_SLEEP world));
                  Call_ncm_session_del]
                 ++ [Call_sr_session_stop true; Call_nc_session_free])%list
          | _ =>
              change l with
                ([Call_sr_session_start; Call_nc_session_set_data;
                  Call_sr_session_set_nc_id (nc_session_get_id new_session);
                  Call_nc_ps_add_session;
                  Call_nanosleep (np_sleep_timespec (NP2SRV_PS_BACKOFF_SLEEP world));
                  Call_nc_ps_add_session;
                  Call_nanosleep (np_sleep_timespec (NP2SRV_PS_BACKOFF_SLEEP world));
                  Call_nc_ps_add_session;
                  Call_nanosleep (np_sleep_timespec (NP2SRV_PS_BACKOFF_SLEEP world))]
                 ++ [Call_sr_session_stop true; Call_nc_session_free])%list
          end
      end; reflexivity
    | cbn; intuition discriminate ].
Qed.

(** ** [np2srv_ntf_new_cb] *)

Lemma top_level_node_root : forall notif, lyd_parent (top_level_node notif) = None.
Proof.
  fix IH 1. intros [name [parent|]]; simpl; [apply IH | reflexivity].
Qed.

(** The node that [np2srv_ntf_new_cb] works on: the top-level node of the
    notification, or of the node that [lyd_new_path] created. *)
Lemma ntf_new_cb_calls world ncs notif_type notif timestamp calls :
  np2srv_ntf_new_cb world ncs notif_type notif timestamp = Some calls ->
  exists created node ly_ntf,
    lyd_parent node = None
    /\ (forall c, In c created -> exists p, c = Call_lyd_new_path p)
    /\ calls =
       (created
        ++ Call_ncac_check_operation node (nc_session_get_username ncs)
        :: (if negb (ncac_check_operation_rc world node (nc_session_get_username ncs) =? 0)
            then [Call_nc_server_notif_free false]
            else
              [Call_nc_server_notif_new node timestamp; Call_nc_server_notif_send node]
              ++ (if match nc_server_notif_send_result world node with
                     | NC_MSG_ERROR | NC_MSG_WOULDBLOCK => false
                     | _ => true
                     end
                  then Call_ncm_session_notification
                       :: match notif_type with
                          | SR_EV_NOTIF_STOP => [Call_nc_session_set_notif_status 0]
                          | _ => []
                          end
                  else [])
              ++ [Call_nc_server_notif_free true])
        ++ [Call_lyd_free_withsiblings ly_ntf])%list.
Proof.
  unfold np2srv_ntf_new_cb. intros H.
  set (path := match notif_type with
               | SR_EV_NOTIF_REPLAY_COMPLETE => Some "/nc-notifications:replayComplete"
               | SR_EV_NOTIF_STOP => Some "/nc-notifications:notificationComplete"
               | _ => None
               end) in *.
  set (ly_ntf := match path with
                 | Some p => lyd_new_path_result world p
                 | None => None
                 end) in *.
  set (created := match path with
                  | Some p => [Call_lyd_new_path p]
                  | None => []
                  end) in *.
  destruct (match path with
            | Some _ => ly_ntf
            | None => Some notif
            end) as [n|]; [ | discriminate].
  exists created, (top_level_node n), ly_ntf.
  split; [apply top_level_node_root | split].
  - subst created. intros c Hc. destruct path as [p|]; [ | contradiction].
    destruct Hc as [<- | []]. now exists p.
  - destruct (negb (ncac_check_operation_rc world (top_level_node n)
                      (nc_session_get_username ncs) =? 0));
      injection H as <-; [reflexivity | ].
    cbn [app]. rewrite <- !app_assoc. reflexivity.
Qed.

(** Access control of notifications.  [np2srv_ntf_new_cb] asks the NACM
    module about a top-level node (the node at the end of the chain of
    parents) and the user of the session.  When the verdict is not 0 it builds
    and sends nothing, counts nothing and leaves the notification status of
    the session alone; what it sends is the node that passed the check. *)
Theorem notification_access_control (world : notif_world) (ncs : nc_session)
    (notif_type : sr_ev_notif_type_t) (notif : lyd_data) (timestamp : Z)
    (calls : list call) :
  np2srv_ntf_new_cb world ncs notif_type notif timestamp = Some calls ->
  exists node,
    lyd_parent node = None
    /\ In (Call_ncac_check_operation node (nc_session_get_username ncs)) calls
    /\ (forall n, In (Call_nc_server_notif_send n) calls ->
          n = node
          /\ ncac_check_operation_rc world node (nc_session_get_username ncs) = 0)
    /\ (ncac_check_operation_rc world node (nc_session_get_username ncs) <> 0 ->
          (forall n t, ~ In (Call_nc_server_notif_new n t) calls)
          /\ (forall n, ~ In (Call_nc_server_notif_send n) calls)
          /\ ~ In Call_ncm_session_notification calls
          /\ (forall v, ~ In (Call_nc_session_set_notif_status v) calls)).
Proof.
  intros H.
  destruct (ntf_new_cb_calls _ _ _ _ _ _ H) as (created & node & ly_ntf & Hroot & Hc & ->).
  exists node. split; [exact Hroot | ].
  assert (Hcreated : forall c, In c created ->
            (forall n, c <> Call_nc_server_notif_send n)
            /\ (forall n t, c <> Call_nc_server_notif_new n t)
            /\ c <> Call_ncm_session_notification
            /\ (forall v, c <> Call_nc_session_set_notif_status v)).
  { intros c Hin. destruct (Hc c Hin) as [p ->]. repeat split; intros; discriminate. }
  split; [apply in_or_app; right; now left | ].
  destruct (Z.eqb_spec (ncac_check_operation_rc world node (nc_session_get_username ncs)) 0)
    as [Hz | Hnz]; cbn [negb].
  - split; [ | intros Hne; now elim Hne].
    intros n Hin. apply in_app_or in Hin. destruct Hin as [Hin | Hin].
    + destruct (Hcreated _ Hin) as (Hs & _). now elim (Hs n).
    + split; [ | exact Hz].
      destruct (match nc_server_notif_send_result world node with
                | NC_MSG_ERROR | NC_MSG_WOULDBLOCK => false
                | _ => true
                end); destruct notif_type; cbn in Hin;
        repeat (destruct Hin as [Hin | Hin]; try discriminate Hin;
                try (now injection Hin)); contradiction.
  - split.
    + intros n Hin. apply in_app_or in Hin. destruct Hin as [Hin | Hin].
      * destruct (Hcreated _ Hin) as (Hs & _). now elim (Hs n).
      * cbn in Hin. repeat (destruct Hin as [Hin | Hin]; try discriminate Hin).
        contradiction.
    + intros _. repeat split; intros; intros Hin; apply in_app_or in Hin;
        destruct Hin as [Hin | Hin];
        try (destruct (Hcreated _ Hin) as (H1 & H2 & H3 & H4);
             first [now elim (H1 n) | now elim (H2 n t) | now elim H3 | now elim (H4 v)]);
        cbn in Hin; repeat (destruct Hin as [Hin | Hin]; try discriminate Hin);
        contradiction.
Qed.

Lemma notification_access_control_witness :
  np2srv_ntf_new_cb
    (mk_notif_world (fun _ => None) (fun _ _ => 1) (fun _ => NC_MSG_NOTIF))
    (mk_session 7 (Some "alice") None NC_TI_LIBSSH)
    SR_EV_NOTIF_REALTIME (Lyd "event" (Some (Lyd "top" None))) 0
  = Some [Call_ncac_check_operation (Lyd "top" None) (Some "alice");
          Call_nc_server_notif_free false;
          Call_lyd_free_withsiblings None].
Proof.
  destruct (notification_access_control
              (mk_notif_world (fun _ => None) (fun _ _ => 1) (fun _ => NC_MSG_NOTIF))
              (mk_session 7 (Some "alice") None NC_TI_LIBSSH)
              SR_EV_NOTIF_REALTIME (Lyd "event" (Some (Lyd "top" None))) 0 _ eq_refl)
    as (node & _).
  reflexivity.
Defined.

(** The end of a subscription.  [np2srv_ntf_new_cb] resets the notification
    status of the session exactly when the event is [SR_EV_NOTIF_STOP], the
    NACM module lets the notification pass and it was sent without error or
    timeout; the session counter of notifications moves exactly when the
    notification was sent.  Whatever happens, the last two calls are
    [nc_server_notif_free] and [lyd_free_withsiblings]. *)
Theorem notification_stop_status (world : notif_world) (ncs : nc_session)
    (notif_type : sr_ev_notif_type_t) (notif : lyd_data) (timestamp : Z)
    (calls : list call) :
  np2srv_ntf_new_cb world ncs notif_type notif timestamp = Some calls ->
  exists node before present ly_ntf,
    let delivered :=
      ((ncac_check_operation_rc world node (nc_session_get_username ncs) =? 0)
       && match nc_server_notif_send_result world node with
          | NC_MSG_ERROR | NC_MSG_WOULDBLOCK => false
          | _ => true
          end)%bool in
    In (Call_ncac_check_operation node (nc_session_get_username ncs)) calls
    /\ calls = (before ++ [Call_nc_server_notif_free present;
                           Call_lyd_free_withsiblings ly_ntf])%list
    /\ (In Call_ncm_session_notification calls <-> delivered = true)
    /\ (In (Call_nc_session_set_notif_status 0) calls
        <-> notif_type = SR_EV_NOTIF_STOP /\ delivered = true).
Proof.
  intros H.
  destruct (ntf_new_cb_calls _ _ _ _ _ _ H) as (created & node & ly_ntf & Hroot & Hc & ->).
  assert (Hcreated : forall c, In c created ->
            c <> Call_ncm_session_notification
            /\ c <> Call_nc_session_set_notif_status 0).
  { intros c Hin. destruct (Hc c Hin) as [p ->]. split; discriminate. }
  destruct (ncac_check_operation_rc world node (nc_session_get_username ncs) =? 0) eqn:Hrc;
    cbn [negb andb].
  - destruct (match nc_server_notif_send_result world node with
              | NC_MSG_ERROR | NC_MSG_WOULDBLOCK => false
              | _ => true
              end) eqn:Hsent.
    + exists node,
        (created ++ Call_ncac_check_operation node (nc_session_get_username ncs)
                 :: [Call_nc_server_notif_new node timestamp;
                     Call_nc_server_notif_send node]
                 ++ Call_ncm_session_notification
                    :: match notif_type with
                       | SR_EV_NOTIF_STOP => [Call_nc_session_set_notif_status 0]
                       | _ => []
                       end)%list, true, ly_ntf.
      cbv zeta. rewrite Hrc, Hsent. cbn [andb].
      split; [apply in_or_app; right; now left | ].
      split; [cbn [app]; repeat (rewrite <- app_assoc; cbn [app]); reflexivity | ].
      split.
      * split; [reflexivity | intros _].
        apply in_or_app. right. cbn. auto.
      * split.
        -- intros Hin. apply in_app_or in Hin. destruct Hin as [Hin | Hin].
           ++ destruct (Hcreated _ Hin) as [_ Hne]. now elim Hne.
           ++ destruct notif_type; cbn in Hin;
                repeat (destruct Hin as [Hin | Hin]; try discriminate Hin);
                try contradiction; now split.
        -- intros [-> _]. apply in_or_app. right. cbn. auto 10.
    + exists node,
        (created ++ Call_ncac_check_operation node (nc_session_get_username ncs)
                 :: [Call_nc_server_notif_new node timestamp;
                     Call_nc_server_notif_send node])%list, true, ly_ntf.
      cbv zeta. rewrite Hrc, Hsent. cbn [andb].
      split; [apply in_or_app; right; now left | ].
      split; [cbn [app]; repeat (rewrite <- app_assoc; cbn [app]); reflexivity | ].
      split; (split; [ | intros H'; first [discriminate H' | now destruct H']]);
        intros Hin; apply in_app_or in Hin; destruct Hin as [Hin | Hin];
        try (destruct (Hcreated _ Hin) as [Hn Hs]; first [now elim Hn | now elim Hs]);
        cbn in Hin; repeat (destruct Hin as [Hin | Hin]; try discriminate Hin);
        contradiction.
  - exists node, (created ++ [Call_ncac_check_operation node (nc_session_get_username ncs)])%list, false, ly_ntf.
    cbv zeta. rewrite Hrc. cbn [andb].
    split; [apply in_or_app; right; now left | ].
    split; [cbn [app]; repeat (rewrite <- app_assoc; cbn [app]); reflexivity | ].
    split; (split; [ | intros H'; first [discriminate H' | now destruct H']]);
      intros Hin; apply in_app_or in Hin; destruct Hin as [Hin | Hin];
      try (destruct (Hcreated _ Hin) as [Hn Hs]; first [now elim Hn | now elim Hs]);
      cbn in Hin; repeat (destruct Hin as [Hin | Hin]; try discriminate Hin);
      contradiction.
Qed.

Lemma notification_stop_status_witness :
  np2srv_ntf_new_cb
    (mk_notif_world (fun p => Some (Lyd p None)) (fun _ _ => 0) (fun _ => NC_MSG_NOTIF))
    (mk_session 7 (Some "alice") None NC_TI_LIBSSH)
    SR_EV_NOTIF_STOP (Lyd "ignored" None) 0
  = Some [Call_lyd_new_path "/nc-notifications:notificationComplete";
          Call_ncac_check_operation (Lyd "/nc-notifications:notificationComplete" None)
            (Some "alice");
          Call_nc_server_notif_new (Lyd "/nc-notifications:notificationComplete" None) 0;
          Call_nc_server_notif_send (Lyd "/nc-notifications:notificationComplete" None);
          Call_ncm_session_notification;
          Call_nc_session_set_notif_status 0;
          Call_nc_server_notif_free true;
          Call_lyd_free_withsiblings
            (Some (Lyd "/nc-notifications:notificationComplete" None))].
Proof.
  destruct (notification_stop_status
              (mk_notif_world (fun p => Some (Lyd p None)) (fun _ _ => 0)
                              (fun _ => NC_MSG_NOTIF))
              (mk_session 7 (Some "alice") None NC_TI_LIBSSH)
              SR_EV_NOTIF_STOP (Lyd "ignored" None) 0 _ eq_refl)
    as (node & _).
  reflexivity.
Defined.
